(** * github-repo-actions: the batch engine of the repository manager

    A shallow embedding of [src/types.ts], [src/utils.ts] and
    [src/github-repo-manager.ts], and the properties of the paginated
    fetch, the eligibility filter, the confirmation gates and the two
    batch loops.

    Conventions.
    - A JavaScript string is a [string]; one character stands for one
      UTF-16 code unit, so [String.length] is [str.length].
    - The numbers that occur (lengths, indices, sizes, page numbers,
      the [maxLength] bound) are integers: [nat] where the source counts,
      [Z] where it subtracts.
    - A value that may be [null] or [undefined] is a [Nullable].
    - The remote service (Octokit), the clock and the operator at the
      prompts are the environment: the remote is a transition system on a
      world [W], the operator is a script of answers.
    - Console output is kept by content, not as formatted text. The
      helpers that format are embedded on their own: [formatSize] on
      integers, [displayProgressBar] on binary64 numbers;
      [formatDate], which depends on the locale data of the runtime,
      has no counterpart here.
    - The session ([main], the constructor, [start], [showMainMenu],
      [listRepositories]) runs the flows and adds the lines that only
      it prints. *)

From Stdlib Require Import List String Ascii Bool ZArith Arith Lia.
From Stdlib Require Import Permutation Sorted.
From Stdlib Require Import DecimalString.
From Stdlib Require PrimFloat FloatOps SpecFloat Uint63.
Import ListNotations.

Local Open Scope string_scope.
Local Open Scope list_scope.

(* ------------------------------------------------------------------ *)
(** * JavaScript values                                                 *)
(* ------------------------------------------------------------------ *)

Module Js.

(** [T | null | undefined] *)
Inductive Nullable (A : Type) : Type :=
| Null
| Undefined
| Val (a : A).
Arguments Null {A}.
Arguments Undefined {A}.
Arguments Val {A} a.

(** ToBoolean on a string that may be absent: [null], [undefined] and
    the empty string are the falsy ones. *)
Definition truthy (v : Nullable string) : bool :=
  match v with
  | Val s => negb (String.eqb s EmptyString)
  | Null | Undefined => false
  end.

(** [v || d] with a string default. *)
Definition or_else (v : Nullable string) (d : string) : string :=
  match v with
  | Val s => if truthy v then s else d
  | Null | Undefined => d
  end.

(** [s.substring(start, end)]: both indices are clamped to
    [0 .. s.length] and swapped when out of order. *)
Definition clamp (len i : Z) : Z := Z.min (Z.max i 0) len.

Definition substring (s : string) (start end_ : Z) : string :=
  let len := Z.of_nat (String.length s) in
  let fs := clamp len start in
  let fe := clamp len end_ in
  let from := Z.min fs fe in
  let to := Z.max fs fe in
  String.substring (Z.to_nat from) (Z.to_nat (to - from)) s.

End Js.

Import Js.

(* ------------------------------------------------------------------ *)
(** * src/types.ts                                                      *)
(* ------------------------------------------------------------------ *)

Record Repository : Type := mkRepository {
  id : Z;
  name : string;
  fullName : string;
  private : bool;
  description : string;
  language : string;
  updatedAt : string;
  size : Z
}.

(** One element of the [data] array answered by
    [repos.listForAuthenticatedUser]: the fields the manager reads. *)
Record RawRepo : Type := mkRawRepo {
  raw_id : Z;
  raw_name : string;
  raw_full_name : string;
  raw_private : bool;
  raw_description : Nullable string;
  raw_language : Nullable string;
  raw_updated_at : Nullable string;
  raw_size : Z
}.

Definition Repository_eq_dec (a b : Repository) : {a = b} + {a <> b}.
Proof.
  decide equality;
    first [ apply Z.eq_dec | apply string_dec | apply bool_dec ].
Defined.

(** The first [n] characters of [s], as a list operation. *)
Definition first_chars (n : nat) (s : string) : string :=
  string_of_list_ascii (firstn n (list_ascii_of_string s)).

(* ------------------------------------------------------------------ *)
(** * The environment: remote calls, console, clock                     *)
(* ------------------------------------------------------------------ *)

(** What a rejected Octokit request throws. *)
Inductive Error : Type :=
| RequestError (status : Z) (message : string).

(** The argument objects of the three remote calls. *)
Record ListParams : Type := mkListParams {
  per_page : nat;
  page : nat;
  sort : string;
  direction : string
}.

Record UpdateParams : Type := mkUpdateParams {
  update_owner : string;
  update_repo : string;
  update_private : bool
}.

Record DeleteParams : Type := mkDeleteParams {
  delete_owner : string;
  delete_repo : string
}.

(** [octokit.rest]: each call steps the remote world and either
    resolves or rejects. [clock] is [new Date().toISOString()]. *)
Record Octokit (W : Type) : Type := mkOctokit {
  listForAuthenticatedUser : ListParams -> W -> (Error + list RawRepo) * W;
  repos_update : UpdateParams -> W -> (Error + unit) * W;
  repos_delete : DeleteParams -> W -> (Error + unit) * W;
  clock : W -> string
}.
Arguments listForAuthenticatedUser {W} _ _ _.
Arguments repos_update {W} _ _ _.
Arguments repos_delete {W} _ _ _.
Arguments clock {W} _ _.

(** The lines written to the console, by content. [Progress current
    total] is the bar of [Utils.displayProgressBar(current, total)],
    [PromptError] the text a prompt shows for a refused line. *)
Inductive Message : Type :=
| FetchingRepositories
| FailedToFetch (error : Error)
| NoRepositoriesFound
| AllAlready (targetVisibility : string)
| NoRepositoriesSelected
| OperationCancelled
| ChangingVisibility (targetVisibility : string)
| Progress (current total : nat)
| Changed (repoName targetVisibility : string)
| FailedToChange (repoName : string)
| BlankLine
| VisibilitySummary (successCount errorCount : nat)
| AboutToDelete
| Bullet (repo : string)
| PromptError (message : string)
| DeletingRepositories
| Deleted (repoName : string)
| FailedToDelete (repoName : string)
| DeleteSummary (successCount errorCount : nat).

(** What an observer of one run sees, in order. A remote call is
    recorded with its outcome. *)
Inductive Event : Type :=
| Console (m : Message)
| ListCall (p : ListParams)
| UpdateCall (p : UpdateParams) (ok : bool)
| DeleteCall (p : DeleteParams) (ok : bool)
| Delay (ms : nat).

(** ** The monad of the async methods

    A method runs from a state (the remote world and the events so far)
    and returns, throws, or never completes ([Hang]: a pending prompt, or
    a fetch loop that was given too little fuel). *)

Inductive Outcome (A : Type) : Type :=
| Ret (a : A)
| Exn (e : Error)
| Hang.
Arguments Ret {A} a.
Arguments Exn {A} e.
Arguments Hang {A}.

Record St (W : Type) : Type := mkSt {
  world : W;
  trace : list Event
}.
Arguments mkSt {W} _ _.
Arguments world {W} _.
Arguments trace {W} _.

Definition M (W A : Type) : Type := St W -> Outcome A * St W.

Definition ret {W A} (a : A) : M W A := fun st => (Ret a, st).

Definition bind {W A B} (m : M W A) (k : A -> M W B) : M W B :=
  fun st =>
    match m st with
    | (Ret a, st') => k a st'
    | (Exn e, st') => (Exn e, st')
    | (Hang, st') => (Hang, st')
    end.

Definition hang {W A} : M W A := fun st => (Hang, st).

(** [try { body } catch (error) { handler(error) }] *)
Definition try_catch {W A} (body : M W A) (handler : Error -> M W A) : M W A :=
  fun st =>
    match body st with
    | (Exn e, st') => handler e st'
    | r => r
    end.

Definition emit {W} (e : Event) : M W unit :=
  fun st => (Ret tt, mkSt (world st) (trace st ++ [e])).

Definition log {W} (m : Message) : M W unit := emit (Console m).

(** One awaited remote call: step the world, record the call, then
    resolve or reject. *)
Definition request {W A} (call : W -> (Error + A) * W) (ev : bool -> Event)
  : M W A :=
  fun st =>
    match call (world st) with
    | (inr a, w') => (Ret a, mkSt w' (trace st ++ [ev true]))
    | (inl e, w') => (Exn e, mkSt w' (trace st ++ [ev false]))
    end.

Declare Scope monad_scope.
Delimit Scope monad_scope with monad.
Notation "x <- m ;; k" := (bind m (fun x => k))
  (at level 61, m at next level, right associativity) : monad_scope.
Notation "m ;; k" := (bind m (fun _ => k))
  (at level 61, right associativity) : monad_scope.
Notation "' pat <- m ;; k" := (bind m (fun x => match x with pat => k end))
  (at level 61, pat pattern, m at next level, right associativity) : monad_scope.

Local Open Scope monad_scope.

Fixpoint forEach {W A} (f : A -> M W unit) (l : list A) : M W unit :=
  match l with
  | [] => ret tt
  | x :: l' => f x ;; forEach f l'
  end.

(* ------------------------------------------------------------------ *)
(** * The operator at the inquirer prompts                              *)
(* ------------------------------------------------------------------ *)

Inductive Visibility : Type := Public | Private.

(** The [value] of the chosen entry of the visibility menu. *)
Definition visibility_value (v : Visibility) : string :=
  match v with
  | Public => "public"
  | Private => "private"
  end.

(** One entry of a checkbox prompt. *)
Record Choice : Type := mkChoice {
  choice_name : string;
  choice_value : string;
  choice_checked : bool
}.

(** What the operator answers: the visibility picked from the menu, the
    entries ticked in a checkbox, the answer to the yes/no question and
    the lines submitted, in order, at the text prompt. *)
Record Operator : Type := mkOperator {
  op_visibility : Visibility;
  op_ticks : Choice -> bool;
  op_confirm : bool;
  op_typed : list string
}.

(** A checkbox prompt answers the values of the ticked entries, in the
    order they are shown. *)
Definition checkbox (op : Operator) (choices : list Choice) : list string :=
  map choice_value (filter (op_ticks op) choices).

(** What a [validate] callback returns: [true], or an error text. *)
Inductive Validation : Type :=
| Valid
| Invalid (message : string).

(** inquirer's [input] prompt with a [validate] callback: every
    submitted line goes through [validate]; a line that is not valid is
    answered with the error text and the prompt keeps waiting; the
    prompt resolves with the first valid line. With no valid line it
    stays pending. *)
Fixpoint input_prompt {W} (validate : string -> Validation)
  (typed : list string) : M W string :=
  match typed with
  | [] => hang
  | line :: typed' =>
      match validate line with
      | Valid => ret line
      | Invalid message => log (PromptError message) ;; input_prompt validate typed'
      end
  end.

(* ------------------------------------------------------------------ *)
(** * src/utils.ts                                                      *)
(* ------------------------------------------------------------------ *)

(** The parts of the JavaScript runtime that [sortRepositories] calls:
    [new Date(s).getTime()] ([None] is NaN, an invalid date),
    [s.toLowerCase()] and [a.localeCompare(b)]. *)
Record Runtime : Type := mkRuntime {
  getTime : string -> option Z;
  toLowerCase : string -> string;
  localeCompare : string -> string -> Z
}.

Inductive SortBy : Type := ByName | ByUpdated | BySize.

(** Arrays live in a store and are passed by reference. *)
Module Arrays.

Definition Ref : Type := nat.
Definition Store : Type := list (list Repository).

Definition read (h : Store) (r : Ref) : list Repository := nth r h [].

Fixpoint write (h : Store) (r : Ref) (l : list Repository) : Store :=
  match h, r with
  | [], _ => []
  | _ :: h', 0 => l :: h'
  | a :: h', S r' => a :: write h' r' l
  end.

Definition alloc (l : list Repository) (h : Store) : Ref * Store :=
  (List.length h, h ++ [l]).

(** [Array.prototype.sort(compareFn)] on the elements: a stable sort
    (ECMAScript 2019), here by insertion; a comparator result of NaN
    counts as 0. For a consistent comparator every stable sort gives
    this order. *)
Fixpoint insert (compareFn : Repository -> Repository -> option Z)
  (x : Repository) (l : list Repository) : list Repository :=
  match l with
  | [] => [x]
  | y :: l' =>
      let v := match compareFn x y with Some z => z | None => 0%Z end in
      if (v <=? 0)%Z then x :: y :: l' else y :: insert compareFn x l'
  end.

Fixpoint sorted_elements (compareFn : Repository -> Repository -> option Z)
  (l : list Repository) : list Repository :=
  match l with
  | [] => []
  | x :: l' => insert compareFn x (sorted_elements compareFn l')
  end.

(** [arr.sort(compareFn)]: sorts the array in place and returns the
    same reference. *)
Definition sort (compareFn : Repository -> Repository -> option Z)
  (arr : Ref) (h : Store) : Ref * Store :=
  (arr, write h arr (sorted_elements compareFn (read h arr))).

(** [arr.filter(f)]: a new array; [arr] is only read. *)
Definition filter (f : Repository -> bool) (arr : Ref) (h : Store)
  : Ref * Store :=
  alloc (List.filter f (read h arr)) h.

(** [arr.forEach(f)] for a callback that only reads its argument:
    the values it computes, in order. *)
Definition forEach {A} (f : Repository -> A) (arr : Ref) (h : Store)
  : list A * Store :=
  (map f (read h arr), h).

End Arrays.

Module Utils.

(** [truncateString(str, maxLength)] *)
Definition truncateString (str : string) (maxLength : Z) : string :=
  if (Z.of_nat (String.length str) <=? maxLength)%Z then str
  else (Js.substring str 0 (maxLength - 3) ++ "...")%string.

(** The comparator handed to [sort] by [sortRepositories]. *)
Definition compareFn (rt : Runtime) (sortBy : SortBy) (a b : Repository)
  : option Z :=
  match sortBy with
  | ByName =>
      Some (localeCompare rt (toLowerCase rt (name a)) (toLowerCase rt (name b)))
  | ByUpdated =>
      match getTime rt (updatedAt b), getTime rt (updatedAt a) with
      | Some tb, Some ta => Some (tb - ta)%Z
      | _, _ => None
      end
  | BySize => Some (size b - size a)%Z
  end.

(** [sortRepositories(repos, sortBy)] is [repos.sort(...)]. *)
Definition sortRepositories (rt : Runtime) (repos : Arrays.Ref)
  (sortBy : SortBy) (h : Arrays.Store) : Arrays.Ref * Arrays.Store :=
  Arrays.sort (compareFn rt sortBy) repos h.

(** [delay(ms)]: the awaited timer. *)
Definition delay {W} (ms : nat) : M W unit := emit (Delay ms).

End Utils.

(* ------------------------------------------------------------------ *)
(** * src/github-repo-manager.ts                                        *)
(* ------------------------------------------------------------------ *)

(** The record built by [data.map] in [getAllRepositories]; [now] is
    [new Date().toISOString()]. *)
Definition toRepository (now : string) (repo : RawRepo) : Repository :=
  {| id := raw_id repo;
     name := raw_name repo;
     fullName := raw_full_name repo;
     private := raw_private repo;
     description := or_else (raw_description repo) "No description";
     language := or_else (raw_language repo) "Unknown";
     updatedAt := or_else (raw_updated_at repo) now;
     size := raw_size repo |}.

(** [targetVisibility === 'private'] *)
Definition isTargetPrivate (targetVisibility : Visibility) : bool :=
  String.eqb (visibility_value targetVisibility) "private".

(** [repos.filter((repo) => repo.private !== isTargetPrivate)] *)
Definition filteredRepos (targetVisibility : Visibility)
  (repos : list Repository) : list Repository :=
  filter (fun repo => negb (Bool.eqb (private repo) (isTargetPrivate targetVisibility)))
         repos.

(** A double quote. *)
Definition quote : string := String (ascii_of_nat 34) EmptyString.

(** The text with which [validate] refuses a line: the word DELETE is
    in double quotes. *)
Definition mustTypeDelete : string :=
  ("You must type " ++ quote ++ "DELETE" ++ quote ++ " to confirm")%string.

(** The [validate] callback of the deletion prompt. *)
Definition validateDelete (input : string) : Validation :=
  if String.eqb input "DELETE" then Valid else Invalid mustTypeDelete.

(** The visibility as the prompts show it (the glyph is held as its
    UTF-8 bytes; labels are only displayed). *)
Definition visibilityLabel (isPrivate : bool) : string :=
  if isPrivate then "🔒 Private" else "🌍 Public".

Section Manager.

Context {W : Type}.
Variable octokit : Octokit W.
(** [this.username], set by [start] from the authenticated login. *)
Variable username : string.

(** The body of [while (hasMore)]: one turn per unit of fuel. *)
Fixpoint fetchPages (fuel : nat) (repositories : list Repository) (page : nat)
  : M W (list Repository) :=
  match fuel with
  | 0 => hang
  | S fuel' =>
      let params := mkListParams 100 page "updated" "desc" in
      data <- request (listForAuthenticatedUser octokit params)
                      (fun _ => ListCall params) ;;
      now <- (fun st => (Ret (clock octokit (world st)), st)) ;;
      let repositories := repositories ++ map (toRepository now) data in
      let hasMore := Nat.eqb (List.length data) 100 in
      if hasMore then fetchPages fuel' repositories (S page)
      else ret repositories
  end.

Definition getAllRepositories (fuel : nat) : M W (list Repository) :=
  log FetchingRepositories ;;
  try_catch (fetchPages fuel [] 1)
            (fun error => log (FailedToFetch error) ;; ret []).

(** The [for] loop of [changeVisibilityFlow], at index [i] with
    [rest] the items from [i] on and [total] the length of
    [selectedRepos]. *)
Fixpoint changeVisibilityLoop (targetVisibility : Visibility) (total i : nat)
  (rest : list string) (successCount errorCount : nat) : M W (nat * nat) :=
  match rest with
  | [] => ret (successCount, errorCount)
  | repoName :: rest' =>
      log (Progress (i + 1) total) ;;
      ' (successCount', errorCount') <-
        try_catch
          (let params :=
             mkUpdateParams username repoName (isTargetPrivate targetVisibility) in
           request (repos_update octokit params) (UpdateCall params) ;;
           log (Changed repoName (visibility_value targetVisibility)) ;;
           ret (S successCount, errorCount))
          (fun error =>
             log (FailedToChange repoName) ;;
             ret (successCount, S errorCount)) ;;
      (if (Z.of_nat i <? Z.of_nat total - 1)%Z then Utils.delay 100 else ret tt) ;;
      changeVisibilityLoop targetVisibility total (S i) rest' successCount' errorCount'
  end.

(** [changeVisibilityFlow] from the confirmation answer on. *)
Definition changeVisibilityConfirmed (targetVisibility : Visibility)
  (selectedRepos : list string) (confirm : bool) : M W unit :=
  if negb confirm then log OperationCancelled
  else
    log (ChangingVisibility (visibility_value targetVisibility)) ;;
    ' (successCount, errorCount) <-
      changeVisibilityLoop targetVisibility (List.length selectedRepos) 0
                           selectedRepos 0 0 ;;
    log BlankLine ;;
    log (VisibilitySummary successCount errorCount).

Definition changeVisibilityFlow (op : Operator) (fuel : nat) : M W unit :=
  let targetVisibility := op_visibility op in
  repos <- getAllRepositories fuel ;;
  if Nat.eqb (List.length repos) 0 then log NoRepositoriesFound
  else
    let filteredRepos := filteredRepos targetVisibility repos in
    if Nat.eqb (List.length filteredRepos) 0
    then log (AllAlready (visibility_value targetVisibility))
    else
      let repoChoices :=
        map (fun repo =>
               mkChoice (name repo ++ " (" ++ visibilityLabel (private repo)
                           ++ ") - " ++ language repo)%string
                        (name repo) false)
            filteredRepos in
      let selectedRepos := checkbox op repoChoices in
      if Nat.eqb (List.length selectedRepos) 0 then log NoRepositoriesSelected
      else changeVisibilityConfirmed targetVisibility selectedRepos (op_confirm op).

(** The [for] loop of [deleteRepositoriesFlow]. *)
Fixpoint deleteLoop (total i : nat) (rest : list string)
  (successCount errorCount : nat) : M W (nat * nat) :=
  match rest with
  | [] => ret (successCount, errorCount)
  | repoName :: rest' =>
      log (Progress (i + 1) total) ;;
      ' (successCount', errorCount') <-
        try_catch
          (let params := mkDeleteParams username repoName in
           request (repos_delete octokit params) (DeleteCall params) ;;
           log (Deleted repoName) ;;
           ret (S successCount, errorCount))
          (fun error =>
             log (FailedToDelete repoName) ;;
             ret (successCount, S errorCount)) ;;
      (if (Z.of_nat i <? Z.of_nat total - 1)%Z then Utils.delay 200 else ret tt) ;;
      deleteLoop total (S i) rest' successCount' errorCount'
  end.

(** [deleteRepositoriesFlow] from the answer of the text prompt on. *)
Definition deleteConfirmed (selectedRepos : list string)
  (confirmDelete : string) : M W unit :=
  if negb (String.eqb confirmDelete "DELETE") then log OperationCancelled
  else
    log DeletingRepositories ;;
    ' (successCount, errorCount) <-
      deleteLoop (List.length selectedRepos) 0 selectedRepos 0 0 ;;
    log BlankLine ;;
    log (DeleteSummary successCount errorCount).

Definition deleteRepositoriesFlow (op : Operator) (fuel : nat) : M W unit :=
  repos <- getAllRepositories fuel ;;
  if Nat.eqb (List.length repos) 0 then log NoRepositoriesFound
  else
    let repoChoices :=
      map (fun repo =>
             mkChoice (name repo ++ " (" ++ visibilityLabel (private repo)
                         ++ ") - " ++ language repo ++ " - " ++ description repo)%string
                      (name repo) false)
          repos in
    let selectedRepos := checkbox op repoChoices in
    if Nat.eqb (List.length selectedRepos) 0 then log NoRepositoriesSelected
    else
      log AboutToDelete ;;
      forEach (fun repo => log (Bullet repo)) selectedRepos ;;
      confirmDelete <- input_prompt validateDelete (op_typed op) ;;
      deleteConfirmed selectedRepos confirmDelete.

End Manager.

(** ** The list view on the array: [listRepositories] from line 134 on

    One row per record: the truncated name, the visibility, the
    truncated language and the size that [formatSize] prints. *)
Record Row : Type := mkRow {
  row_name : string;
  row_private : bool;
  row_language : string;
  row_size : Z
}.

Definition tableRow (repo : Repository) : Row :=
  mkRow (Utils.truncateString (name repo) 28)
        (private repo)
        (Utils.truncateString (language repo) 13)
        (size repo).

Definition listView (rt : Runtime) (repos : Arrays.Ref) (h : Arrays.Store)
  : list Row * Arrays.Store :=
  let '(sortedRepos, h1) := Utils.sortRepositories rt repos ByUpdated h in
  Arrays.forEach tableRow sortedRepos h1.

(* ------------------------------------------------------------------ *)
(** * Reading a run                                                     *)
(* ------------------------------------------------------------------ *)

(** The parameters every list call of the manager carries. *)
Definition listParams (page : nat) : ListParams :=
  mkListParams 100 page "updated" "desc".

(** The remote's answers to [n] successive list calls for the pages
    [page], [page + 1], ... from the world [w]. *)
Fixpoint answers {W} (octokit : Octokit W) (n page : nat) (w : W)
  : list (Error + list RawRepo) :=
  match n with
  | 0 => []
  | S n' =>
      let '(r, w') := listForAuthenticatedUser octokit (listParams page) w in
      r :: answers octokit n' (S page) w'
  end.

(** The list calls of a run. *)
Definition listCalls (evs : list Event) : list ListParams :=
  flat_map (fun e => match e with ListCall p => [p] | _ => [] end) evs.

(** The mutation calls of a run: the repository named and whether the
    call succeeded. *)
Definition mutations (evs : list Event) : list (string * bool) :=
  flat_map (fun e =>
              match e with
              | UpdateCall p ok => [(update_repo p, ok)]
              | DeleteCall p ok => [(delete_repo p, ok)]
              | _ => []
              end) evs.

(** How many mutation calls of a run failed. *)
Definition failures (evs : list Event) : nat :=
  List.length (filter (fun c => negb (snd c)) (mutations evs)).

(** The waits of a run, in milliseconds. *)
Definition delays (evs : list Event) : list nat :=
  flat_map (fun e => match e with Delay ms => [ms] | _ => [] end) evs.

Definition isStep (e : Event) : bool :=
  match e with
  | UpdateCall _ _ | DeleteCall _ _ | Delay _ => true
  | _ => false
  end.

(** A run reduced to its mutation calls and waits. *)
Definition steps (evs : list Event) : list Event := filter isStep evs.

(** Calls with one wait of [ms] between each two neighbours. *)
Fixpoint paced (ms : nat) (calls : list Event) : list Event :=
  match calls with
  | [] => []
  | [c] => [c]
  | c :: rest => c :: Delay ms :: paced ms rest
  end.

Definition isCall (e : Event) : bool :=
  match e with
  | UpdateCall _ _ | DeleteCall _ _ => true
  | _ => false
  end.

(** The mutation calls of a run, as events. *)
Definition calls (evs : list Event) : list Event := filter isCall evs.

(** The events of a batch loop from index [i] on, given the outcome of
    each call: the progress bar, the call, its report, and the wait
    when another item follows. *)
Fixpoint batchEvents (call : string -> bool -> Event)
  (report : string -> bool -> Message) (ms total i : nat)
  (rest : list string) (oks : list bool) : list Event :=
  match rest, oks with
  | repoName :: rest', ok :: oks' =>
      [Console (Progress (i + 1) total); call repoName ok;
       Console (report repoName ok)]
      ++ (if (Z.of_nat i <? Z.of_nat total - 1)%Z then [Delay ms] else [])
      ++ batchEvents call report ms total (S i) rest' oks'
  | _, _ => []
  end.

Definition updateEvent (username : string) (targetVisibility : Visibility)
  (repoName : string) (ok : bool) : Event :=
  UpdateCall (mkUpdateParams username repoName (isTargetPrivate targetVisibility)) ok.

Definition updateReport (targetVisibility : Visibility)
  (repoName : string) (ok : bool) : Message :=
  if ok then Changed repoName (visibility_value targetVisibility)
  else FailedToChange repoName.

Definition deleteEvent (username : string) (repoName : string) (ok : bool) : Event :=
  DeleteCall (mkDeleteParams username repoName) ok.

Definition deleteReport (repoName : string) (ok : bool) : Message :=
  if ok then Deleted repoName else FailedToDelete repoName.

(** [sub] keeps some elements of [l], in their order. *)
Inductive Subsequence {A : Type} : list A -> list A -> Prop :=
| sub_nil : Subsequence [] []
| sub_keep x sub l : Subsequence sub l -> Subsequence (x :: sub) (x :: l)
| sub_drop x sub l : Subsequence sub l -> Subsequence sub (x :: l).

(* ------------------------------------------------------------------ *)
(** * Two remotes to run the manager against                            *)
(* ------------------------------------------------------------------ *)

Definition rawRepo (n : string) (isPrivate : bool) (kb : Z) : RawRepo :=
  mkRawRepo kb n ("octocat/" ++ n)%string isPrivate Null (Val "TypeScript")
            (Val "2024-01-01T00:00:00Z") kb.

(** A remote that answers the n-th list call with the page of that
    number in a script, and with the empty page past its end; its
    mutations succeed. *)
Module Scripted.

Definition octokit (script : list (Error + list RawRepo)) : Octokit unit :=
  {| listForAuthenticatedUser := fun p w => (nth (page p - 1) script (inr []), w);
     repos_update := fun _ w => (inr tt, w);
     repos_delete := fun _ w => (inr tt, w);
     clock := fun _ => "2024-06-01T00:00:00.000Z" |}.

Definition fullPage : list RawRepo := repeat (rawRepo "repo" false 1) 100.
Definition shortPage : list RawRepo := repeat (rawRepo "repo" false 1) 37.

Definition start : St unit := mkSt tt [].

End Scripted.

(** An account: the world is the list of its repositories. A list call
    answers the requested slice, an update sets the flag of the named
    repository, a delete removes it; both reject an unknown name. *)
Module Account.

Definition known (n : string) (w : list RawRepo) : bool :=
  existsb (fun r => String.eqb (raw_name r) n) w.

Definition setPrivate (n : string) (p : bool) (w : list RawRepo) : list RawRepo :=
  map (fun r =>
         if String.eqb (raw_name r) n
         then mkRawRepo (raw_id r) (raw_name r) (raw_full_name r) p
                        (raw_description r) (raw_language r)
                        (raw_updated_at r) (raw_size r)
         else r) w.

Definition notFound : Error := RequestError 404 "Not Found".

Definition octokit : Octokit (list RawRepo) :=
  {| listForAuthenticatedUser := fun p w =>
       (inr (firstn (per_page p) (skipn ((page p - 1) * per_page p) w)), w);
     repos_update := fun p w =>
       if known (update_repo p) w
       then (inr tt, setPrivate (update_repo p) (update_private p) w)
       else (inl notFound, w);
     repos_delete := fun p w =>
       if known (delete_repo p) w
       then (inr tt, filter (fun r => negb (String.eqb (raw_name r) (delete_repo p))) w)
       else (inl notFound, w);
     clock := fun _ => "2024-06-01T00:00:00.000Z" |}.

Definition start (w : list RawRepo) : St (list RawRepo) := mkSt w [].

End Account.

(** A remote that lists repositories of several owners, as the list
    call does for the repositories of organisations, and addresses a
    mutation by owner and name: [owner/repo] must be the full name of
    the repository. *)
Module Owned.

Definition addressed (owner repo : string) (r : RawRepo) : bool :=
  String.eqb (raw_full_name r) (owner ++ "/" ++ repo)%string.

Definition octokit : Octokit (list RawRepo) :=
  {| listForAuthenticatedUser := fun p w =>
       (inr (firstn (per_page p) (skipn ((page p - 1) * per_page p) w)), w);
     repos_update := fun p w =>
       if existsb (addressed (update_owner p) (update_repo p)) w
       then (inr tt,
             map (fun r =>
                    if addressed (update_owner p) (update_repo p) r
                    then mkRawRepo (raw_id r) (raw_name r) (raw_full_name r)
                                   (update_private p) (raw_description r)
                                   (raw_language r) (raw_updated_at r) (raw_size r)
                    else r) w)
       else (inl Account.notFound, w);
     repos_delete := fun p w =>
       if existsb (addressed (delete_owner p) (delete_repo p)) w
       then (inr tt,
             filter (fun r => negb (addressed (delete_owner p) (delete_repo p) r)) w)
       else (inl Account.notFound, w);
     clock := fun _ => "2024-06-01T00:00:00.000Z" |}.

(** Two public repositories of the same name, one of the user and one
    of an organisation. *)
Definition twoOwners : list RawRepo :=
  [rawRepo "x" false 1;
   mkRawRepo 2 "x" "acme/x" false Null Null (Val "2024-01-01T00:00:00Z") 2].

End Owned.

(** An account that can be read but not changed: its list call answers
    as that of [Account], every update and delete is rejected. *)
Module Refusing.

Definition forbidden : Error := RequestError 403 "Forbidden".

Definition octokit : Octokit (list RawRepo) :=
  {| listForAuthenticatedUser := listForAuthenticatedUser Account.octokit;
     repos_update := fun _ w => (inl forbidden, w);
     repos_delete := fun _ w => (inl forbidden, w);
     clock := clock Account.octokit |}.

End Refusing.

(** An account of two public repositories and one private one, and an
    operator who asks for private, ticks the entry of one repository
    and confirms. *)
Definition sampleAccount : list RawRepo :=
  [rawRepo "a" false 1; rawRepo "b" false 2; rawRepo "c" true 3].

Definition tickOnly (n : string) (typed : list string) : Operator :=
  mkOperator Private (fun c => String.eqb (choice_value c) n) true typed.

Definition lowerAscii (c : ascii) : ascii :=
  let n := nat_of_ascii c in
  if Nat.leb 65 n && Nat.leb n 90 then ascii_of_nat (n + 32) else c.

Fixpoint lowerString (s : string) : string :=
  match s with
  | EmptyString => EmptyString
  | String c s' => String (lowerAscii c) (lowerString s')
  end.

(** A runtime for ASCII names that reads the two timestamps used
    below. *)
Definition sampleRuntime : Runtime :=
  {| getTime := fun s =>
       if String.eqb s "2024-01-01T00:00:00Z" then Some 1704067200000%Z
       else if String.eqb s "2024-06-01T00:00:00Z" then Some 1717200000000%Z
       else None;
     toLowerCase := lowerString;
     localeCompare := fun a b => match String.compare a b with
                                 | Lt => (-1)%Z | Eq => 0%Z | Gt => 1%Z
                                 end |}.

(** The value a run returned, if it returned. *)
Definition returned {A} (o : Outcome A) : option A :=
  match o with
  | Ret a => Some a
  | _ => None
  end.

(** Whether a remote call resolved. *)
Definition succeeded {A} (r : Error + A) : bool :=
  match r with
  | inr _ => true
  | inl _ => false
  end.

(** The resolved and the rejected among the outcomes of a batch. *)
Definition successes (oks : list bool) : nat := List.length (filter (fun ok => ok) oks).
Definition rejections (oks : list bool) : nat := List.length (filter negb oks).

(** An event that is neither a mutation call nor the cancellation
    line. *)
Definition quiet (e : Event) : bool :=
  match e with
  | UpdateCall _ _ | DeleteCall _ _ => false
  | Console OperationCancelled => false
  | _ => true
  end.

(** A computation all of whose events are quiet, however it ends. *)
Definition Quiet {W A} (m : M W A) : Prop :=
  forall st, exists evs,
    trace (snd (m st)) = trace st ++ evs /\ forallb quiet evs = true.

(** The time [sortRepositories] compares by; 0 stands in for an
    invalid date, which the properties below exclude. *)
Definition updatedTime (rt : Runtime) (repo : Repository) : Z :=
  match getTime rt (updatedAt repo) with
  | Some t => t
  | None => 0%Z
  end.

(** Two records, the second updated after the first. *)
Definition olderRepo : Repository :=
  mkRepository 1 "old" "octocat/old" false "No description" "TypeScript"
               "2024-01-01T00:00:00Z" 10.

Definition newerRepo : Repository :=
  mkRepository 2 "new" "octocat/new" true "No description" "Unknown"
               "2024-06-01T00:00:00Z" 20.

(** [snapshot] holds the records of [raws], normalised, in order. *)
Definition normalised (snapshot : list Repository) (raws : list RawRepo) : Prop :=
  Forall2 (fun r raw => exists now, r = toRepository now raw) snapshot raws.

(** [a] may stand before [b] when its key is not the smaller one. *)
Definition before (key : Repository -> Z) (a b : Repository) : Prop :=
  (key b <= key a)%Z.

(* ------------------------------------------------------------------ *)
(** * More ways to read a run                                           *)
(* ------------------------------------------------------------------ *)

(** A computation all of whose events satisfy [P], however it ends. *)
Definition Emits (P : Event -> bool) {W A} (m : M W A) : Prop :=
  forall st, exists evs,
    trace (snd (m st)) = trace st ++ evs /\ forallb P evs = true.

(** A computation that never ends by throwing. *)
Definition NoThrow {W A} (m : M W A) : Prop :=
  forall st error, fst (m st) <> Exn error.

(** The events of a fetch and of the notices with which a flow ends
    before it asks for a confirmation. *)
Definition fetchOrNotice (e : Event) : bool :=
  match e with
  | ListCall _ => true
  | Console FetchingRepositories | Console (FailedToFetch _)
  | Console NoRepositoriesFound | Console (AllAlready _)
  | Console NoRepositoriesSelected => true
  | _ => false
  end.

(** An update call of [username] towards [targetVisibility] on one of
    [names]; any event that is not a remote call. *)
Definition updateWithin (username : string) (targetVisibility : Visibility)
  (names : list string) (e : Event) : bool :=
  match e with
  | UpdateCall p _ =>
      String.eqb (update_owner p) username
      && Bool.eqb (update_private p) (isTargetPrivate targetVisibility)
      && existsb (String.eqb (update_repo p)) names
  | DeleteCall _ _ | ListCall _ => false
  | _ => true
  end.

(** A delete call of [username] on one of [names]; any event that is
    not a remote call. *)
Definition deleteWithin (username : string) (names : list string) (e : Event)
  : bool :=
  match e with
  | DeleteCall p _ =>
      String.eqb (delete_owner p) username
      && existsb (String.eqb (delete_repo p)) names
  | UpdateCall _ _ | ListCall _ => false
  | _ => true
  end.

(** The progress lines of a run: [(current, total)] of each. *)
Definition progressLines (evs : list Event) : list (nat * nat) :=
  flat_map (fun e =>
              match e with
              | Console (Progress current total) => [(current, total)]
              | _ => []
              end) evs.

(** The events of a flow that ends at a declined confirmation. *)
Definition fetchNoticeOrCancel (e : Event) : bool :=
  match e with
  | Console OperationCancelled => true
  | _ => fetchOrNotice e
  end.

(* ------------------------------------------------------------------ *)
(** * src/utils.ts: the other helpers                                   *)
(* ------------------------------------------------------------------ *)

(** The [filter] argument of [filterRepositories]: each criterion may
    be left out ([undefined]). *)
Record Filter : Type := mkFilter {
  filter_private : option bool;
  filter_language : option string;
  filter_minSize : option Z;
  filter_maxSize : option Z
}.

(** The callback of [repos.filter] in [filterRepositories]: its four
    tests in order, each rejecting the record. A language criterion
    that is the empty string is falsy and tests nothing. *)
Definition keeps (rt : Runtime) (filter : Filter) (repo : Repository) : bool :=
  if match filter_private filter with
     | Some p => negb (Bool.eqb (private repo) p)
     | None => false
     end
  then false
  else if match filter_language filter with
          | Some l =>
              negb (String.eqb l EmptyString)
              && negb (String.eqb (toLowerCase rt (language repo)) (toLowerCase rt l))
          | None => false
          end
  then false
  else if match filter_minSize filter with
          | Some m => (size repo <? m)%Z
          | None => false
          end
  then false
  else if match filter_maxSize filter with
          | Some m => (m <? size repo)%Z
          | None => false
          end
  then false
  else true.

Definition filterRepositories (rt : Runtime) (repos : list Repository)
  (filter : Filter) : list Repository :=
  List.filter (keeps rt filter) repos.

(** The decimal text of an integer, as a template string prints it. *)
Definition decimal (z : Z) : string := NilZero.string_of_int (Z.to_int z).

(** The tenths that [(num / den).toFixed(1)] prints, for
    [0 <= num < 2^53] and [den] a power of two: the division is then
    exact in binary64, the quotient is far below 10^21, where [toFixed]
    would turn to exponent notation, and [toFixed] takes the number of
    tenths nearest to the exact value, the larger one at a tie. *)
Definition tenths (num den : Z) : Z := ((20 * num + den) / (2 * den))%Z.

(** [n] tenths written with one decimal. *)
Definition oneDecimal (n : Z) : string :=
  (decimal (n / 10) ++ "." ++ decimal (n mod 10))%string.

(** The integers that are numbers and are printed digit by digit:
    those of magnitude below 2^53. *)
Definition safeInteger (z : Z) : Prop := (- 2 ^ 53 < z < 2 ^ 53)%Z.

(** [formatSize(sizeInKB)], for a size that is a [safeInteger]. For
    other integers this is not what the source prints (such an integer
    need not be a number, and beyond 10^21 a number is printed with an
    exponent); the properties of [formatSize] are stated within the
    range. *)
Definition formatSize (sizeInKB : Z) : string :=
  if (sizeInKB <? 1024)%Z then (decimal sizeInKB ++ " KB")%string
  else if (sizeInKB <? 1024 * 1024)%Z
       then (oneDecimal (tenths sizeInKB 1024) ++ " MB")%string
       else (oneDecimal (tenths sizeInKB (1024 * 1024)) ++ " GB")%string.

(** ** [displayProgressBar], on binary64 numbers

    The arithmetic of this helper is not exact, so it is run on the
    kernel's binary64 floats, which are JavaScript's numbers. The
    arguments are integers. *)
Module Num.

(** The number an integer literal denotes. *)
Definition ofZ (z : Z) : PrimFloat.float :=
  if (z <? 0)%Z then PrimFloat.opp (PrimFloat.of_uint63 (Uint63.of_Z (- z)))
  else PrimFloat.of_uint63 (Uint63.of_Z z).

(** [Math.floor]: a number with no fractional bits, a zero, an infinity
    and NaN are returned as they are. *)
Definition floor (x : PrimFloat.float) : PrimFloat.float :=
  match FloatOps.Prim2SF x with
  | SpecFloat.S754_finite s m e =>
      if (0 <=? e)%Z then x
      else
        let q := (Zpos m / 2 ^ (- e))%Z in
        let r := (Zpos m mod 2 ^ (- e))%Z in
        if s then (if (r =? 0)%Z then x else ofZ (- (q + 1))) else ofZ q
  | _ => x
  end.

(** The count [String.prototype.repeat] works with: NaN counts as 0, a
    fraction is dropped, and a negative or infinite count is a
    RangeError ([None]). The engine's limit on the length of a string
    is not modelled. *)
Definition repeatCount (x : PrimFloat.float) : option nat :=
  match FloatOps.Prim2SF x with
  | SpecFloat.S754_nan => Some 0
  | SpecFloat.S754_zero _ => Some 0
  | SpecFloat.S754_infinity _ => None
  | SpecFloat.S754_finite s m e =>
      let n := if (0 <=? e)%Z then (Zpos m * 2 ^ e)%Z else (Zpos m / 2 ^ (- e))%Z in
      if s then (if (n =? 0)%Z then Some 0 else None) else Some (Z.to_nat n)
  end.

(** [x.toFixed(1)] for a number below 10^21 in magnitude: the tenths
    nearest to the exact value of [x], the larger at a tie. *)
Definition toFixed1 (x : PrimFloat.float) : string :=
  match FloatOps.Prim2SF x with
  | SpecFloat.S754_nan => "NaN"
  | SpecFloat.S754_infinity s => if s then "-Infinity" else "Infinity"
  | SpecFloat.S754_zero _ => "0.0"
  | SpecFloat.S754_finite s m e =>
      let n := if (0 <=? e)%Z then (10 * Zpos m * 2 ^ e)%Z
               else ((20 * Zpos m + 2 ^ (- e)) / 2 ^ (- e + 1))%Z in
      ((if s then "-" else EmptyString) ++ oneDecimal n)%string
  end.

End Num.

(** The two cells of the bar. Each is one UTF-16 code unit (U+2588 and
    U+2591); they are written here as the bytes the same glyphs have
    in code page 437. *)
Definition fullCell : ascii := ascii_of_nat 219.
Definition lightCell : ascii := ascii_of_nat 176.

(** [c.repeat(n)] for a count that was accepted. *)
Fixpoint cells (c : ascii) (n : nat) : string :=
  match n with
  | 0 => EmptyString
  | S n' => String c (cells c n')
  end.

(** What a call of [displayProgressBar] gives: the text, or the
    RangeError of a [repeat]. *)
Inductive BarResult : Type :=
| Bar (text : string)
| ThrowsRangeError.

(** The numbers of [displayProgressBar]: the counts of the two
    [repeat] calls when both are accepted, and the percentage as
    printed. *)
Definition barParts (current total width : Z) : option (nat * nat) * string :=
  let ratio := PrimFloat.div (Num.ofZ current) (Num.ofZ total) in
  let percentage := PrimFloat.mul ratio (Num.ofZ 100) in
  let filled := Num.floor (PrimFloat.mul ratio (Num.ofZ width)) in
  let empty := PrimFloat.sub (Num.ofZ width) filled in
  (match Num.repeatCount filled, Num.repeatCount empty with
   | Some f, Some e => Some (f, e)
   | _, _ => None
   end,
   Num.toFixed1 percentage).

(** [displayProgressBar(current, total, width)]; the callers leave
    [width] at its default of 30. *)
Definition displayProgressBar (current total width : Z) : BarResult :=
  match barParts current total width with
  | (Some (f, e), percentage) =>
      Bar ("[" ++ cells fullCell f ++ cells lightCell e ++ "] "
               ++ percentage ++ "% (" ++ decimal current ++ "/" ++ decimal total ++ ")")%string
  | (None, _) => ThrowsRangeError
  end.

(** The pairs [(current, total)] with [lo <= current <= hi] and
    [0 <= total <= n], and those with [1 <= current <= total <= n]. *)
Definition box (lo hi : Z) (n : nat) : list (Z * Z) :=
  flat_map (fun t => map (fun c => (lo + Z.of_nat c, Z.of_nat t)%Z)
                         (seq 0 (Z.to_nat (hi - lo) + 1)))
           (seq 0 (n + 1)).

Definition triangle (n : nat) : list (Z * Z) :=
  flat_map (fun t => map (fun c => (Z.of_nat c, Z.of_nat t)) (seq 1 t)) (seq 1 n).

(** The bar of a position within the total: [floor (30 c / t)] full
    cells, 30 cells in all, and 100.0 percent at the end. *)
Definition barWithin (ct : Z * Z) : bool :=
  let '(c, t) := ct in
  match barParts c t 30 with
  | (Some (f, e), percentage) =>
      Nat.eqb f (Z.to_nat (30 * c / t)) && Nat.eqb (f + e) 30
      && (negb (c =? t)%Z || String.eqb percentage "100.0")
  | (None, _) => false
  end.

(** When [displayProgressBar(current, total)] throws, in exact terms. *)
Definition barThrows (ct : Z * Z) : bool :=
  let '(c, t) := ct in
  if (t =? 0)%Z then negb (c =? 0)%Z
  else (c <? 0)%Z || (31 * t <=? 30 * c)%Z.

Definition barThrowsAgrees (ct : Z * Z) : bool :=
  match displayProgressBar (fst ct) (snd ct) 30 with
  | ThrowsRangeError => barThrows ct
  | Bar _ => negb (barThrows ct)
  end.

(** [formatSize] run on binary64 numbers, as the source computes it. *)
Definition formatSizeBinary64 (sizeInKB : Z) : string :=
  if (sizeInKB <? 1024)%Z then (decimal sizeInKB ++ " KB")%string
  else if (sizeInKB <? 1024 * 1024)%Z
       then (Num.toFixed1 (PrimFloat.div (Num.ofZ sizeInKB) (Num.ofZ 1024)) ++ " MB")%string
       else (Num.toFixed1 (PrimFloat.div (Num.ofZ sizeInKB) (Num.ofZ (1024 * 1024)))
               ++ " GB")%string.

(* ------------------------------------------------------------------ *)
(** * The session: [main], the constructor, [start], the menu, the list *)
(* ------------------------------------------------------------------ *)

(** The answer of [users.getAuthenticated]: the fields [start] reads. *)
Record User : Type := mkUser {
  login : string;
  email : Nullable string
}.

(** The lines that only the session prints: start-up, menu and list
    view. A table line carries its four cells as they are printed,
    before padding. *)
Inductive Line : Type :=
| TokenRequired
| Welcome
| LoggedInAs (userLogin : string)
| EmailIs (userEmail : string)
| FailedToAuthenticate (error : Error)
| MenuRule
| Goodbye
| Found (count : nat)
| TableTop
| TableHeader
| TableRule
| TableLine (nameCell visibilityCell languageCell sizeCell : string)
| TableBottom.

(** What an observer of a session sees: the events of the flows, and
    the lines above. *)
Inductive Shown : Type :=
| Flow (e : Event)
| Printed (l : Line).

(** How a session method ends: it returns, throws, stays pending at a
    prompt, or has called [process.exit]. *)
Inductive Ending (A : Type) : Type :=
| Finished (a : A)
| Raised (e : Error)
| Waiting
| Exited (code : Z).
Arguments Finished {A} a.
Arguments Raised {A} e.
Arguments Waiting {A}.
Arguments Exited {A} code.

Definition Session (W A : Type) : Type :=
  W * list Shown -> Ending A * (W * list Shown).

Definition sret {W A} (a : A) : Session W A := fun s => (Finished a, s).

Definition sbind {W A B} (m : Session W A) (k : A -> Session W B) : Session W B :=
  fun s =>
    match m s with
    | (Finished a, s') => k a s'
    | (Raised e, s') => (Raised e, s')
    | (Waiting, s') => (Waiting, s')
    | (Exited code, s') => (Exited code, s')
    end.

(** [try { body } catch (error) { handler(error) }] *)
Definition stry {W A} (body : Session W A) (handler : Error -> Session W A)
  : Session W A :=
  fun s =>
    match body s with
    | (Raised e, s') => handler e s'
    | r => r
    end.

Definition print {W} (l : Line) : Session W unit :=
  fun s => (Finished tt, (fst s, snd s ++ [Printed l])).

(** [process.exit(code)] *)
Definition exit {W A} (code : Z) : Session W A := fun s => (Exited code, s).

(** A prompt that is never answered. *)
Definition waiting {W A} : Session W A := fun s => (Waiting, s).

(** A manager method run inside the session: its events join what is
    shown. *)
Definition lift {W A} (m : M W A) : Session W A :=
  fun s =>
    let '(o, st) := m (mkSt (fst s) []) in
    (match o with
     | Ret a => Finished a
     | Exn e => Raised e
     | Hang => Waiting
     end,
     (world st, snd s ++ map Flow (trace st))).

Declare Scope session_scope.
Delimit Scope session_scope with session.
Notation "x <- m ;; k" := (sbind m (fun x => k))
  (at level 61, m at next level, right associativity) : session_scope.
Notation "m ;; k" := (sbind m (fun _ => k))
  (at level 61, right associativity) : session_scope.

Fixpoint sforEach {W A} (f : A -> Session W unit) (l : list A) : Session W unit :=
  match l with
  | [] => sret tt
  | x :: l' => (f x ;; sforEach f l')%session
  end.

(** The entries of the main menu, and one visit of the menu: the entry
    chosen and the answers the operator gives in the flow it starts. *)
Inductive Action : Type :=
| ChangeVisibility
| DeleteRepositories
| ListRepositories
| Exit.

Record Visit : Type := mkVisit {
  action : Action;
  answers_given : Operator
}.

(** The cells of one table line of the list view. *)
Definition tableLine (repo : Repository) : Line :=
  TableLine (Utils.truncateString (name repo) 28)
            (visibilityLabel (private repo))
            (Utils.truncateString (language repo) 13)
            (formatSize (size repo)).

Section SessionMethods.

Context {W : Type}.
Variable octokit : Octokit W.
(** [octokit.rest.users.getAuthenticated] *)
Variable getAuthenticated : W -> (Error + User) * W.
Variable rt : Runtime.
Variable fuel : nat.

(** [listRepositories]; the fetched array is the one array of a store
    of its own, sorted in place by [sortRepositories]. *)
Definition listRepositories : Session W unit :=
  (repos <- lift (getAllRepositories octokit fuel) ;;
   if Nat.eqb (List.length repos) 0 then lift (log NoRepositoriesFound)
   else
     print (Found (List.length repos)) ;;
     print TableTop ;;
     print TableHeader ;;
     print TableRule ;;
     let '(sortedRepos, h) := Utils.sortRepositories rt 0 ByUpdated [repos] in
     sforEach (fun repo => print (tableLine repo)) (Arrays.read h sortedRepos) ;;
     print TableBottom)%session.

(** [showMainMenu]: one turn of [while (true)] per visit; with no visit
    left the menu prompt stays open. *)
Fixpoint showMainMenu (username : string) (visits : list Visit) : Session W unit :=
  match visits with
  | [] => (print MenuRule ;; waiting)%session
  | visit :: visits' =>
      (print MenuRule ;;
       match action visit with
       | ChangeVisibility =>
           lift (changeVisibilityFlow octokit username (answers_given visit) fuel) ;;
           showMainMenu username visits'
       | DeleteRepositories =>
           lift (deleteRepositoriesFlow octokit username (answers_given visit) fuel) ;;
           showMainMenu username visits'
       | ListRepositories =>
           listRepositories ;;
           showMainMenu username visits'
       | Exit => print Goodbye
       end)%session
  end.

(** [start] *)
Definition start (visits : list Visit) : Session W unit :=
  stry
    (user <- (fun s =>
                match getAuthenticated (fst s) with
                | (inr user, w') => (Finished user, (w', snd s))
                | (inl e, w') => (Raised e, (w', snd s))
                end) ;;
     print Welcome ;;
     print (LoggedInAs (login user)) ;;
     print (EmailIs (or_else (email user) "Not public")) ;;
     showMainMenu (login user) visits)%session
    (fun error => (print (FailedToAuthenticate error) ;; exit 1)%session).

(** [main]: the constructor reads [process.env.GITHUB_TOKEN] and exits
    when it is falsy; then [start] runs. *)
Definition main (GITHUB_TOKEN : Nullable string) (visits : list Visit)
  : Session W unit :=
  if negb (truthy GITHUB_TOKEN) then (print TokenRequired ;; exit 1)%session
  else start visits.

End SessionMethods.

(** A session that can only return or stay pending. *)
Definition Calm {W A} (m : Session W A) : Prop :=
  forall s,
    match fst (m s) with
    | Finished _ | Waiting => True
    | Raised _ | Exited _ => False
    end.

(** Remote calls among what is shown. *)
Definition shownCalls (shown : list Shown) : list Event :=
  flat_map (fun x =>
              match x with
              | Flow (ListCall p) => [ListCall p]
              | Flow (UpdateCall p ok) => [UpdateCall p ok]
              | Flow (DeleteCall p ok) => [DeleteCall p ok]
              | _ => []
              end) shown.

(** The table lines among what is shown. *)
Definition tableLines (shown : list Shown) : list Line :=
  flat_map (fun x =>
              match x with
              | Printed (TableLine a b c d) => [TableLine a b c d]
              | _ => []
              end) shown.

(** An authentication that succeeds for "octocat". *)
Definition signsIn {W} (w : W) : (Error + User) * W :=
  (inr (mkUser "octocat" Null), w).

(** What is shown, all of it satisfying [P], however the session
    method ends. *)
Definition Shows (P : Shown -> bool) {W A} (m : Session W A) : Prop :=
  forall s, exists new,
    snd (snd (m s)) = snd s ++ new /\ forallb P new = true.

(** A call made in the name of [username], or no mutation call. *)
Definition ownedBy (username : string) (e : Event) : bool :=
  match e with
  | UpdateCall p _ => String.eqb (update_owner p) username
  | DeleteCall p _ => String.eqb (delete_owner p) username
  | _ => true
  end.

Definition shownOwnedBy (username : string) (x : Shown) : bool :=
  match x with
  | Flow e => ownedBy username e
  | Printed _ => true
  end.

(** Neither an update nor a delete call. *)
Definition readOnly (x : Shown) : bool :=
  match x with
  | Flow (UpdateCall _ _) | Flow (DeleteCall _ _) => false
  | _ => true
  end.

(** [s.padEnd(targetLength)]: spaces up to the length, none when the
    text is that long already. *)
Definition padEnd (s : string) (targetLength : nat) : string :=
  (s ++ cells " "%char (targetLength - String.length s))%string.

(** What the menu and the operations it starts may show in the session
    of [username]: events of the flows, with every mutation call made
    in that name, and the lines of the menu and of the list view, but
    none of the start-up lines. *)
Definition menuShown (username : string) (x : Shown) : bool :=
  match x with
  | Flow e => ownedBy username e
  | Printed (TokenRequired | Welcome | LoggedInAs _ | EmailIs _
            | FailedToAuthenticate _) => false
  | Printed _ => true
  end.

(* ------------------------------------------------------------------ *)
(** * Strings: first characters and lengths                             *)
(* ------------------------------------------------------------------ *)

Lemma length_append (s t : string) :
  String.length (s ++ t)%string = String.length s + String.length t.
Proof. induction s as [|c s IH]; simpl; [reflexivity | now rewrite IH]. Qed.

Lemma substring_0_first_chars (n : nat) (s : string) :
  String.substring 0 n s = first_chars n s.
Proof.
  revert n; induction s as [|c s IH]; intros [|n]; simpl; try reflexivity.
  unfold first_chars in *; simpl. now rewrite IH.
Qed.

Lemma length_first_chars (n : nat) (s : string) :
  String.length (first_chars n s) = Nat.min n (String.length s).
Proof.
  revert n; induction s as [|c s IH]; intros [|n]; simpl; try reflexivity.
  unfold first_chars in *; simpl. now rewrite IH.
Qed.

Lemma length_chars (s : string) :
  List.length (list_ascii_of_string s) = String.length s.
Proof. induction s as [|c s IH]; simpl; [reflexivity | now rewrite IH]. Qed.

Lemma js_substring_prefix (s : string) (e : Z) :
  Js.substring s 0 e = first_chars (Z.to_nat e) s.
Proof.
  unfold Js.substring, Js.clamp.
  set (len := Z.of_nat (String.length s)).
  assert (Hlen : (0 <= len)%Z) by (subst len; lia).
  replace (Z.min (Z.max 0 0) len) with 0%Z by lia.
  replace (Z.min 0 (Z.min (Z.max e 0) len)) with 0%Z by lia.
  replace (Z.max 0 (Z.min (Z.max e 0) len) - 0)%Z
    with (Z.min (Z.max e 0) len) by lia.
  simpl Z.to_nat. rewrite substring_0_first_chars.
  unfold first_chars. f_equal.
  destruct (Z_le_gt_dec e len) as [Hle|Hgt].
  - f_equal. lia.
  - replace (Z.to_nat (Z.min (Z.max e 0) len)) with (String.length s)
      by (subst len; lia).
    rewrite <- (length_chars s).
    rewrite firstn_all. symmetry. apply firstn_all2.
    rewrite length_chars. subst len. lia.
Qed.

(* ------------------------------------------------------------------ *)
(** * Properties of the pure helpers                                    *)
(* ------------------------------------------------------------------ *)

(** C9. Normalisation substitutes the sentinels by falsiness: a
    description (language) that is [null], [undefined] or the empty
    string becomes "No description" ("Unknown"), any other string is
    kept, and a record whose field was the empty string is the same
    record as one whose field was absent. *)
Theorem toRepository_sentinels (now : string) (repo : RawRepo) :
  let absent (v : Nullable string) := v = Null \/ v = Undefined \/ v = Val EmptyString in
  (absent (raw_description repo) ->
     description (toRepository now repo) = "No description") /\
  (absent (raw_language repo) ->
     language (toRepository now repo) = "Unknown") /\
  (forall s, s <> EmptyString -> raw_description repo = Val s ->
     description (toRepository now repo) = s) /\
  (forall s, s <> EmptyString -> raw_language repo = Val s ->
     language (toRepository now repo) = s) /\
  (forall i n f p d l u z v w,
     absent v -> absent w ->
     toRepository now (mkRawRepo i n f p v l u z)
       = toRepository now (mkRawRepo i n f p w l u z) /\
     toRepository now (mkRawRepo i n f p d v u z)
       = toRepository now (mkRawRepo i n f p d w u z)).
Proof.
  intros absent; unfold absent.
  repeat split.
  - intros [H|[H|H]]; simpl; rewrite H; reflexivity.
  - intros [H|[H|H]]; simpl; rewrite H; reflexivity.
  - intros s Hs H; simpl; rewrite H; simpl.
    destruct (String.eqb_spec s EmptyString); [contradiction | reflexivity].
  - intros s Hs H; simpl; rewrite H; simpl.
    destruct (String.eqb_spec s EmptyString); [contradiction | reflexivity].
  - destruct H as [H|[H|H]], H0 as [H0|[H0|H0]]; subst; reflexivity.
  - destruct H as [H|[H|H]], H0 as [H0|[H0|H0]]; subst; reflexivity.
Qed.

Lemma toRepository_sentinels_witness :
  let raw := mkRawRepo 7 "dotfiles" "octocat/dotfiles" false
                       (Val EmptyString) Undefined Null 12 in
  description (toRepository "2024-06-01T00:00:00.000Z" raw) = "No description" /\
  language (toRepository "2024-06-01T00:00:00.000Z" raw) = "Unknown".
Proof.
  intros raw. split.
  - apply (proj1 (toRepository_sentinels "2024-06-01T00:00:00.000Z" raw)).
    right. right. reflexivity.
  - apply (proj1 (proj2 (toRepository_sentinels "2024-06-01T00:00:00.000Z" raw))).
    right. left. reflexivity.
Defined.

(** C10. [truncateString] returns a string that fits unchanged, and
    otherwise the first [maxLength - 3] characters followed by three
    dots: of length exactly [maxLength] from 3 on, and the bare "..."
    (length 3, longer than the bound) below 3. *)
Theorem truncateString_shape (s : string) (maxLength : Z) :
  ((Z.of_nat (String.length s) <= maxLength)%Z ->
     Utils.truncateString s maxLength = s) /\
  ((maxLength < Z.of_nat (String.length s))%Z ->
     Utils.truncateString s maxLength
       = (first_chars (Z.to_nat (maxLength - 3)) s ++ "...")%string /\
     ((3 <= maxLength)%Z ->
        Z.of_nat (String.length (Utils.truncateString s maxLength)) = maxLength) /\
     ((maxLength < 3)%Z ->
        Utils.truncateString s maxLength = "..." /\
        (maxLength
           < Z.of_nat (String.length (Utils.truncateString s maxLength)))%Z)).
Proof.
  unfold Utils.truncateString. split.
  - intros H. apply Z.leb_le in H. now rewrite H.
  - intros H. apply Z.leb_gt in H. rewrite H. apply Z.leb_gt in H.
    rewrite js_substring_prefix. split; [reflexivity | split].
    + intros H3. rewrite length_append, length_first_chars. simpl. lia.
    + intros H3. replace (Z.to_nat (maxLength - 3)) with 0%nat by lia.
      unfold first_chars; simpl. split; [reflexivity | lia].
Qed.

Lemma truncateString_shape_witness :
  Utils.truncateString "rocq" 28 = "rocq" /\
  Utils.truncateString "TypeScript-extended" 13 = "TypeScript..." /\
  Z.of_nat (String.length (Utils.truncateString "TypeScript-extended" 13)) = 13%Z /\
  Utils.truncateString "abc" 2 = "...".
Proof.
  split; [| split; [| split]].
  - apply (proj1 (truncateString_shape "rocq" 28)). simpl; lia.
  - rewrite (proj1 (proj2 (truncateString_shape "TypeScript-extended" 13) ltac:(simpl; lia))).
    reflexivity.
  - apply (proj1 (proj2 (proj2 (truncateString_shape "TypeScript-extended" 13)
                                 ltac:(simpl; lia)))).
    lia.
  - apply (proj1 (proj2 (proj2 (proj2 (truncateString_shape "abc" 2)
                                        ltac:(simpl; lia))) ltac:(lia))).
Defined.

(* ------------------------------------------------------------------ *)
(** * The paginated fetch                                               *)
(* ------------------------------------------------------------------ *)

Lemma listCalls_app (a b : list Event) :
  listCalls (a ++ b) = listCalls a ++ listCalls b.
Proof. unfold listCalls. apply flat_map_app. Qed.

Lemma listCalls_map_ListCall (ps : list nat) :
  listCalls (map (fun p => ListCall (listParams p)) ps) = map listParams ps.
Proof. induction ps as [|p ps IH]; simpl; [reflexivity | now rewrite IH]. Qed.

Lemma mutations_app (a b : list Event) :
  mutations (a ++ b) = mutations a ++ mutations b.
Proof. unfold mutations. apply flat_map_app. Qed.

Lemma mutations_map_ListCall (ps : list nat) :
  mutations (map (fun p => ListCall (listParams p)) ps) = [].
Proof. induction ps as [|p ps IH]; simpl; [reflexivity | exact IH]. Qed.

Lemma length_concat_full (full : list (list RawRepo)) :
  Forall (fun d => List.length d = 100) full ->
  List.length (List.concat full) = 100 * List.length full.
Proof.
  induction 1 as [|d full Hd _ IH]; [reflexivity |].
  cbn [List.concat List.length]. rewrite length_app, Hd, IH. lia.
Qed.

Section Fetch.

Context {W : Type}.
Variable octokit : Octokit W.

Lemma normalised_map (now : string) (data : list RawRepo) :
  normalised (map (toRepository now) data) data.
Proof.
  induction data as [|d data IH]; constructor; [now exists now | exact IH].
Qed.

(** Full pages followed by a page of another length: the loop asks
    for each of them once, in order, and returns them all. *)
Lemma fetchPages_complete (full : list (list RawRepo)) (last : list RawRepo) :
  Forall (fun d => List.length d = 100) full ->
  List.length last <> 100 ->
  forall fuel acc page st,
    answers octokit (List.length full + 1) page (world st)
      = map inr (full ++ [last]) ->
    List.length full < fuel ->
    exists st' snapshot,
      fetchPages octokit fuel acc page st = (Ret (acc ++ snapshot), st') /\
      normalised snapshot (List.concat (full ++ [last])) /\
      trace st' = trace st ++
        map (fun p => ListCall (listParams p)) (seq page (List.length full + 1)).
Proof.
  intros Hfull Hlast. induction Hfull as [|d full Hd _ IH];
    intros fuel acc pg st Hans Hfuel;
    (destruct fuel as [|fuel]; [simpl in Hfuel; lia |]).
  - cbn in Hans.
    destruct (listForAuthenticatedUser octokit (listParams pg) (world st))
      as [r w1] eqn:Hcall.
    injection Hans as ->.
    cbn [fetchPages]. unfold bind, request. fold (listParams pg).
    rewrite Hcall. cbn.
    apply Nat.eqb_neq in Hlast. rewrite Hlast.
    eexists; eexists; split; [reflexivity | split].
    + cbn [List.concat app]. rewrite app_nil_r. apply normalised_map.
    + reflexivity.
  - cbn [List.length Nat.add answers] in Hans.
    destruct (listForAuthenticatedUser octokit (listParams pg) (world st))
      as [r w1] eqn:Hcall.
    cbn [app map] in Hans. injection Hans as -> Hans.
    cbn [fetchPages]. unfold bind at 1 2, request. fold (listParams pg).
    rewrite Hcall. cbn beta iota.
    apply Nat.eqb_eq in Hd. rewrite Hd.
    set (st1 := mkSt w1 (trace st ++ [ListCall (listParams pg)])).
    set (acc1 := acc ++ map (toRepository (clock octokit (world st1))) d).
    destruct (IH fuel acc1 (S pg) st1 Hans ltac:(simpl in Hfuel; lia))
      as (st' & snapshot & Hrun & Hnorm & Htrace).
    exists st', (map (toRepository (clock octokit (world st1))) d ++ snapshot).
    split; [| split].
    + cbn. fold st1. rewrite Hrun. unfold acc1. now rewrite app_assoc.
    + cbn [app List.concat]. apply Forall2_app; [apply normalised_map | exact Hnorm].
    + rewrite Htrace. unfold st1. cbn [trace List.length Nat.add seq map].
      now rewrite <- app_assoc.
Qed.

(** Full pages followed by a rejected call: the rejection leaves the
    loop. *)
Lemma fetchPages_rejected (full : list (list RawRepo)) (error : Error) :
  Forall (fun d => List.length d = 100) full ->
  forall fuel acc page st,
    answers octokit (List.length full + 1) page (world st)
      = map inr full ++ [inl error] ->
    List.length full < fuel ->
    exists st',
      fetchPages octokit fuel acc page st = (Exn error, st') /\
      trace st' = trace st ++
        map (fun p => ListCall (listParams p)) (seq page (List.length full + 1)).
Proof.
  intros Hfull. induction Hfull as [|d full Hd _ IH];
    intros fuel acc pg st Hans Hfuel;
    (destruct fuel as [|fuel]; [simpl in Hfuel; lia |]).
  - cbn in Hans.
    destruct (listForAuthenticatedUser octokit (listParams pg) (world st))
      as [r w1] eqn:Hcall.
    injection Hans as ->.
    cbn [fetchPages]. unfold bind, request. fold (listParams pg).
    rewrite Hcall. cbn. eexists; split; reflexivity.
  - cbn [List.length Nat.add answers] in Hans.
    destruct (listForAuthenticatedUser octokit (listParams pg) (world st))
      as [r w1] eqn:Hcall.
    cbn [app map] in Hans. injection Hans as -> Hans.
    cbn [fetchPages]. unfold bind at 1 2, request. fold (listParams pg).
    rewrite Hcall. cbn beta iota.
    apply Nat.eqb_eq in Hd. rewrite Hd.
    set (st1 := mkSt w1 (trace st ++ [ListCall (listParams pg)])).
    set (acc1 := acc ++ map (toRepository (clock octokit (world st1))) d).
    destruct (IH fuel acc1 (S pg) st1 Hans ltac:(simpl in Hfuel; lia))
      as (st' & Hrun & Htrace).
    exists st'. split.
    + cbn. fold st1. exact Hrun.
    + rewrite Htrace. unfold st1. cbn [trace List.length Nat.add seq map].
      now rewrite <- app_assoc.
Qed.

(** While the pages are full the loop goes on: after as many turns as
    there were full pages it has not returned. *)
Lemma fetchPages_goes_on (full : list (list RawRepo)) :
  Forall (fun d => List.length d = 100) full ->
  forall acc page st,
    answers octokit (List.length full) page (world st) = map inr full ->
    exists st',
      fetchPages octokit (List.length full) acc page st = (Hang, st') /\
      trace st' = trace st ++
        map (fun p => ListCall (listParams p)) (seq page (List.length full)).
Proof.
  intros Hfull. induction Hfull as [|d full Hd _ IH]; intros acc pg st Hans.
  - cbn. exists st. now rewrite app_nil_r.
  - cbn [List.length answers] in Hans.
    destruct (listForAuthenticatedUser octokit (listParams pg) (world st))
      as [r w1] eqn:Hcall.
    cbn [map] in Hans. injection Hans as -> Hans.
    cbn [List.length fetchPages]. unfold bind at 1 2, request. fold (listParams pg).
    rewrite Hcall. cbn beta iota.
    apply Nat.eqb_eq in Hd. rewrite Hd.
    set (st1 := mkSt w1 (trace st ++ [ListCall (listParams pg)])).
    set (acc1 := acc ++ map (toRepository (clock octokit (world st1))) d).
    destruct (IH acc1 (S pg) st1 Hans) as (st' & Hrun & Htrace).
    exists st'. split.
    + cbn. fold st1. exact Hrun.
    + rewrite Htrace. unfold st1. cbn [trace seq map].
      now rewrite <- app_assoc.
Qed.

End Fetch.

Lemma length_concat_sum {A} (l : list (list A)) :
  List.length (List.concat l) = list_sum (map (@List.length A) l).
Proof.
  induction l as [|d l IH]; [reflexivity |].
  cbn [List.concat map list_sum]. now rewrite length_app, IH.
Qed.

Lemma getAllRepositories_fetch {W} (octokit : Octokit W) (fuel : nat) (st : St W) :
  getAllRepositories octokit fuel st =
    match fetchPages octokit fuel [] 1
            (mkSt (world st) (trace st ++ [Console FetchingRepositories])) with
    | (Exn error, st') =>
        (Ret [], mkSt (world st') (trace st' ++ [Console (FailedToFetch error)]))
    | r => r
    end.
Proof.
  unfold getAllRepositories, bind, log, emit, try_catch, ret. cbn.
  destruct (fetchPages octokit fuel [] 1 _) as [[snapshot|error|] st']; reflexivity.
Qed.

(** C3. Aggregation is complete or empty. When the pages asked for are
    all answered (full pages, then one that ends the loop), the
    snapshot holds the normalised records of all of them in the order
    received, so its length is the sum of the page lengths; when a call
    is rejected after any number of full pages, the snapshot is empty. *)
Theorem aggregation_complete_or_empty {W} (octokit : Octokit W)
  (fuel : nat) (st : St W) (full : list (list RawRepo)) :
  Forall (fun d => List.length d = 100) full ->
  List.length full < fuel ->
  (forall last,
     List.length last <> 100 ->
     answers octokit (List.length full + 1) 1 (world st) = map inr (full ++ [last]) ->
     exists st' snapshot,
       getAllRepositories octokit fuel st = (Ret snapshot, st') /\
       List.length snapshot = list_sum (map (@List.length RawRepo) (full ++ [last])) /\
       Forall2 (fun r raw => exists now, r = toRepository now raw)
               snapshot (List.concat (full ++ [last]))) /\
  (forall error,
     answers octokit (List.length full + 1) 1 (world st)
       = map inr full ++ [inl error] ->
     exists st', getAllRepositories octokit fuel st = (Ret [], st')).
Proof.
  intros Hfull Hfuel. split.
  - intros last Hlast Hans.
    destruct (fetchPages_complete octokit full last Hfull Hlast fuel [] 1
                (mkSt (world st) (trace st ++ [Console FetchingRepositories]))
                Hans Hfuel) as (st' & snapshot & Hrun & Hnorm & _).
    exists st', snapshot. rewrite getAllRepositories_fetch, Hrun.
    split; [reflexivity | split; [| exact Hnorm]].
    rewrite (Forall2_length Hnorm). apply length_concat_sum.
  - intros error Hans.
    destruct (fetchPages_rejected octokit full error Hfull fuel [] 1
                (mkSt (world st) (trace st ++ [Console FetchingRepositories]))
                Hans Hfuel) as (st' & Hrun & _).
    eexists. rewrite getAllRepositories_fetch, Hrun. reflexivity.
Qed.

Lemma aggregation_complete_or_empty_witness :
  (exists st' snapshot,
     getAllRepositories
       (Scripted.octokit [inr Scripted.fullPage; inr Scripted.shortPage])
       5 Scripted.start = (Ret snapshot, st') /\
     List.length snapshot = 137) /\
  (exists st',
     getAllRepositories
       (Scripted.octokit [inr Scripted.fullPage; inl Account.notFound])
       5 Scripted.start = (Ret [], st')).
Proof.
  split.
  - destruct (proj1 (aggregation_complete_or_empty
                       (Scripted.octokit [inr Scripted.fullPage; inr Scripted.shortPage])
                       5 Scripted.start [Scripted.fullPage]
                       ltac:(repeat constructor) ltac:(simpl; lia))
                    Scripted.shortPage ltac:(vm_compute; lia) eq_refl)
      as (st' & snapshot & Hrun & Hlen & _).
    exists st', snapshot. split; [exact Hrun | exact Hlen].
  - exact (proj2 (aggregation_complete_or_empty
                    (Scripted.octokit [inr Scripted.fullPage; inl Account.notFound])
                    5 Scripted.start [Scripted.fullPage]
                    ltac:(repeat constructor) ltac:(simpl; lia))
                 Account.notFound eq_refl).
Defined.

(** C4. The pagination rule. Pages of 100 are asked for from page 1
    upwards; after a full page the loop goes on, and it returns at the
    first page of fewer than 100 records. Pages of 100, 100 and 37 take
    three calls and give 237 records; three pages of 100 take a fourth
    call, whose empty page ends the loop with 300 records. *)
Theorem pagination_termination :
  (forall W (octokit : Octokit W) (fuel : nat) (st : St W) full last,
     Forall (fun d => List.length d = 100) full ->
     List.length last < 100 ->
     List.length full < fuel ->
     answers octokit (List.length full + 1) 1 (world st) = map inr (full ++ [last]) ->
     exists st' snapshot evs,
       getAllRepositories octokit fuel st = (Ret snapshot, st') /\
       trace st' = trace st ++ evs /\
       listCalls evs
         = map (fun p => mkListParams 100 p "updated" "desc")
               (seq 1 (List.length full + 1)) /\
       List.length snapshot = 100 * List.length full + List.length last) /\
  (forall W (octokit : Octokit W) (st : St W) full,
     Forall (fun d => List.length d = 100) full ->
     answers octokit (List.length full) 1 (world st) = map inr full ->
     exists st' evs,
       getAllRepositories octokit (List.length full) st = (Hang, st') /\
       trace st' = trace st ++ evs /\
       listCalls evs
         = map (fun p => mkListParams 100 p "updated" "desc")
               (seq 1 (List.length full))) /\
  (let run := getAllRepositories
                (Scripted.octokit
                   [inr Scripted.fullPage; inr Scripted.fullPage; inr Scripted.shortPage])
                10 Scripted.start in
   map page (listCalls (trace (snd run))) = [1; 2; 3] /\
   option_map (@List.length Repository) (returned (fst run)) = Some 237) /\
  (let run := getAllRepositories
                (Scripted.octokit
                   [inr Scripted.fullPage; inr Scripted.fullPage; inr Scripted.fullPage])
                10 Scripted.start in
   map page (listCalls (trace (snd run))) = [1; 2; 3; 4] /\
   option_map (@List.length Repository) (returned (fst run)) = Some 300).
Proof.
  split; [| split; [| split]].
  - intros W octokit fuel st full last Hfull Hlast Hfuel Hans.
    destruct (fetchPages_complete octokit full last Hfull ltac:(lia) fuel [] 1
                (mkSt (world st) (trace st ++ [Console FetchingRepositories]))
                Hans Hfuel) as (st' & snapshot & Hrun & Hnorm & Htrace).
    exists st', snapshot. eexists.
    rewrite getAllRepositories_fetch, Hrun.
    split; [reflexivity | split; [| split]].
    + rewrite Htrace. cbn [trace]. rewrite <- app_assoc. reflexivity.
    + rewrite listCalls_app. cbn [listCalls flat_map app].
      apply listCalls_map_ListCall.
    + rewrite (Forall2_length Hnorm), concat_app, length_app.
      rewrite (length_concat_full full Hfull). cbn [List.concat].
      rewrite app_nil_r. lia.
  - intros W octokit st full Hfull Hans.
    destruct (fetchPages_goes_on octokit full Hfull [] 1
                (mkSt (world st) (trace st ++ [Console FetchingRepositories]))
                Hans) as (st' & Hrun & Htrace).
    exists st'. eexists.
    rewrite getAllRepositories_fetch, Hrun.
    split; [reflexivity | split].
    + rewrite Htrace. cbn [trace]. rewrite <- app_assoc. reflexivity.
    + rewrite listCalls_app. cbn [listCalls flat_map app].
      apply listCalls_map_ListCall.
  - vm_compute. split; reflexivity.
  - vm_compute. split; reflexivity.
Qed.

Lemma pagination_termination_witness :
  exists st' snapshot evs,
    getAllRepositories
      (Scripted.octokit
         [inr Scripted.fullPage; inr Scripted.fullPage; inr Scripted.shortPage])
      3 Scripted.start = (Ret snapshot, st') /\
    trace st' = trace Scripted.start ++ evs /\
    listCalls evs = map (fun p => mkListParams 100 p "updated" "desc") [1; 2; 3] /\
    List.length snapshot = 237.
Proof.
  exact (proj1 pagination_termination unit
           (Scripted.octokit
              [inr Scripted.fullPage; inr Scripted.fullPage; inr Scripted.shortPage])
           3 Scripted.start [Scripted.fullPage; Scripted.fullPage] Scripted.shortPage
           ltac:(repeat constructor) ltac:(vm_compute; lia) ltac:(simpl; lia) eq_refl).
Defined.

(* ------------------------------------------------------------------ *)
(** * The eligibility filter                                            *)
(* ------------------------------------------------------------------ *)

Lemma isTargetPrivate_spec (targetVisibility : Visibility) :
  isTargetPrivate targetVisibility = true <-> targetVisibility = Private.
Proof. destruct targetVisibility; cbn; split; congruence. Qed.

Lemma filteredRepos_In (tv : Visibility) (snapshot : list Repository) repo :
  In repo (filteredRepos tv snapshot) <->
  In repo snapshot /\ private repo <> isTargetPrivate tv.
Proof.
  unfold filteredRepos. rewrite filter_In.
  destruct (private repo), (isTargetPrivate tv); cbn; intuition congruence.
Qed.

Lemma filter_Subsequence {A} (f : A -> bool) (l : list A) :
  Subsequence (filter f l) l.
Proof.
  induction l as [|x l IH]; cbn; [constructor |].
  destruct (f x); now constructor.
Qed.

Lemma count_occ_filter {A} (dec : forall a b : A, {a = b} + {a <> b})
  (f : A -> bool) (l : list A) (x : A) :
  count_occ dec (filter f l) x = if f x then count_occ dec l x else 0.
Proof.
  induction l as [|y l IH]; cbn; [now destruct (f x) |].
  destruct (f y) eqn:Hy; cbn; destruct (dec y x) as [->|Hne];
    rewrite ?IH; try reflexivity.
  - now rewrite Hy.
  - now rewrite Hy.
Qed.

(** C5. The eligibility filter leaves out every record whose flag
    already equals the target and keeps every other record as often as
    the snapshot holds it, in snapshot order; in a snapshot of distinct
    names each such record is kept exactly once. *)
Theorem filteredRepos_correct (targetVisibility : Visibility)
  (snapshot : list Repository) :
  let target := isTargetPrivate targetVisibility in
  let eligible := filteredRepos targetVisibility snapshot in
  (target = true <-> targetVisibility = Private) /\
  (forall repo, private repo = target -> ~ In repo eligible) /\
  (forall repo, private repo <> target ->
     count_occ Repository_eq_dec eligible repo
       = count_occ Repository_eq_dec snapshot repo) /\
  Subsequence eligible snapshot /\
  (NoDup (map name snapshot) ->
     NoDup (map name eligible) /\
     forall repo, In repo snapshot -> private repo <> target ->
       count_occ Repository_eq_dec eligible repo = 1).
Proof.
  intros target eligible. split; [apply isTargetPrivate_spec |].
  assert (Hcount : forall repo, private repo <> target ->
            count_occ Repository_eq_dec eligible repo
              = count_occ Repository_eq_dec snapshot repo).
  { intros repo Hne. unfold eligible, filteredRepos. rewrite count_occ_filter.
    fold target. destruct (private repo), target; cbn; congruence. }
  split; [| split; [exact Hcount | split]].
  - intros repo Heq Hin. apply filteredRepos_In in Hin. now destruct Hin.
  - apply filter_Subsequence.
  - intros Hnodup. split.
    + unfold eligible, filteredRepos. clear Hcount.
      induction snapshot as [|r l IH]; cbn; [constructor |].
      cbn in Hnodup. apply NoDup_cons_iff in Hnodup as [Hnotin Hnodup].
      destruct (negb _); [| now apply IH].
      cbn. constructor; [| now apply IH].
      intros Hin. apply Hnotin. apply in_map_iff in Hin as (r' & Hname & Hin).
      apply filter_In in Hin as [Hin _]. apply in_map_iff. now exists r'.
    + intros repo Hin Hne. rewrite (Hcount repo Hne).
      apply NoDup_map_inv in Hnodup.
      apply (proj1 (NoDup_count_occ' Repository_eq_dec snapshot) Hnodup repo Hin).
Qed.

Lemma filteredRepos_correct_witness :
  let snapshot := map (toRepository "2024-06-01T00:00:00.000Z") sampleAccount in
  map name (filteredRepos Private snapshot) = ["a"; "b"] /\
  NoDup (map name (filteredRepos Private snapshot)).
Proof.
  intros snapshot. split; [reflexivity |].
  apply (proj2 (proj2 (proj2 (proj2 (filteredRepos_correct Private snapshot))))).
  cbn. repeat constructor; cbn; intuition discriminate.
Defined.

Lemma filteredRepos_none (tv : Visibility) (snapshot : list Repository) :
  Forall (fun repo => private repo = isTargetPrivate tv) snapshot ->
  filteredRepos tv snapshot = [].
Proof.
  intros Hall. unfold filteredRepos.
  induction Hall as [|r l Hr _ IH]; cbn; [reflexivity |].
  rewrite Hr, Bool.eqb_reflx. exact IH.
Qed.




(** Nor does selecting every candidate settle it. The updates are
    addressed to [username] and the bare name: with a second repository
    of the same name listed under another owner, a run that selects
    both and reports two successes has changed one repository twice,
    and the run that follows still finds the other eligible. *)
Example second_run_two_owners :
  let first := changeVisibilityFlow Owned.octokit "octocat"
                 (mkOperator Private (fun _ => true) true [])
                 5 (mkSt Owned.twoOwners []) in
  let second := getAllRepositories Owned.octokit 5 (snd first) in
  fst first = Ret tt /\
  mutations (trace (snd first)) = [("x", true); ("x", true)] /\
  In (Console (VisibilitySummary 2 0)) (trace (snd first)) /\
  exists snapshot,
    fst second = Ret snapshot /\
    map fullName (filteredRepos Private snapshot) = ["acme/x"].
Proof.
  cbv zeta. split; [vm_compute; reflexivity |].
  split; [vm_compute; reflexivity |].
  split; [vm_compute; intuition |].
  eexists. split; [vm_compute; reflexivity | reflexivity].
Qed.

(* ------------------------------------------------------------------ *)
(** * The batch loops                                                   *)
(* ------------------------------------------------------------------ *)

Lemma successes_rejections (oks : list bool) :
  successes oks + rejections oks = List.length oks.
Proof.
  unfold successes, rejections.
  induction oks as [|[] oks IH]; cbn; lia.
Qed.


Lemma bind_Ret {W A B} (m : M W A) (k : A -> M W B) (st st1 : St W) (a : A) :
  m st = (Ret a, st1) -> bind m k st = k a st1.
Proof. intros H. unfold bind. now rewrite H. Qed.

Lemma log_run {W} (m : Message) (st : St W) :
  log m st = (Ret tt, mkSt (world st) (trace st ++ [Console m])).
Proof. reflexivity. Qed.

(** One guarded call: the call is recorded with its outcome, the
    matching line is printed, and the [try] statement completes. *)
Lemma attempt_run {W A B} (call : W -> (Error + A) * W) (ev : bool -> Event)
  (done failed : Message) (b1 b2 : B) (st : St W) :
  try_catch (request call ev ;; log done ;; ret b1)
            (fun _ => log failed ;; ret b2) st
  = (Ret (if succeeded (fst (call (world st))) then b1 else b2),
     mkSt (snd (call (world st)))
          (trace st ++ [ev (succeeded (fst (call (world st))));
                        Console (if succeeded (fst (call (world st)))
                                 then done else failed)])).
Proof.
  unfold try_catch, bind, request, log, emit, ret.
  destruct (call (world st)) as [[error|a] w1]; cbn; now rewrite <- app_assoc.
Qed.

Lemma pace_run {W} (more : bool) (ms : nat) (st : St W) :
  (if more then Utils.delay ms else ret tt) st
  = (Ret tt, mkSt (world st) (trace st ++ (if more then [Delay ms] else []))).
Proof.
  destruct more; cbn; [reflexivity |]. rewrite app_nil_r. now destruct st.
Qed.

Lemma successes_cons (ok : bool) (oks : list bool) :
  successes (ok :: oks) = (if ok then 1 else 0) + successes oks.
Proof. destruct ok; reflexivity. Qed.

Lemma rejections_cons (ok : bool) (oks : list bool) :
  rejections (ok :: oks) = (if ok then 0 else 1) + rejections oks.
Proof. destruct ok; reflexivity. Qed.

Section Batch.

Context {W : Type}.
Variable octokit : Octokit W.
Variable username : string.

(** Each loop returns, whatever the remote answers; its events are
    those of [batchEvents] for the outcomes met, and its counters have
    advanced by the successes and the rejections. *)
Lemma changeVisibilityLoop_run (tv : Visibility) (total : nat) (rest : list string) :
  forall i successCount errorCount st,
  exists oks st',
    List.length oks = List.length rest /\
    changeVisibilityLoop octokit username tv total i rest successCount errorCount st
      = (Ret (successCount + successes oks, errorCount + rejections oks), st') /\
    trace st' = trace st ++
      batchEvents (updateEvent username tv) (updateReport tv) 100 total i rest oks.
Proof.
  induction rest as [|repoName rest IH]; intros i s e st.
  - exists [], st. cbn. rewrite !Nat.add_0_r, app_nil_r. auto.
  - cbn [changeVisibilityLoop].
    rewrite (bind_Ret _ _ _ _ _ (log_run _ st)).
    erewrite bind_Ret by apply attempt_run.
    cbn [world trace].
    set (params := mkUpdateParams username repoName (isTargetPrivate tv)).
    set (ok := succeeded (fst (repos_update octokit params (world st)))).
    set (w1 := snd (repos_update octokit params (world st))).
    assert (Hstep : forall s1 e1,
              exists oks st',
                List.length oks = List.length rest /\
                bind (if (Z.of_nat i <? Z.of_nat total - 1)%Z
                      then Utils.delay 100 else ret tt)
                     (fun _ => changeVisibilityLoop octokit username tv total (S i)
                                 rest s1 e1)
                     (mkSt w1 ((trace st ++ [Console (Progress (i + 1) total)])
                                 ++ [UpdateCall params ok;
                                     Console (updateReport tv repoName ok)]))
                  = (Ret (s1 + successes oks, e1 + rejections oks), st') /\
                trace st' = trace st ++
                  batchEvents (updateEvent username tv) (updateReport tv) 100 total i
                              (repoName :: rest) (ok :: oks)).
    { intros s1 e1. erewrite bind_Ret by apply pace_run. cbn [world trace].
      edestruct IH as (oks & st' & Hlen & Hrun & Htrace).
      exists oks, st'. split; [exact Hlen | split; [exact Hrun |]].
      rewrite Htrace. cbn [trace batchEvents]. unfold updateEvent. fold params.
      now rewrite <- !app_assoc. }
    unfold updateReport in Hstep.
    destruct ok.
    + destruct (Hstep (S s) e) as (oks & st' & Hlen & Hrun & Htrace).
      exists (true :: oks), st'. split; [cbn; lia | split; [| exact Htrace]].
      rewrite Hrun, successes_cons, rejections_cons. do 3 f_equal; lia.
    + destruct (Hstep s (S e)) as (oks & st' & Hlen & Hrun & Htrace).
      exists (false :: oks), st'. split; [cbn; lia | split; [| exact Htrace]].
      rewrite Hrun, successes_cons, rejections_cons. do 3 f_equal; lia.
Qed.

Lemma deleteLoop_run (total : nat) (rest : list string) :
  forall i successCount errorCount st,
  exists oks st',
    List.length oks = List.length rest /\
    deleteLoop octokit username total i rest successCount errorCount st
      = (Ret (successCount + successes oks, errorCount + rejections oks), st') /\
    trace st' = trace st ++
      batchEvents (deleteEvent username) deleteReport 200 total i rest oks.
Proof.
  induction rest as [|repoName rest IH]; intros i s e st.
  - exists [], st. cbn. rewrite !Nat.add_0_r, app_nil_r. auto.
  - cbn [deleteLoop].
    rewrite (bind_Ret _ _ _ _ _ (log_run _ st)).
    erewrite bind_Ret by apply attempt_run.
    cbn [world trace].
    set (params := mkDeleteParams username repoName).
    set (ok := succeeded (fst (repos_delete octokit params (world st)))).
    set (w1 := snd (repos_delete octokit params (world st))).
    assert (Hstep : forall s1 e1,
              exists oks st',
                List.length oks = List.length rest /\
                bind (if (Z.of_nat i <? Z.of_nat total - 1)%Z
                      then Utils.delay 200 else ret tt)
                     (fun _ => deleteLoop octokit username total (S i) rest s1 e1)
                     (mkSt w1 ((trace st ++ [Console (Progress (i + 1) total)])
                                 ++ [DeleteCall params ok;
                                     Console (deleteReport repoName ok)]))
                  = (Ret (s1 + successes oks, e1 + rejections oks), st') /\
                trace st' = trace st ++
                  batchEvents (deleteEvent username) deleteReport 200 total i
                              (repoName :: rest) (ok :: oks)).
    { intros s1 e1. erewrite bind_Ret by apply pace_run. cbn [world trace].
      edestruct IH as (oks & st' & Hlen & Hrun & Htrace).
      exists oks, st'. split; [exact Hlen | split; [exact Hrun |]].
      rewrite Htrace. cbn [trace batchEvents]. unfold deleteEvent. fold params.
      now rewrite <- !app_assoc. }
    unfold deleteReport in Hstep.
    destruct ok.
    + destruct (Hstep (S s) e) as (oks & st' & Hlen & Hrun & Htrace).
      exists (true :: oks), st'. split; [cbn; lia | split; [| exact Htrace]].
      rewrite Hrun, successes_cons, rejections_cons. do 3 f_equal; lia.
    + destruct (Hstep s (S e)) as (oks & st' & Hlen & Hrun & Htrace).
      exists (false :: oks), st'. split; [cbn; lia | split; [| exact Htrace]].
      rewrite Hrun, successes_cons, rejections_cons. do 3 f_equal; lia.
Qed.

End Batch.

(** ** What the events of a batch contain *)

Lemma delays_app (a b : list Event) : delays (a ++ b) = delays a ++ delays b.
Proof. unfold delays. apply flat_map_app. Qed.

Lemma steps_app (a b : list Event) : steps (a ++ b) = steps a ++ steps b.
Proof. unfold steps. apply filter_app. Qed.

Lemma calls_app (a b : list Event) : calls (a ++ b) = calls a ++ calls b.
Proof. unfold calls. apply filter_app. Qed.

Lemma failures_app (a b : list Event) : failures (a ++ b) = failures a + failures b.
Proof. unfold failures. now rewrite mutations_app, filter_app, length_app. Qed.

Lemma last_app_two {A} (l : list A) (b c d : A) : last (l ++ [b; c]) d = c.
Proof.
  change [b; c] with ([b] ++ [c]). rewrite app_assoc. apply last_last.
Qed.

Section BatchEvents.

Variable call : string -> bool -> Event.
Variable report : string -> bool -> Message.
Variable ms total : nat.

Hypothesis call_isCall : forall n ok, isCall (call n ok) = true.
Hypothesis call_isStep : forall n ok, isStep (call n ok) = true.
Hypothesis call_mutation : forall n ok, mutations [call n ok] = [(n, ok)].
Hypothesis call_delays : forall n ok, delays [call n ok] = [].

Lemma batchEvents_cons i repoName rest ok oks :
  batchEvents call report ms total i (repoName :: rest) (ok :: oks)
  = [Console (Progress (i + 1) total)] ++ [call repoName ok]
    ++ [Console (report repoName ok)]
    ++ (if (Z.of_nat i <? Z.of_nat total - 1)%Z then [Delay ms] else [])
    ++ batchEvents call report ms total (S i) rest oks.
Proof. reflexivity. Qed.

Lemma batchEvents_mutations rest : forall i oks,
  List.length oks = List.length rest ->
  map fst (mutations (batchEvents call report ms total i rest oks)) = rest /\
  failures (batchEvents call report ms total i rest oks) = rejections oks.
Proof.
  induction rest as [|repoName rest IH]; intros i [|ok oks] Hlen;
    try discriminate; [split; reflexivity |].
  injection Hlen as Hlen. destruct (IH (S i) oks Hlen) as [Hnames Hfail].
  rewrite batchEvents_cons. split.
  - rewrite !mutations_app, call_mutation.
    destruct (Z.of_nat i <? Z.of_nat total - 1)%Z; cbn; now rewrite Hnames.
  - rewrite !failures_app, Hfail, rejections_cons. unfold failures at 2.
    rewrite call_mutation.
    destruct (Z.of_nat i <? Z.of_nat total - 1)%Z, ok; reflexivity.
Qed.

Lemma batchEvents_calls rest : forall i oks,
  List.length oks = List.length rest ->
  List.length (calls (batchEvents call report ms total i rest oks))
    = List.length rest.
Proof.
  induction rest as [|repoName rest IH]; intros i [|ok oks] Hlen;
    try discriminate; [reflexivity |].
  injection Hlen as Hlen. rewrite batchEvents_cons, !calls_app, !length_app.
  rewrite (IH (S i) oks Hlen). unfold calls at 2. cbn [filter]. rewrite call_isCall.
  destruct (Z.of_nat i <? Z.of_nat total - 1)%Z; reflexivity.
Qed.

(** With [i] the index of the first item of [rest] in a batch of
    [total], a wait follows every call but the last. *)
Lemma batchEvents_pacing rest : forall i oks,
  List.length oks = List.length rest ->
  i + List.length rest = total ->
  steps (batchEvents call report ms total i rest oks)
    = paced ms (calls (batchEvents call report ms total i rest oks)) /\
  delays (batchEvents call report ms total i rest oks)
    = repeat ms (List.length rest - 1).
Proof.
  induction rest as [|repoName rest IH]; intros i [|ok oks] Hlen Htotal;
    try discriminate; [split; reflexivity |].
  injection Hlen as Hlen. cbn [List.length] in Htotal.
  destruct (IH (S i) oks Hlen ltac:(lia)) as [Hsteps Hdelays].
  pose proof (batchEvents_calls rest (S i) oks Hlen) as Hcalls.
  rewrite batchEvents_cons, !steps_app, !calls_app, !delays_app.
  rewrite Hsteps, Hdelays, call_delays.
  assert (Hs : steps [call repoName ok] = [call repoName ok])
    by (unfold steps; cbn [filter]; now rewrite call_isStep).
  assert (Hc : calls [call repoName ok] = [call repoName ok])
    by (unfold calls; cbn [filter]; now rewrite call_isCall).
  rewrite Hs, Hc.
  change (steps [Console (Progress (i + 1) total)]) with (@nil Event).
  change (steps [Console (report repoName ok)]) with (@nil Event).
  change (calls [Console (Progress (i + 1) total)]) with (@nil Event).
  change (calls [Console (report repoName ok)]) with (@nil Event).
  change (delays [Console (Progress (i + 1) total)]) with (@nil nat).
  change (delays [Console (report repoName ok)]) with (@nil nat).
  cbn [app].
  destruct rest as [|next rest].
  - replace (Z.of_nat i <? Z.of_nat total - 1)%Z with false
      by (symmetry; apply Z.ltb_ge; cbn in Htotal; lia).
    destruct oks; [| discriminate]. split; reflexivity.
  - replace (Z.of_nat i <? Z.of_nat total - 1)%Z with true
      by (symmetry; apply Z.ltb_lt; cbn in Htotal; lia).
    cbn [List.length] in Hcalls.
    destruct (calls (batchEvents call report ms total (S i) (next :: rest) oks))
      as [|c cs] eqn:Hcs; [discriminate |].
    split; [reflexivity |].
    cbn [List.length Nat.sub]. cbn. now rewrite Nat.sub_0_r.
Qed.

End BatchEvents.

(** C1. The count law of the batch. Once confirmed, each flow attempts
    every selected repository, in order; with [k] of the calls
    rejected, the summary that ends the run reports [N - k] successes
    and [k] failures; and the flow returns: no rejection leaves the
    loop. *)
Theorem batch_count_law {W} (octokit : Octokit W) (username : string)
  (selectedRepos : list string) (st : St W) :
  let N := List.length selectedRepos in
  (forall targetVisibility,
     exists st' evs,
       changeVisibilityConfirmed octokit username targetVisibility selectedRepos true st
         = (Ret tt, st') /\
       trace st' = trace st ++ evs /\
       map fst (mutations evs) = selectedRepos /\
       failures evs <= N /\
       last evs (Console BlankLine)
         = Console (VisibilitySummary (N - failures evs) (failures evs))) /\
  (exists st' evs,
     deleteConfirmed octokit username selectedRepos "DELETE" st = (Ret tt, st') /\
     trace st' = trace st ++ evs /\
     map fst (mutations evs) = selectedRepos /\
     failures evs <= N /\
     last evs (Console BlankLine)
       = Console (DeleteSummary (N - failures evs) (failures evs))).
Proof.
  intros N. split.
  - intros tv. unfold changeVisibilityConfirmed. cbn [negb].
    rewrite (bind_Ret _ _ _ _ _ (log_run _ st)).
    destruct (changeVisibilityLoop_run octokit username tv N selectedRepos 0 0 0
                (mkSt (world st)
                      (trace st ++ [Console (ChangingVisibility (visibility_value tv))])))
      as (oks & st1 & Hlen & Hrun & Htrace).
    destruct (batchEvents_mutations (updateEvent username tv) (updateReport tv) 100 N
                ltac:(reflexivity) selectedRepos 0 oks Hlen) as [Hnames Hfail].
    pose proof (successes_rejections oks) as Hsum.
    exists (mkSt (world st1)
                 ((trace st1 ++ [Console BlankLine])
                    ++ [Console (VisibilitySummary (0 + successes oks) (0 + rejections oks))])).
    exists (([Console (ChangingVisibility (visibility_value tv))]
               ++ batchEvents (updateEvent username tv) (updateReport tv) 100 N 0 selectedRepos oks)
              ++ [Console BlankLine;
                  Console (VisibilitySummary (0 + successes oks) (0 + rejections oks))]).
    rewrite (bind_Ret _ _ _ _ _ Hrun). cbn beta iota.
    rewrite (bind_Ret _ _ _ _ _ (log_run _ st1)). rewrite log_run. cbn [world trace].
    split; [reflexivity |]. split.
    { rewrite Htrace. cbn [trace]. rewrite <- !app_assoc. reflexivity. }
    rewrite last_app_two, !mutations_app, !failures_app, !map_app.
    change (failures [Console (ChangingVisibility (visibility_value tv))]) with 0.
    change (mutations [Console (ChangingVisibility (visibility_value tv))]) with (@nil (string * bool)).
    rewrite Hnames, Hfail. cbn. rewrite app_nil_r, Nat.add_0_r.
    split; [reflexivity | split; [lia |]].
    do 2 f_equal. fold N in Hlen. lia.
  - unfold deleteConfirmed. cbn [String.eqb Ascii.eqb Bool.eqb negb].
    rewrite (bind_Ret _ _ _ _ _ (log_run _ st)).
    destruct (deleteLoop_run octokit username N selectedRepos 0 0 0
                (mkSt (world st) (trace st ++ [Console DeletingRepositories])))
      as (oks & st1 & Hlen & Hrun & Htrace).
    destruct (batchEvents_mutations (deleteEvent username) deleteReport 200 N
                ltac:(reflexivity) selectedRepos 0 oks Hlen) as [Hnames Hfail].
    pose proof (successes_rejections oks) as Hsum.
    exists (mkSt (world st1)
                 ((trace st1 ++ [Console BlankLine])
                    ++ [Console (DeleteSummary (0 + successes oks) (0 + rejections oks))])).
    exists (([Console DeletingRepositories]
               ++ batchEvents (deleteEvent username) deleteReport 200 N 0 selectedRepos oks)
              ++ [Console BlankLine;
                  Console (DeleteSummary (0 + successes oks) (0 + rejections oks))]).
    rewrite (bind_Ret _ _ _ _ _ Hrun). cbn beta iota.
    rewrite (bind_Ret _ _ _ _ _ (log_run _ st1)). rewrite log_run. cbn [world trace].
    split; [reflexivity |]. split.
    { rewrite Htrace. cbn [trace]. rewrite <- !app_assoc. reflexivity. }
    rewrite last_app_two, !mutations_app, !failures_app, !map_app.
    change (failures [Console DeletingRepositories]) with 0.
    change (mutations [Console DeletingRepositories]) with (@nil (string * bool)).
    rewrite Hnames, Hfail. cbn. rewrite app_nil_r, Nat.add_0_r.
    split; [reflexivity | split; [lia |]].
    do 2 f_equal. fold N in Hlen. lia.
Qed.

(** C7. Pacing between the items. In a confirmed batch of [N] items the
    loop waits once between each two consecutive calls and not after the
    last one: the calls and waits of the run are the [N] calls with one
    wait between neighbours, [N - 1] waits in all, of 100 ms in the
    visibility flow and 200 ms in the deletion flow. *)
Theorem inter_item_pacing {W} (octokit : Octokit W) (username : string)
  (selectedRepos : list string) (st : St W) :
  let N := List.length selectedRepos in
  (forall targetVisibility,
     exists st' evs,
       changeVisibilityConfirmed octokit username targetVisibility selectedRepos true st
         = (Ret tt, st') /\
       trace st' = trace st ++ evs /\
       List.length (calls evs) = N /\
       steps evs = paced 100 (calls evs) /\
       delays evs = repeat 100 (N - 1)) /\
  (exists st' evs,
     deleteConfirmed octokit username selectedRepos "DELETE" st = (Ret tt, st') /\
     trace st' = trace st ++ evs /\
     List.length (calls evs) = N /\
     steps evs = paced 200 (calls evs) /\
     delays evs = repeat 200 (N - 1)).
Proof.
  intros N. split.
  - intros tv. unfold changeVisibilityConfirmed. cbn [negb].
    rewrite (bind_Ret _ _ _ _ _ (log_run _ st)).
    destruct (changeVisibilityLoop_run octokit username tv N selectedRepos 0 0 0
                (mkSt (world st)
                      (trace st ++ [Console (ChangingVisibility (visibility_value tv))])))
      as (oks & st1 & Hlen & Hrun & Htrace).
    destruct (batchEvents_pacing (updateEvent username tv) (updateReport tv) 100 N
                ltac:(reflexivity) ltac:(reflexivity) ltac:(reflexivity)
                selectedRepos 0 oks Hlen eq_refl) as [Hsteps Hdelays].
    pose proof (batchEvents_calls (updateEvent username tv) (updateReport tv) 100 N
                  ltac:(reflexivity) selectedRepos 0 oks Hlen) as Hcalls.
    exists (mkSt (world st1)
                 ((trace st1 ++ [Console BlankLine])
                    ++ [Console (VisibilitySummary (0 + successes oks) (0 + rejections oks))])).
    exists (([Console (ChangingVisibility (visibility_value tv))]
               ++ batchEvents (updateEvent username tv) (updateReport tv) 100 N 0
                              selectedRepos oks)
              ++ [Console BlankLine;
                  Console (VisibilitySummary (0 + successes oks) (0 + rejections oks))]).
    rewrite (bind_Ret _ _ _ _ _ Hrun). cbn beta iota.
    rewrite (bind_Ret _ _ _ _ _ (log_run _ st1)). rewrite log_run. cbn [world trace].
    split; [reflexivity |]. split.
    { rewrite Htrace. cbn [trace]. rewrite <- !app_assoc. reflexivity. }
    rewrite !calls_app, !steps_app, !delays_app, Hsteps, Hdelays.
    cbn [calls steps delays filter flat_map isCall isStep app].
    rewrite !app_nil_r. auto.
  - unfold deleteConfirmed. cbn [String.eqb Ascii.eqb Bool.eqb negb].
    rewrite (bind_Ret _ _ _ _ _ (log_run _ st)).
    destruct (deleteLoop_run octokit username N selectedRepos 0 0 0
                (mkSt (world st) (trace st ++ [Console DeletingRepositories])))
      as (oks & st1 & Hlen & Hrun & Htrace).
    destruct (batchEvents_pacing (deleteEvent username) deleteReport 200 N
                ltac:(reflexivity) ltac:(reflexivity) ltac:(reflexivity)
                selectedRepos 0 oks Hlen eq_refl) as [Hsteps Hdelays].
    pose proof (batchEvents_calls (deleteEvent username) deleteReport 200 N
                  ltac:(reflexivity) selectedRepos 0 oks Hlen) as Hcalls.
    exists (mkSt (world st1)
                 ((trace st1 ++ [Console BlankLine])
                    ++ [Console (DeleteSummary (0 + successes oks) (0 + rejections oks))])).
    exists (([Console DeletingRepositories]
               ++ batchEvents (deleteEvent username) deleteReport 200 N 0
                              selectedRepos oks)
              ++ [Console BlankLine;
                  Console (DeleteSummary (0 + successes oks) (0 + rejections oks))]).
    rewrite (bind_Ret _ _ _ _ _ Hrun). cbn beta iota.
    rewrite (bind_Ret _ _ _ _ _ (log_run _ st1)). rewrite log_run. cbn [world trace].
    split; [reflexivity |]. split.
    { rewrite Htrace. cbn [trace]. rewrite <- !app_assoc. reflexivity. }
    rewrite !calls_app, !steps_app, !delays_app, Hsteps, Hdelays.
    cbn [calls steps delays filter flat_map isCall isStep app].
    rewrite !app_nil_r. auto.
Qed.

(* ------------------------------------------------------------------ *)
(** * The confirmation gate of the deletion flow                        *)
(* ------------------------------------------------------------------ *)

Lemma Quiet_ret {W A} (a : A) : Quiet (@ret W A a).
Proof. intros st. exists []. cbn. now rewrite app_nil_r. Qed.

Lemma Quiet_hang {W A} : Quiet (@hang W A).
Proof. intros st. exists []. cbn. now rewrite app_nil_r. Qed.

Lemma Quiet_emit {W} (e : Event) : quiet e = true -> Quiet (@emit W e).
Proof. intros He st. exists [e]. cbn [emit snd trace forallb]. now rewrite He. Qed.

Lemma Quiet_bind_returned {W A B} (m : M W A) (k : A -> M W B) :
  Quiet m ->
  (forall st a st1, m st = (Ret a, st1) -> Quiet (k a)) ->
  Quiet (bind m k).
Proof.
  intros Hm Hk st. unfold bind.
  destruct (Hm st) as (evs1 & Ht1 & Hq1).
  destruct (m st) as [[a|error|] st1] eqn:Hrun; cbn [snd] in *.
  - destruct (Hk st a st1 Hrun st1) as (evs2 & Ht2 & Hq2).
    exists (evs1 ++ evs2). rewrite Ht2, Ht1, app_assoc, forallb_app, Hq1, Hq2. auto.
  - exists evs1. auto.
  - exists evs1. auto.
Qed.

Lemma Quiet_bind {W A B} (m : M W A) (k : A -> M W B) :
  Quiet m -> (forall a, Quiet (k a)) -> Quiet (bind m k).
Proof. intros Hm Hk. apply Quiet_bind_returned; auto. Qed.

Lemma Quiet_try_catch {W A} (body : M W A) (handler : Error -> M W A) :
  Quiet body -> (forall error, Quiet (handler error)) -> Quiet (try_catch body handler).
Proof.
  intros Hb Hh st. unfold try_catch.
  destruct (Hb st) as (evs1 & Ht1 & Hq1).
  destruct (body st) as [[a|error|] st1] eqn:Hrun; cbn [snd] in *.
  - exists evs1. auto.
  - destruct (Hh error st1) as (evs2 & Ht2 & Hq2).
    exists (evs1 ++ evs2). rewrite Ht2, Ht1, app_assoc, forallb_app, Hq1, Hq2. auto.
  - exists evs1. auto.
Qed.

Lemma Quiet_request {W A} (call : W -> (Error + A) * W) (ev : bool -> Event) :
  (forall ok, quiet (ev ok) = true) -> Quiet (request call ev).
Proof.
  intros Hev st. unfold request.
  destruct (call (world st)) as [[error|a] w1]; eexists; cbn [snd trace];
    (split; [reflexivity | cbn [forallb]; now rewrite Hev]).
Qed.

Lemma Quiet_forEach {W A} (f : A -> M W unit) (l : list A) :
  (forall x, Quiet (f x)) -> Quiet (forEach f l).
Proof.
  intros Hf. induction l as [|x l IH]; cbn [forEach].
  - apply Quiet_ret.
  - apply Quiet_bind; auto.
Qed.

Lemma Quiet_input_prompt {W} (validate : string -> Validation) (typed : list string) :
  Quiet (@input_prompt W validate typed).
Proof.
  induction typed as [|line typed IH]; cbn [input_prompt].
  - apply Quiet_hang.
  - destruct (validate line); [apply Quiet_ret |].
    apply Quiet_bind; [now apply Quiet_emit | auto].
Qed.

Lemma Quiet_getAllRepositories {W} (octokit : Octokit W) (fuel : nat) :
  Quiet (getAllRepositories octokit fuel).
Proof.
  unfold getAllRepositories.
  apply Quiet_bind; [now apply Quiet_emit | intros _].
  apply Quiet_try_catch.
  - generalize (@nil Repository) at 1. generalize 1.
    induction fuel as [|fuel IH]; intros pg acc; cbn [fetchPages].
    + apply Quiet_hang.
    + apply Quiet_bind; [now apply Quiet_request | intros data].
      apply Quiet_bind.
      * intros st. exists []. cbn. now rewrite app_nil_r.
      * intros now. destruct (Nat.eqb _ _); [apply IH | apply Quiet_ret].
  - intros error. apply Quiet_bind; [now apply Quiet_emit | intros _; apply Quiet_ret].
Qed.

Lemma validateDelete_spec (line : string) :
  validateDelete line = if String.eqb line "DELETE" then Valid else Invalid mustTypeDelete.
Proof. reflexivity. Qed.

Lemma input_prompt_returned {W} (typed : list string) :
  forall (st st1 : St W) answer,
    input_prompt validateDelete typed st = (Ret answer, st1) ->
    answer = "DELETE" /\ In "DELETE" typed.
Proof.
  induction typed as [|line typed IH]; intros st st1 answer Hrun;
    cbn [input_prompt] in Hrun; [discriminate |].
  rewrite validateDelete_spec in Hrun.
  destruct (String.eqb_spec line "DELETE") as [->|Hne].
  - injection Hrun as <- _. split; [reflexivity | now left].
  - rewrite (bind_Ret _ _ _ _ _ (log_run _ st)) in Hrun.
    destruct (IH _ _ _ Hrun) as [-> Hin]. split; [reflexivity | now right].
Qed.

Lemma input_prompt_retries {W} (refused rest : list string) :
  Forall (fun line => line <> "DELETE") refused ->
  forall st : St W,
    input_prompt validateDelete (refused ++ "DELETE" :: rest) st
    = (Ret "DELETE",
       mkSt (world st)
            (trace st ++ map (fun _ => Console (PromptError mustTypeDelete)) refused)).
Proof.
  induction 1 as [|line refused Hne _ IH]; intros st; cbn [app input_prompt map].
  - cbn. rewrite app_nil_r. now destruct st.
  - rewrite validateDelete_spec.
    destruct (String.eqb_spec line "DELETE") as [Heq|_]; [contradiction |].
    rewrite (bind_Ret _ _ _ _ _ (log_run _ st)), IH. cbn [world trace].
    now rewrite <- app_assoc.
Qed.

Lemma quiet_events (evs : list Event) :
  forallb quiet evs = true ->
  mutations evs = [] /\ ~ In (Console OperationCancelled) evs.
Proof.
  induction evs as [|e evs IH]; cbn [forallb]; [intros _; split; [reflexivity | tauto] |].
  intros H. apply andb_prop in H as [He Hevs]. destruct (IH Hevs) as [Hm Hc].
  split.
  - change (e :: evs) with ([e] ++ evs). rewrite mutations_app, Hm.
    destruct e; cbn in *; try reflexivity; discriminate.
  - intros [Heq|Hin]; [subst e; discriminate | contradiction].
Qed.

(** C2, as it holds. A line other than the exact "DELETE" is refused by
    the prompt with the text of [validate] and the prompt asks again;
    the prompt resolves only with "DELETE". While no "DELETE" has been
    typed the flow issues no mutation call and is not cancelled either;
    the test after the prompt cancels, with no call, on any other
    answer it is handed. *)
Theorem delete_confirmation_gate {W} (octokit : Octokit W) (username : string) :
  (forall selectedRepos answer st,
     answer <> "DELETE" ->
     deleteConfirmed octokit username selectedRepos answer st
       = (Ret tt, mkSt (world st) (trace st ++ [Console OperationCancelled]))) /\
  (forall line typed (st : St W),
     line <> "DELETE" ->
     validateDelete line = Invalid mustTypeDelete /\
     input_prompt validateDelete (line :: typed) st
       = input_prompt validateDelete typed
           (mkSt (world st) (trace st ++ [Console (PromptError mustTypeDelete)]))) /\
  (forall refused rest (st : St W),
     Forall (fun line => line <> "DELETE") refused ->
     input_prompt validateDelete (refused ++ "DELETE" :: rest) st
       = (Ret "DELETE",
          mkSt (world st)
               (trace st ++ map (fun _ => Console (PromptError mustTypeDelete)) refused))) /\
  (forall op fuel st,
     ~ In "DELETE" (op_typed op) ->
     exists evs,
       trace (snd (deleteRepositoriesFlow octokit username op fuel st)) = trace st ++ evs /\
       mutations evs = [] /\
       ~ In (Console OperationCancelled) evs).
Proof.
  split; [| split; [| split]].
  - intros selectedRepos answer st Hne. unfold deleteConfirmed.
    destruct (String.eqb_spec answer "DELETE") as [Heq|_]; [contradiction |].
    reflexivity.
  - intros line typed st Hne. rewrite validateDelete_spec. cbn [input_prompt].
    rewrite validateDelete_spec.
    destruct (String.eqb_spec line "DELETE") as [Heq|_]; [contradiction |].
    split; [reflexivity |]. now rewrite (bind_Ret _ _ _ _ _ (log_run _ st)).
  - intros refused rest st Href. now apply input_prompt_retries.
  - intros op fuel st Hnone.
    assert (Hq : Quiet (deleteRepositoriesFlow octokit username op fuel)).
    { unfold deleteRepositoriesFlow.
      apply Quiet_bind; [apply Quiet_getAllRepositories | intros repos].
      destruct (Nat.eqb _ 0); [now apply Quiet_emit |].
      destruct (Nat.eqb _ 0); [now apply Quiet_emit |].
      apply Quiet_bind; [now apply Quiet_emit | intros _].
      apply Quiet_bind; [apply Quiet_forEach; intros x; now apply Quiet_emit | intros _].
      apply Quiet_bind_returned; [apply Quiet_input_prompt |].
      intros st0 answer st1 Hrun.
      apply input_prompt_returned in Hrun as [_ Hin]. contradiction. }
    destruct (Hq st) as (evs & Ht & Hquiet).
    exists evs. split; [exact Ht | now apply quiet_events].
Qed.

Lemma delete_confirmation_gate_witness :
  exists evs,
    trace (snd (deleteRepositoriesFlow Account.octokit "octocat"
                  (tickOnly "a" ["delete"; "Delete"; EmptyString])
                  5 (Account.start sampleAccount)))
      = trace (Account.start sampleAccount) ++ evs /\
    mutations evs = [] /\
    ~ In (Console OperationCancelled) evs.
Proof.
  apply (proj2 (proj2 (proj2 (delete_confirmation_gate Account.octokit "octocat")))).
  cbn. intros [H|[H|[H|[]]]]; discriminate.
Defined.

(** C2, as stated, fails. An operator who types "delete" is asked
    again: if nothing more is typed the flow is left pending, not
    cancelled; if "DELETE" follows, the selected repository is
    deleted. *)
Lemma delete_confirmation_counterexample :
  let pending := deleteRepositoriesFlow Account.octokit "octocat"
                   (tickOnly "a" ["delete"]) 5 (Account.start sampleAccount) in
  let retried := deleteRepositoriesFlow Account.octokit "octocat"
                   (tickOnly "a" ["delete"; "DELETE"]) 5 (Account.start sampleAccount) in
  "delete" <> "DELETE" /\
  (fst pending = Hang /\
   ~ In (Console OperationCancelled) (trace (snd pending)) /\
   In (Console (PromptError mustTypeDelete)) (trace (snd pending))) /\
  (fst retried = Ret tt /\
   ~ In (Console OperationCancelled) (trace (snd retried)) /\
   mutations (trace (snd retried)) = [("a", true)] /\
   map raw_name (world (snd retried)) = ["b"; "c"]).
Proof.
  cbv zeta. split; [discriminate |]. split.
  - split; [vm_compute; reflexivity |].
    split; [vm_compute; intuition discriminate | vm_compute; intuition].
  - split; [vm_compute; reflexivity |].
    split; [vm_compute; intuition discriminate |].
    split; vm_compute; reflexivity.
Qed.

(* ------------------------------------------------------------------ *)
(** * Arrays: what filtering, sorting and rendering do to a snapshot    *)
(* ------------------------------------------------------------------ *)

Lemma read_write_same (h : Arrays.Store) (r : Arrays.Ref) (l : list Repository) :
  r < List.length h -> Arrays.read (Arrays.write h r l) r = l.
Proof.
  unfold Arrays.read. revert r; induction h as [|a h IH]; intros [|r] Hr;
    cbn in *; try lia; [reflexivity |].
  apply IH. lia.
Qed.

Lemma read_write_other (h : Arrays.Store) (r r' : Arrays.Ref) (l : list Repository) :
  r' <> r -> Arrays.read (Arrays.write h r l) r' = Arrays.read h r'.
Proof.
  unfold Arrays.read. revert r r'; induction h as [|a h IH]; intros [|r] [|r'] Hne;
    cbn; try reflexivity; try congruence.
  apply IH. congruence.
Qed.

Lemma read_alloc_old (h : Arrays.Store) (r : Arrays.Ref) (l : list Repository) :
  r < List.length h -> Arrays.read (snd (Arrays.alloc l h)) r = Arrays.read h r.
Proof. intros Hr. unfold Arrays.read, Arrays.alloc. cbn. now apply app_nth1. Qed.

Lemma read_alloc_new (h : Arrays.Store) (l : list Repository) :
  Arrays.read (snd (Arrays.alloc l h)) (fst (Arrays.alloc l h)) = l.
Proof.
  unfold Arrays.read, Arrays.alloc. cbn.
  rewrite app_nth2, Nat.sub_diag; [reflexivity | lia].
Qed.

Section Sorting.

Variable compareFn : Repository -> Repository -> option Z.

Lemma insert_Permutation (x : Repository) (l : list Repository) :
  Permutation (Arrays.insert compareFn x l) (x :: l).
Proof.
  induction l as [|y l IH]; cbn; [reflexivity |].
  destruct (_ <=? 0)%Z; [reflexivity |].
  rewrite IH. apply perm_swap.
Qed.

Lemma sorted_elements_Permutation (l : list Repository) :
  Permutation (Arrays.sorted_elements compareFn l) l.
Proof.
  induction l as [|x l IH]; cbn; [reflexivity |].
  rewrite insert_Permutation. now constructor.
Qed.

(** A comparator that subtracts keys, larger key first. *)
Variable key : Repository -> Z.

Lemma insert_sorted (x : Repository) (l : list Repository) :
  (forall y, In y l -> compareFn x y = Some (key y - key x)%Z) ->
  StronglySorted (before key) l ->
  StronglySorted (before key) (Arrays.insert compareFn x l).
Proof.
  intros Hcmp Hsorted. induction Hsorted as [|y l Hsorted IH Hall]; cbn.
  - repeat constructor.
  - rewrite (Hcmp y (or_introl eq_refl)).
    destruct (Z.leb_spec (key y - key x) 0) as [Hle|Hgt].
    + constructor; [now constructor |].
      constructor; [unfold before; lia |].
      apply Forall_forall. intros z Hz.
      pose proof (proj1 (Forall_forall _ _) Hall z Hz) as Hyz.
      unfold before in *. lia.
    + constructor; [apply IH; intros z Hz; apply Hcmp; now right |].
      apply Forall_forall. intros z Hz.
      apply (Permutation_in _ (insert_Permutation x l)) in Hz as [<-|Hz].
      * unfold before. lia.
      * exact (proj1 (Forall_forall _ _) Hall z Hz).
Qed.

Lemma sorted_elements_sorted (l : list Repository) :
  (forall a b, In a l -> In b l -> compareFn a b = Some (key b - key a)%Z) ->
  StronglySorted (before key) (Arrays.sorted_elements compareFn l).
Proof.
  induction l as [|x l IH]; intros Hcmp; cbn; [constructor |].
  apply insert_sorted.
  - intros y Hy. apply (Permutation_in _ (sorted_elements_Permutation l)) in Hy.
    apply Hcmp; [now left | now right].
  - apply IH. intros a b Ha Hb. apply Hcmp; now right.
Qed.

End Sorting.

(** C8, as it holds. Filtering builds a new array and rendering only
    reads, so both leave the snapshot as it was. [sortRepositories]
    sorts the array it is given in place and returns that same array:
    afterwards the snapshot holds the same records in sorted order
    (newest first in the list view, when every date is valid; largest
    first by size), and every other array is untouched. *)
Theorem snapshot_after_consumers (rt : Runtime) (h : Arrays.Store)
  (repos : Arrays.Ref) :
  repos < List.length h ->
  let snapshot := Arrays.read h repos in
  (forall f,
     fst (Arrays.filter f repos h) <> repos /\
     Arrays.read (snd (Arrays.filter f repos h)) (fst (Arrays.filter f repos h))
       = List.filter f snapshot /\
     forall r, r < List.length h ->
       Arrays.read (snd (Arrays.filter f repos h)) r = Arrays.read h r) /\
  Arrays.forEach tableRow repos h = (map tableRow snapshot, h) /\
  (forall sortBy,
     fst (Utils.sortRepositories rt repos sortBy h) = repos /\
     Arrays.read (snd (Utils.sortRepositories rt repos sortBy h)) repos
       = Arrays.sorted_elements (Utils.compareFn rt sortBy) snapshot /\
     Permutation (Arrays.read (snd (Utils.sortRepositories rt repos sortBy h)) repos)
                 snapshot /\
     forall r, r <> repos ->
       Arrays.read (snd (Utils.sortRepositories rt repos sortBy h)) r = Arrays.read h r) /\
  (Forall (fun repo => getTime rt (updatedAt repo) <> None) snapshot ->
   StronglySorted (fun a b => (updatedTime rt b <= updatedTime rt a)%Z)
     (Arrays.read (snd (Utils.sortRepositories rt repos ByUpdated h)) repos)) /\
  StronglySorted (fun a b => (size b <= size a)%Z)
    (Arrays.read (snd (Utils.sortRepositories rt repos BySize h)) repos) /\
  listView rt repos h
    = (map tableRow (Arrays.read (snd (Utils.sortRepositories rt repos ByUpdated h)) repos),
       snd (Utils.sortRepositories rt repos ByUpdated h)).
Proof.
  intros Hrepos snapshot.
  assert (Hsort : forall sortBy,
            Arrays.read (snd (Utils.sortRepositories rt repos sortBy h)) repos
              = Arrays.sorted_elements (Utils.compareFn rt sortBy) snapshot).
  { intros sortBy. unfold Utils.sortRepositories, Arrays.sort. cbn [snd].
    now apply read_write_same. }
  split; [| split; [| split; [| split; [| split]]]].
  - intros f. split; [| split].
    + unfold Arrays.filter, Arrays.alloc. cbn [fst]. lia.
    + unfold Arrays.filter. apply read_alloc_new.
    + intros r Hr. unfold Arrays.filter. now apply read_alloc_old.
  - reflexivity.
  - intros sortBy. split; [reflexivity | split; [apply Hsort | split]].
    + rewrite Hsort. apply sorted_elements_Permutation.
    + intros r Hne. unfold Utils.sortRepositories, Arrays.sort. cbn [snd].
      now apply read_write_other.
  - intros Hvalid. rewrite Hsort. apply sorted_elements_sorted.
    intros a b Ha Hb. cbn [Utils.compareFn]. unfold updatedTime.
    pose proof (proj1 (Forall_forall _ _) Hvalid a Ha) as Va.
    pose proof (proj1 (Forall_forall _ _) Hvalid b Hb) as Vb.
    cbv beta in Va, Vb.
    destruct (getTime rt (updatedAt a)), (getTime rt (updatedAt b));
      try congruence; reflexivity.
  - rewrite Hsort. apply sorted_elements_sorted. reflexivity.
  - unfold listView, Utils.sortRepositories, Arrays.sort, Arrays.forEach. reflexivity.
Qed.

Lemma snapshot_after_consumers_witness :
  Arrays.read (snd (Utils.sortRepositories sampleRuntime 0 ByUpdated
                      [[olderRepo; newerRepo]])) 0
    = [newerRepo; olderRepo] /\
  StronglySorted (fun a b => (updatedTime sampleRuntime b <= updatedTime sampleRuntime a)%Z)
    (Arrays.read (snd (Utils.sortRepositories sampleRuntime 0 ByUpdated
                         [[olderRepo; newerRepo]])) 0).
Proof.
  split; [reflexivity |].
  apply (proj1 (proj2 (proj2 (proj2
           (snapshot_after_consumers sampleRuntime [[olderRepo; newerRepo]] 0
              ltac:(cbn; lia)))))).
  repeat constructor; discriminate.
Defined.

(** C8, as stated, fails: after [sortRepositories] the array it was
    given, here a snapshot listing the older record first, holds the
    records in another order; so does the snapshot behind the list
    view. *)
Lemma sortRepositories_counterexample :
  let h := [[olderRepo; newerRepo]] in
  let sorted := Utils.sortRepositories sampleRuntime 0 ByUpdated h in
  Arrays.read h 0 = [olderRepo; newerRepo] /\
  fst sorted = 0 /\
  Arrays.read (snd sorted) 0 = [newerRepo; olderRepo] /\
  Arrays.read (snd sorted) 0 <> Arrays.read h 0 /\
  Arrays.read (snd (listView sampleRuntime 0 h)) 0 <> Arrays.read h 0.
Proof.
  cbv zeta. repeat split; try reflexivity; vm_compute; discriminate.
Qed.

(* ------------------------------------------------------------------ *)
(** * Three runs, evaluated                                             *)
(* ------------------------------------------------------------------ *)

(** A batch of three in which the second name is unknown to the
    account: three calls, two waits, and a summary of 2 and 1. *)
Example visibility_batch_run :
  let run := changeVisibilityConfirmed Account.octokit "octocat" Private
               ["a"; "zzz"; "b"] true (Account.start sampleAccount) in
  fst run = Ret tt /\
  mutations (trace (snd run)) = [("a", true); ("zzz", false); ("b", true)] /\
  delays (trace (snd run)) = [100; 100] /\
  last (trace (snd run)) (Console BlankLine) = Console (VisibilitySummary 2 1) /\
  map raw_private (world (snd run)) = [true; true; true].
Proof. vm_compute. repeat split; reflexivity. Qed.

Example delete_batch_run :
  let run := deleteConfirmed Account.octokit "octocat" ["c"; "zzz"] "DELETE"
               (Account.start sampleAccount) in
  fst run = Ret tt /\
  mutations (trace (snd run)) = [("c", true); ("zzz", false)] /\
  delays (trace (snd run)) = [200] /\
  last (trace (snd run)) (Console BlankLine) = Console (DeleteSummary 1 1) /\
  map raw_name (world (snd run)) = ["a"; "b"].
Proof. vm_compute. repeat split; reflexivity. Qed.

(** The operator declines the yes/no question: nothing is called. *)
Example visibility_declined_run :
  let run := changeVisibilityFlow Account.octokit "octocat"
               (mkOperator Private (fun _ => true) false [])
               5 (Account.start sampleAccount) in
  fst run = Ret tt /\
  mutations (trace (snd run)) = [] /\
  last (trace (snd run)) (Console BlankLine) = Console OperationCancelled.
Proof. vm_compute. repeat split; reflexivity. Qed.

(* ------------------------------------------------------------------ *)
(** * What the flows emit, and how they end                             *)
(* ------------------------------------------------------------------ *)

Section EmitsRules.

Context {W : Type}.
Variable P : Event -> bool.

Lemma Emits_ret {A} (a : A) : Emits P (@ret W A a).
Proof. intros st. exists []. cbn. now rewrite app_nil_r. Qed.

Lemma Emits_hang {A} : Emits P (@hang W A).
Proof. intros st. exists []. cbn. now rewrite app_nil_r. Qed.

Lemma Emits_emit (e : Event) : P e = true -> Emits P (@emit W e).
Proof. intros He st. exists [e]. cbn [emit snd trace forallb]. now rewrite He. Qed.

Lemma Emits_bind_returned {A B} (m : M W A) (k : A -> M W B) :
  Emits P m ->
  (forall st a st1, m st = (Ret a, st1) -> Emits P (k a)) ->
  Emits P (bind m k).
Proof.
  intros Hm Hk st. unfold bind.
  destruct (Hm st) as (evs1 & Ht1 & Hq1).
  destruct (m st) as [[a|error|] st1] eqn:Hrun; cbn [snd] in *.
  - destruct (Hk st a st1 Hrun st1) as (evs2 & Ht2 & Hq2).
    exists (evs1 ++ evs2). rewrite Ht2, Ht1, app_assoc, forallb_app, Hq1, Hq2. auto.
  - exists evs1. auto.
  - exists evs1. auto.
Qed.

Lemma Emits_bind {A B} (m : M W A) (k : A -> M W B) :
  Emits P m -> (forall a, Emits P (k a)) -> Emits P (bind m k).
Proof. intros Hm Hk. apply Emits_bind_returned; auto. Qed.

Lemma Emits_try_catch {A} (body : M W A) (handler : Error -> M W A) :
  Emits P body -> (forall error, Emits P (handler error)) ->
  Emits P (try_catch body handler).
Proof.
  intros Hb Hh st. unfold try_catch.
  destruct (Hb st) as (evs1 & Ht1 & Hq1).
  destruct (body st) as [[a|error|] st1] eqn:Hrun; cbn [snd] in *.
  - exists evs1. auto.
  - destruct (Hh error st1) as (evs2 & Ht2 & Hq2).
    exists (evs1 ++ evs2). rewrite Ht2, Ht1, app_assoc, forallb_app, Hq1, Hq2. auto.
  - exists evs1. auto.
Qed.

Lemma Emits_request {A} (call : W -> (Error + A) * W) (ev : bool -> Event) :
  (forall ok, P (ev ok) = true) -> Emits P (request call ev).
Proof.
  intros Hev st. unfold request.
  destruct (call (world st)) as [[error|a] w1]; eexists; cbn [snd trace];
    (split; [reflexivity | cbn [forallb]; now rewrite Hev]).
Qed.

Lemma Emits_forEach {A} (f : A -> M W unit) (l : list A) :
  (forall x, Emits P (f x)) -> Emits P (forEach f l).
Proof.
  intros Hf. induction l as [|x l IH]; cbn [forEach].
  - apply Emits_ret.
  - apply Emits_bind; auto.
Qed.

Lemma Emits_input_prompt (validate : string -> Validation) (typed : list string) :
  (forall message, P (Console (PromptError message)) = true) ->
  Emits P (@input_prompt W validate typed).
Proof.
  intros HP. induction typed as [|line typed IH]; cbn [input_prompt].
  - apply Emits_hang.
  - destruct (validate line); [apply Emits_ret |].
    apply Emits_bind; [apply Emits_emit, HP | auto].
Qed.

Lemma Emits_getAllRepositories (octokit : Octokit W) (fuel : nat) :
  (forall e, fetchOrNotice e = true -> P e = true) ->
  Emits P (getAllRepositories octokit fuel).
Proof.
  intros HP. unfold getAllRepositories.
  apply Emits_bind; [now apply Emits_emit, HP | intros _].
  apply Emits_try_catch.
  - generalize (@nil Repository) at 1. generalize 1.
    induction fuel as [|fuel IH]; intros pg acc; cbn [fetchPages].
    + apply Emits_hang.
    + apply Emits_bind; [apply Emits_request; intros ok; now apply HP | intros data].
      apply Emits_bind.
      * intros st. exists []. cbn. now rewrite app_nil_r.
      * intros now. destruct (Nat.eqb _ _); [apply IH | apply Emits_ret].
  - intros error.
    apply Emits_bind; [now apply Emits_emit, HP | intros _; apply Emits_ret].
Qed.

End EmitsRules.

Lemma Emits_weaken {W A} (P Q : Event -> bool) (m : M W A) :
  (forall e, P e = true -> Q e = true) -> Emits P m -> Emits Q m.
Proof.
  intros HPQ Hm st. destruct (Hm st) as (evs & Ht & HP).
  exists evs. split; [exact Ht |].
  rewrite forallb_forall in *. auto.
Qed.

Lemma Emits_of_run {W A} (P : Event -> bool) (m : M W A) :
  (forall st, exists o st' evs,
     m st = (o, st') /\ trace st' = trace st ++ evs /\ forallb P evs = true) ->
  Emits P m.
Proof.
  intros H st. destruct (H st) as (o & st' & evs & Hrun & Ht & HP).
  exists evs. now rewrite Hrun.
Qed.

Section NoThrowRules.

Context {W : Type}.

Lemma NoThrow_of_Ret {A} (m : M W A) :
  (forall st, exists a st', m st = (Ret a, st')) -> NoThrow m.
Proof. intros H st error. destruct (H st) as (a & st' & ->). discriminate. Qed.

Lemma NoThrow_bind {A B} (m : M W A) (k : A -> M W B) :
  NoThrow m -> (forall a, NoThrow (k a)) -> NoThrow (bind m k).
Proof.
  intros Hm Hk st error. unfold bind.
  specialize (Hm st). destruct (m st) as [[a|e|] st1]; cbn in *.
  - apply Hk.
  - now specialize (Hm e).
  - discriminate.
Qed.

Lemma NoThrow_try_catch {A} (body : M W A) (handler : Error -> M W A) :
  (forall error, NoThrow (handler error)) -> NoThrow (try_catch body handler).
Proof.
  intros Hh st error. unfold try_catch.
  destruct (body st) as [[a|e|] st1]; cbn; try discriminate. apply Hh.
Qed.

Lemma NoThrow_forEach {A} (f : A -> M W unit) (l : list A) :
  (forall x, NoThrow (f x)) -> NoThrow (forEach f l).
Proof.
  intros Hf. induction l as [|x l IH]; cbn [forEach].
  - intros st error. discriminate.
  - apply NoThrow_bind; auto.
Qed.

Lemma NoThrow_input_prompt (validate : string -> Validation) (typed : list string) :
  NoThrow (@input_prompt W validate typed).
Proof.
  induction typed as [|line typed IH]; cbn [input_prompt].
  - intros st error. discriminate.
  - destruct (validate line); [intros st error; discriminate |].
    apply NoThrow_bind; [intros st error; discriminate | auto].
Qed.

End NoThrowRules.

Lemma NoThrow_log {W} (m : Message) : NoThrow (@log W m).
Proof. intros st error. discriminate. Qed.

Lemma NoThrow_getAllRepositories {W} (octokit : Octokit W) (fuel : nat) :
  NoThrow (getAllRepositories octokit fuel).
Proof.
  unfold getAllRepositories.
  apply NoThrow_bind; [apply NoThrow_log | intros _].
  apply NoThrow_try_catch. intros error.
  apply NoThrow_bind; [apply NoThrow_log | intros _ st e; discriminate].
Qed.

Lemma NoThrow_changeVisibilityConfirmed {W} (octokit : Octokit W) username tv
  selectedRepos confirm :
  NoThrow (changeVisibilityConfirmed octokit username tv selectedRepos confirm).
Proof.
  unfold changeVisibilityConfirmed. destruct confirm; cbn [negb]; [| apply NoThrow_log].
  apply NoThrow_bind; [apply NoThrow_log | intros _].
  apply NoThrow_bind.
  - apply NoThrow_of_Ret. intros st.
    destruct (changeVisibilityLoop_run octokit username tv (List.length selectedRepos)
                selectedRepos 0 0 0 st) as (oks & st' & _ & Hrun & _).
    eauto.
  - intros [s e]. apply NoThrow_bind; [apply NoThrow_log | intros _; apply NoThrow_log].
Qed.

Lemma NoThrow_deleteConfirmed {W} (octokit : Octokit W) username selectedRepos answer :
  NoThrow (deleteConfirmed octokit username selectedRepos answer).
Proof.
  unfold deleteConfirmed. destruct (negb _); [apply NoThrow_log |].
  apply NoThrow_bind; [apply NoThrow_log | intros _].
  apply NoThrow_bind.
  - apply NoThrow_of_Ret. intros st.
    destruct (deleteLoop_run octokit username (List.length selectedRepos)
                selectedRepos 0 0 0 st) as (oks & st' & _ & Hrun & _).
    eauto.
  - intros [s e]. apply NoThrow_bind; [apply NoThrow_log | intros _; apply NoThrow_log].
Qed.

(** X1. Nothing the remote does makes a flow throw: the fetch and both
    flows end by returning or stay pending (at the text prompt, or in a
    fetch that never meets a short page); a rejected call never leaves
    them as an exception. *)
Theorem flows_never_throw {W} (octokit : Octokit W) (username : string)
  (op : Operator) (fuel : nat) (st : St W) (error : Error) :
  fst (getAllRepositories octokit fuel st) <> Exn error /\
  fst (changeVisibilityFlow octokit username op fuel st) <> Exn error /\
  fst (deleteRepositoriesFlow octokit username op fuel st) <> Exn error.
Proof.
  split; [apply NoThrow_getAllRepositories | split].
  - revert st error. change (NoThrow (changeVisibilityFlow octokit username op fuel)).
    unfold changeVisibilityFlow.
    apply NoThrow_bind; [apply NoThrow_getAllRepositories | intros repos].
    destruct (Nat.eqb _ 0); [apply NoThrow_log |].
    destruct (Nat.eqb _ 0); [apply NoThrow_log |].
    destruct (Nat.eqb _ 0); [apply NoThrow_log |].
    apply NoThrow_changeVisibilityConfirmed.
  - revert st error. change (NoThrow (deleteRepositoriesFlow octokit username op fuel)).
    unfold deleteRepositoriesFlow.
    apply NoThrow_bind; [apply NoThrow_getAllRepositories | intros repos].
    destruct (Nat.eqb _ 0); [apply NoThrow_log |].
    destruct (Nat.eqb _ 0); [apply NoThrow_log |].
    apply NoThrow_bind; [apply NoThrow_log | intros _].
    apply NoThrow_bind; [apply NoThrow_forEach; intros x; apply NoThrow_log | intros _].
    apply NoThrow_bind; [apply NoThrow_input_prompt | intros answer].
    apply NoThrow_deleteConfirmed.
Qed.

(** ** The confirmed batches, event by event *)

Lemma changeVisibilityConfirmed_run {W} (octokit : Octokit W) (username : string)
  (tv : Visibility) (selectedRepos : list string) (st : St W) :
  exists oks st',
    List.length oks = List.length selectedRepos /\
    changeVisibilityConfirmed octokit username tv selectedRepos true st = (Ret tt, st') /\
    trace st' = trace st ++
      ([Console (ChangingVisibility (visibility_value tv))]
         ++ batchEvents (updateEvent username tv) (updateReport tv) 100
                        (List.length selectedRepos) 0 selectedRepos oks)
      ++ [Console BlankLine;
          Console (VisibilitySummary (successes oks) (rejections oks))].
Proof.
  unfold changeVisibilityConfirmed. cbn [negb].
  rewrite (bind_Ret _ _ _ _ _ (log_run _ st)).
  destruct (changeVisibilityLoop_run octokit username tv (List.length selectedRepos)
              selectedRepos 0 0 0
              (mkSt (world st)
                    (trace st ++ [Console (ChangingVisibility (visibility_value tv))])))
    as (oks & st1 & Hlen & Hrun & Htrace).
  exists oks. eexists. split; [exact Hlen |].
  rewrite (bind_Ret _ _ _ _ _ Hrun). cbn beta iota.
  rewrite (bind_Ret _ _ _ _ _ (log_run _ st1)). rewrite log_run. cbn [world trace].
  split; [reflexivity |].
  rewrite Htrace. cbn [trace Nat.add]. now rewrite <- !app_assoc.
Qed.

Lemma deleteConfirmed_run {W} (octokit : Octokit W) (username : string)
  (selectedRepos : list string) (st : St W) :
  exists oks st',
    List.length oks = List.length selectedRepos /\
    deleteConfirmed octokit username selectedRepos "DELETE" st = (Ret tt, st') /\
    trace st' = trace st ++
      ([Console DeletingRepositories]
         ++ batchEvents (deleteEvent username) deleteReport 200
                        (List.length selectedRepos) 0 selectedRepos oks)
      ++ [Console BlankLine;
          Console (DeleteSummary (successes oks) (rejections oks))].
Proof.
  unfold deleteConfirmed. cbn [String.eqb Ascii.eqb Bool.eqb negb].
  rewrite (bind_Ret _ _ _ _ _ (log_run _ st)).
  destruct (deleteLoop_run octokit username (List.length selectedRepos)
              selectedRepos 0 0 0
              (mkSt (world st) (trace st ++ [Console DeletingRepositories])))
    as (oks & st1 & Hlen & Hrun & Htrace).
  exists oks. eexists. split; [exact Hlen |].
  rewrite (bind_Ret _ _ _ _ _ Hrun). cbn beta iota.
  rewrite (bind_Ret _ _ _ _ _ (log_run _ st1)). rewrite log_run. cbn [world trace].
  split; [reflexivity |].
  rewrite Htrace. cbn [trace Nat.add]. now rewrite <- !app_assoc.
Qed.

Lemma batchEvents_forallb (P : Event -> bool) call report ms total rest :
  (forall m, P (Console m) = true) ->
  P (Delay ms) = true ->
  (forall n ok, In n rest -> P (call n ok) = true) ->
  forall i oks, forallb P (batchEvents call report ms total i rest oks) = true.
Proof.
  intros Hconsole Hdelay. induction rest as [|repoName rest IH]; intros Hcall i oks;
    [reflexivity |].
  destruct oks as [|ok oks]; [reflexivity |].
  cbn [batchEvents app forallb]. rewrite Hconsole, Hconsole, forallb_app.
  rewrite (Hcall repoName ok (or_introl eq_refl)).
  rewrite IH by (intros n ok' Hin; apply Hcall; now right).
  destruct (Z.of_nat i <? Z.of_nat total - 1)%Z; cbn; rewrite ?Hdelay; reflexivity.
Qed.

Lemma batchEvents_progressLines call report ms total rest :
  (forall n ok, progressLines [call n ok] = []) ->
  (forall n ok, progressLines [Console (report n ok)] = []) ->
  forall i oks,
    List.length oks = List.length rest ->
    progressLines (batchEvents call report ms total i rest oks)
      = map (fun current => (current, total)) (seq (i + 1) (List.length rest)).
Proof.
  intros Hcall Hreport. induction rest as [|repoName rest IH]; intros i [|ok oks] Hlen;
    try discriminate; [reflexivity |].
  injection Hlen as Hlen.
  change (batchEvents call report ms total i (repoName :: rest) (ok :: oks))
    with ([Console (Progress (i + 1) total)] ++ [call repoName ok]
            ++ [Console (report repoName ok)]
            ++ (if (Z.of_nat i <? Z.of_nat total - 1)%Z then [Delay ms] else [])
            ++ batchEvents call report ms total (S i) rest oks).
  unfold progressLines in *. rewrite !flat_map_app, Hcall, Hreport, (IH (S i) oks Hlen).
  cbn [List.length seq map]. replace (S i + 1) with (S (i + 1)) by lia.
  destruct (Z.of_nat i <? Z.of_nat total - 1)%Z; reflexivity.
Qed.

Lemma checkbox_within (op : Operator) (choices : list Choice) (n : string) :
  In n (checkbox op choices) -> In n (map choice_value choices).
Proof.
  unfold checkbox. rewrite !in_map_iff. intros (c & Hc & Hin).
  apply filter_In in Hin as [Hin _]. eauto.
Qed.

Lemma checkbox_none (op : Operator) (choices : list Choice) :
  (forall c, op_ticks op c = false) -> checkbox op choices = [].
Proof.
  intros Hnone. unfold checkbox.
  induction choices as [|c choices IH]; cbn; [reflexivity |]. now rewrite Hnone.
Qed.

Lemma existsb_eqb_In (n : string) (names : list string) :
  In n names -> existsb (String.eqb n) names = true.
Proof.
  intros Hin. apply existsb_exists. exists n. split; [exact Hin | apply String.eqb_refl].
Qed.

(** X2. The yes/no gate of the visibility flow: when the operator does
    not confirm, the flow makes no update or delete call, waits for
    nothing and prints no progress; its events are those of the fetch,
    a notice, or the cancellation line. *)
Theorem visibility_declined_makes_no_call {W} (octokit : Octokit W)
  (username : string) (op : Operator) (fuel : nat) (st : St W) :
  op_confirm op = false ->
  exists evs,
    trace (snd (changeVisibilityFlow octokit username op fuel st)) = trace st ++ evs /\
    forallb fetchNoticeOrCancel evs = true /\
    mutations evs = [] /\ delays evs = [].
Proof.
  intros Hno.
  assert (He : Emits fetchNoticeOrCancel (changeVisibilityFlow octokit username op fuel)).
  { unfold changeVisibilityFlow.
    apply Emits_bind.
    - apply Emits_getAllRepositories. intros e He. destruct e as [[]| | | |]; auto.
    - intros repos.
      destruct (Nat.eqb _ 0); [now apply Emits_emit |].
      destruct (Nat.eqb _ 0); [now apply Emits_emit |].
      destruct (Nat.eqb _ 0); [now apply Emits_emit |].
      unfold changeVisibilityConfirmed. rewrite Hno. cbn [negb].
      now apply Emits_emit. }
  destruct (He st) as (evs & Ht & Hall). exists evs.
  split; [exact Ht | split; [exact Hall |]].
  clear Ht. induction evs as [|e evs IH]; [split; reflexivity |].
  cbn [forallb] in Hall. apply andb_prop in Hall as [He1 Hall].
  destruct (IH Hall) as [Hm Hd].
  change (e :: evs) with ([e] ++ evs). rewrite mutations_app, delays_app, Hm, Hd.
  destruct e as [[]| | | |]; cbn in *; try discriminate; split; reflexivity.
Qed.

Lemma visibility_declined_makes_no_call_witness :
  exists evs,
    trace (snd (changeVisibilityFlow Account.octokit "octocat"
                  (mkOperator Private (fun _ => true) false [])
                  5 (Account.start sampleAccount)))
      = trace (Account.start sampleAccount) ++ evs /\
    forallb fetchNoticeOrCancel evs = true /\
    mutations evs = [] /\ delays evs = [].
Proof.
  apply (visibility_declined_makes_no_call Account.octokit "octocat"
           (mkOperator Private (fun _ => true) false []) 5
           (Account.start sampleAccount)).
  reflexivity.
Defined.

(** X3. An empty selection is a no-op in both flows: when the operator
    ticks nothing, the run consists of the fetch and one notice; no
    call is made, no confirmation is asked for and nothing is
    cancelled. *)
Theorem empty_selection_is_noop {W} (octokit : Octokit W)
  (username : string) (op : Operator) (fuel : nat) (st : St W) :
  (forall c, op_ticks op c = false) ->
  (exists evs,
     trace (snd (changeVisibilityFlow octokit username op fuel st)) = trace st ++ evs /\
     forallb fetchOrNotice evs = true) /\
  (exists evs,
     trace (snd (deleteRepositoriesFlow octokit username op fuel st)) = trace st ++ evs /\
     forallb fetchOrNotice evs = true).
Proof.
  intros Hnone. split.
  - revert st. change (Emits fetchOrNotice (changeVisibilityFlow octokit username op fuel)).
    unfold changeVisibilityFlow.
    apply Emits_bind; [apply Emits_getAllRepositories; auto | intros repos].
    destruct (Nat.eqb _ 0); [now apply Emits_emit |].
    destruct (Nat.eqb _ 0); [now apply Emits_emit |].
    rewrite (checkbox_none op _ Hnone). cbn [List.length Nat.eqb].
    now apply Emits_emit.
  - revert st. change (Emits fetchOrNotice (deleteRepositoriesFlow octokit username op fuel)).
    unfold deleteRepositoriesFlow.
    apply Emits_bind; [apply Emits_getAllRepositories; auto | intros repos].
    destruct (Nat.eqb _ 0); [now apply Emits_emit |].
    rewrite (checkbox_none op _ Hnone). cbn [List.length Nat.eqb].
    now apply Emits_emit.
Qed.

Lemma empty_selection_is_noop_witness :
  exists evs,
    trace (snd (deleteRepositoriesFlow Account.octokit "octocat"
                  (mkOperator Private (fun _ => false) true ["DELETE"])
                  5 (Account.start sampleAccount)))
      = trace (Account.start sampleAccount) ++ evs /\
    forallb fetchOrNotice evs = true.
Proof.
  apply (proj2 (empty_selection_is_noop Account.octokit "octocat"
                  (mkOperator Private (fun _ => false) true ["DELETE"]) 5
                  (Account.start sampleAccount) (fun _ => eq_refl))).
Defined.

Lemma getAllRepositories_rejected {W} (octokit : Octokit W) (fuel : nat) (st : St W)
  (full : list (list RawRepo)) (error : Error) :
  Forall (fun d => List.length d = 100) full ->
  List.length full < fuel ->
  answers octokit (List.length full + 1) 1 (world st) = map inr full ++ [inl error] ->
  exists st',
    getAllRepositories octokit fuel st = (Ret [], st') /\
    trace st' = trace st ++
      ([Console FetchingRepositories]
         ++ map (fun p => ListCall (listParams p)) (seq 1 (List.length full + 1)))
      ++ [Console (FailedToFetch error)].
Proof.
  intros Hfull Hfuel Hans.
  destruct (fetchPages_rejected octokit full error Hfull fuel [] 1
              (mkSt (world st) (trace st ++ [Console FetchingRepositories]))
              Hans Hfuel) as (st' & Hrun & Htrace).
  eexists. rewrite getAllRepositories_fetch, Hrun. split; [reflexivity |].
  cbn [trace]. rewrite Htrace. cbn [trace]. now rewrite <- !app_assoc.
Qed.

(** X4. A failed fetch looks like an empty account. When a list call is
    rejected (at the first page or after any number of full pages),
    either flow prints the failure, then "No repositories found", and
    returns: nothing fetched so far is offered for selection, and no
    call other than the list calls is made. *)
Theorem failed_fetch_ends_the_flow {W} (octokit : Octokit W) (username : string)
  (op : Operator) (fuel : nat) (st : St W)
  (full : list (list RawRepo)) (error : Error) :
  Forall (fun d => List.length d = 100) full ->
  List.length full < fuel ->
  answers octokit (List.length full + 1) 1 (world st) = map inr full ++ [inl error] ->
  let shown :=
    ([Console FetchingRepositories]
       ++ map (fun p => ListCall (mkListParams 100 p "updated" "desc"))
              (seq 1 (List.length full + 1)))
    ++ [Console (FailedToFetch error); Console NoRepositoriesFound] in
  (exists st',
     changeVisibilityFlow octokit username op fuel st = (Ret tt, st') /\
     trace st' = trace st ++ shown) /\
  (exists st',
     deleteRepositoriesFlow octokit username op fuel st = (Ret tt, st') /\
     trace st' = trace st ++ shown).
Proof.
  intros Hfull Hfuel Hans shown.
  destruct (getAllRepositories_rejected octokit fuel st full error Hfull Hfuel Hans)
    as (st1 & Hrun & Htrace).
  split.
  - unfold changeVisibilityFlow. rewrite (bind_Ret _ _ _ _ _ Hrun).
    cbn [List.length Nat.eqb]. rewrite log_run. eexists. split; [reflexivity |].
    cbn [trace]. rewrite Htrace. unfold shown. now rewrite <- !app_assoc.
  - unfold deleteRepositoriesFlow. rewrite (bind_Ret _ _ _ _ _ Hrun).
    cbn [List.length Nat.eqb]. rewrite log_run. eexists. split; [reflexivity |].
    cbn [trace]. rewrite Htrace. unfold shown. now rewrite <- !app_assoc.
Qed.

Lemma failed_fetch_ends_the_flow_witness :
  exists st',
    deleteRepositoriesFlow
      (Scripted.octokit [inr Scripted.fullPage; inl Account.notFound]) "octocat"
      (tickOnly "repo" ["DELETE"]) 5 Scripted.start = (Ret tt, st') /\
    trace st' =
      [Console FetchingRepositories;
       ListCall (mkListParams 100 1 "updated" "desc");
       ListCall (mkListParams 100 2 "updated" "desc");
       Console (FailedToFetch Account.notFound); Console NoRepositoriesFound].
Proof.
  exact (proj2 (failed_fetch_ends_the_flow
                  (Scripted.octokit [inr Scripted.fullPage; inl Account.notFound])
                  "octocat" (tickOnly "repo" ["DELETE"]) 5 Scripted.start
                  [Scripted.fullPage] Account.notFound
                  ltac:(repeat constructor) ltac:(simpl; lia) eq_refl)).
Defined.

Lemma choice_values_map {A} (label : A -> string) (value : A -> string) (l : list A) :
  map choice_value (map (fun x => mkChoice (label x) (value x) false) l) = map value l.
Proof. rewrite map_map. reflexivity. Qed.

(** X5. What a visibility flow may touch. After its fetch has returned
    a snapshot, every remote call of the flow is an update, made in the
    name of [username], towards the chosen visibility, on the name of a
    record of that snapshot whose flag differs from the target; the
    flow does not fetch again and never deletes. *)
Theorem visibility_flow_updates_only_eligible {W} (octokit : Octokit W)
  (username : string) (op : Operator) (fuel : nat) (st st1 : St W)
  (snapshot : list Repository) :
  getAllRepositories octokit fuel st = (Ret snapshot, st1) ->
  exists evs,
    trace (snd (changeVisibilityFlow octokit username op fuel st)) = trace st1 ++ evs /\
    forallb (updateWithin username (op_visibility op)
               (map name (filteredRepos (op_visibility op) snapshot))) evs = true.
Proof.
  intros Hfetch. unfold changeVisibilityFlow. rewrite (bind_Ret _ _ _ _ _ Hfetch).
  set (tv := op_visibility op).
  set (names := map name (filteredRepos tv snapshot)).
  destruct (Nat.eqb _ 0); [exists [Console NoRepositoriesFound]; split; reflexivity |].
  destruct (Nat.eqb _ 0);
    [exists [Console (AllAlready (visibility_value tv))]; split; reflexivity |].
  set (choices := map _ (filteredRepos tv snapshot)).
  assert (Hsel : forall n, In n (checkbox op choices) -> In n names).
  { intros n Hin. apply checkbox_within in Hin. unfold choices in Hin.
    now rewrite choice_values_map in Hin. }
  destruct (Nat.eqb _ 0); [exists [Console NoRepositoriesSelected]; split; reflexivity |].
  destruct (op_confirm op).
  - destruct (changeVisibilityConfirmed_run octokit username tv (checkbox op choices) st1)
      as (oks & st' & _ & Hrun & Htrace).
    eexists. rewrite Hrun. split; [exact Htrace |].
    rewrite !forallb_app. cbn [forallb updateWithin andb].
    rewrite batchEvents_forallb; [reflexivity | reflexivity | reflexivity |].
    intros n ok Hin. cbn [updateEvent updateWithin update_owner update_private update_repo].
    now rewrite String.eqb_refl, Bool.eqb_reflx, (existsb_eqb_In _ _ (Hsel n Hin)).
  - exists [Console OperationCancelled]. split; reflexivity.
Qed.

Lemma visibility_flow_updates_only_eligible_witness :
  exists evs snapshot st1,
    getAllRepositories Account.octokit 5 (Account.start sampleAccount)
      = (Ret snapshot, st1) /\
    trace (snd (changeVisibilityFlow Account.octokit "octocat" (tickOnly "a" [])
                  5 (Account.start sampleAccount))) = trace st1 ++ evs /\
    forallb (updateWithin "octocat" Private ["a"; "b"]) evs = true.
Proof.
  destruct (visibility_flow_updates_only_eligible Account.octokit "octocat"
              (tickOnly "a" []) 5 (Account.start sampleAccount) _ _ eq_refl)
    as (evs & Ht & Hall).
  exists evs. eexists. eexists. split; [reflexivity | split; [exact Ht | exact Hall]].
Defined.

(** X6. What a deletion flow may touch. After its fetch has returned a
    snapshot, every remote call of the flow is a delete, made in the
    name of [username], on the name of a record of that snapshot; the
    flow does not fetch again and never updates. *)
Theorem delete_flow_deletes_only_listed {W} (octokit : Octokit W)
  (username : string) (op : Operator) (fuel : nat) (st st1 : St W)
  (snapshot : list Repository) :
  getAllRepositories octokit fuel st = (Ret snapshot, st1) ->
  exists evs,
    trace (snd (deleteRepositoriesFlow octokit username op fuel st)) = trace st1 ++ evs /\
    forallb (deleteWithin username (map name snapshot)) evs = true.
Proof.
  intros Hfetch. unfold deleteRepositoriesFlow. rewrite (bind_Ret _ _ _ _ _ Hfetch).
  set (names := map name snapshot).
  destruct (Nat.eqb _ 0); [exists [Console NoRepositoriesFound]; split; reflexivity |].
  set (choices := map _ snapshot).
  assert (Hsel : forall n, In n (checkbox op choices) -> In n names).
  { intros n Hin. apply checkbox_within in Hin. unfold choices in Hin.
    now rewrite choice_values_map in Hin. }
  destruct (Nat.eqb _ 0); [exists [Console NoRepositoriesSelected]; split; reflexivity |].
  clear Hfetch. revert st1.
  refine (_ : Emits (deleteWithin username names) _).
  apply Emits_bind; [now apply Emits_emit | intros _].
  apply Emits_bind; [apply Emits_forEach; intros x; now apply Emits_emit | intros _].
  apply Emits_bind; [now apply Emits_input_prompt | intros answer].
  destruct (String.eqb_spec answer "DELETE") as [->|Hne].
  - apply Emits_of_run. intros st2.
    destruct (deleteConfirmed_run octokit username (checkbox op choices) st2)
      as (oks & st' & _ & Hrun & Htrace).
    eexists. eexists. eexists. split; [exact Hrun | split; [exact Htrace |]].
    rewrite !forallb_app. cbn [forallb deleteWithin andb].
    rewrite batchEvents_forallb; [reflexivity | reflexivity | reflexivity |].
    intros n ok Hin. cbn [deleteEvent deleteWithin delete_owner delete_repo].
    now rewrite String.eqb_refl, (existsb_eqb_In _ _ (Hsel n Hin)).
  - unfold deleteConfirmed.
    destruct (String.eqb_spec answer "DELETE") as [Heq|_]; [contradiction |].
    now apply Emits_emit.
Qed.

Lemma delete_flow_deletes_only_listed_witness :
  exists evs snapshot st1,
    getAllRepositories Account.octokit 5 (Account.start sampleAccount)
      = (Ret snapshot, st1) /\
    trace (snd (deleteRepositoriesFlow Account.octokit "octocat"
                  (tickOnly "c" ["DELETE"]) 5 (Account.start sampleAccount)))
      = trace st1 ++ evs /\
    forallb (deleteWithin "octocat" ["a"; "b"; "c"]) evs = true.
Proof.
  destruct (delete_flow_deletes_only_listed Account.octokit "octocat"
              (tickOnly "c" ["DELETE"]) 5 (Account.start sampleAccount) _ _ eq_refl)
    as (evs & Ht & Hall).
  exists evs. eexists. eexists. split; [reflexivity | split; [exact Ht | exact Hall]].
Defined.

(** X7. The progress lines of a batch. A confirmed batch of [N] items
    prints one progress bar per item, for [1/N], [2/N], ..., [N/N] in
    this order; so the bar is never asked for a position beyond the
    total, nor for a total of 0. *)
Theorem batch_progress_lines {W} (octokit : Octokit W) (username : string)
  (selectedRepos : list string) (st : St W) :
  let N := List.length selectedRepos in
  let expected := map (fun current => (current, N)) (seq 1 N) in
  Forall (fun line => 1 <= fst line <= snd line) expected /\
  (forall targetVisibility,
     exists st' evs,
       changeVisibilityConfirmed octokit username targetVisibility selectedRepos true st
         = (Ret tt, st') /\
       trace st' = trace st ++ evs /\
       progressLines evs = expected) /\
  (exists st' evs,
     deleteConfirmed octokit username selectedRepos "DELETE" st = (Ret tt, st') /\
     trace st' = trace st ++ evs /\
     progressLines evs = expected).
Proof.
  intros N expected. split; [| split].
  - unfold expected. apply Forall_forall. intros line Hin.
    apply in_map_iff in Hin as (current & <- & Hin). apply in_seq in Hin. cbn. lia.
  - intros tv.
    destruct (changeVisibilityConfirmed_run octokit username tv selectedRepos st)
      as (oks & st' & Hlen & Hrun & Htrace).
    eexists. eexists. split; [exact Hrun | split; [exact Htrace |]].
    unfold progressLines. rewrite !flat_map_app.
    fold (progressLines (batchEvents (updateEvent username tv) (updateReport tv) 100
                           (List.length selectedRepos) 0 selectedRepos oks)).
    rewrite batchEvents_progressLines;
      [| reflexivity | intros n []; reflexivity | exact Hlen].
    cbn. now rewrite app_nil_r.
  - destruct (deleteConfirmed_run octokit username selectedRepos st)
      as (oks & st' & Hlen & Hrun & Htrace).
    eexists. eexists. split; [exact Hrun | split; [exact Htrace |]].
    unfold progressLines. rewrite !flat_map_app.
    fold (progressLines (batchEvents (deleteEvent username) deleteReport 200
                           (List.length selectedRepos) 0 selectedRepos oks)).
    rewrite batchEvents_progressLines;
      [| reflexivity | intros n []; reflexivity | exact Hlen].
    cbn. now rewrite app_nil_r.
Qed.

(* ------------------------------------------------------------------ *)
(** * The other helpers of src/utils.ts                                 *)
(* ------------------------------------------------------------------ *)

Lemma keeps_spec (rt : Runtime) (filter : Filter) (repo : Repository) :
  keeps rt filter repo = true <->
  (forall p, filter_private filter = Some p -> private repo = p) /\
  (forall l, filter_language filter = Some l -> l <> EmptyString ->
     toLowerCase rt (language repo) = toLowerCase rt l) /\
  (forall m, filter_minSize filter = Some m -> (m <= size repo)%Z) /\
  (forall m, filter_maxSize filter = Some m -> (size repo <= m)%Z).
Proof.
  unfold keeps. destruct filter as [fp fl lo hi].
  cbn [filter_private filter_language filter_minSize filter_maxSize].
  split.
  - intros Hkeeps. repeat split.
    + intros p ->. destruct (Bool.eqb_spec (private repo) p); [assumption | discriminate].
    + intros l -> Hl.
      destruct fp as [p|]; [destruct (Bool.eqb (private repo) p); [| discriminate] |];
        cbn [negb] in Hkeeps;
        (destruct (String.eqb_spec l EmptyString); [contradiction |]);
        (destruct (String.eqb_spec (toLowerCase rt (language repo)) (toLowerCase rt l));
           [assumption | discriminate]).
    + intros m ->.
      destruct (match fp with Some p => negb (Bool.eqb (private repo) p) | None => false end);
        [discriminate |].
      destruct (match fl with Some l => _ | None => false end); [discriminate |].
      destruct (Z.ltb_spec (size repo) m); [discriminate | assumption].
    + intros m ->.
      destruct (match fp with Some p => negb (Bool.eqb (private repo) p) | None => false end);
        [discriminate |].
      destruct (match fl with Some l => _ | None => false end); [discriminate |].
      destruct (match lo with Some l => _ | None => false end); [discriminate |].
      destruct (Z.ltb_spec m (size repo)); [discriminate | lia].
  - intros (Hp & Hl & Hlo & Hhi).
    assert (Tp : match fp with Some p => negb (Bool.eqb (private repo) p) | None => false end
                 = false).
    { destruct fp as [p|]; [| reflexivity]. rewrite (Hp p eq_refl).
      now rewrite Bool.eqb_reflx. }
    assert (Tl : match fl with
                 | Some l =>
                     negb (String.eqb l EmptyString)
                     && negb (String.eqb (toLowerCase rt (language repo)) (toLowerCase rt l))
                 | None => false
                 end = false).
    { destruct fl as [l|]; [| reflexivity].
      destruct (String.eqb_spec l EmptyString) as [|Hne]; [reflexivity |].
      rewrite (Hl l eq_refl Hne), String.eqb_refl. reflexivity. }
    assert (Tlo : match lo with Some m => (size repo <? m)%Z | None => false end = false).
    { destruct lo as [m|]; [| reflexivity]. specialize (Hlo m eq_refl).
      apply Z.ltb_ge. lia. }
    assert (Thi : match hi with Some m => (m <? size repo)%Z | None => false end = false).
    { destruct hi as [m|]; [| reflexivity]. specialize (Hhi m eq_refl).
      apply Z.ltb_ge. lia. }
    now rewrite Tp, Tl, Tlo, Thi.
Qed.

(** X8. With no criterion set, [filterRepositories] returns the list as
    it is; a language criterion that is the empty string counts as not
    set. *)
Theorem filterRepositories_no_criteria (rt : Runtime) (repos : list Repository)
  (filter : Filter) :
  filter_private filter = None ->
  filter_language filter = None \/ filter_language filter = Some EmptyString ->
  filter_minSize filter = None ->
  filter_maxSize filter = None ->
  filterRepositories rt repos filter = repos.
Proof.
  intros Hp Hl Hlo Hhi. unfold filterRepositories.
  induction repos as [|repo repos IH]; cbn [List.filter]; [reflexivity |].
  replace (keeps rt filter repo) with true; [now rewrite IH |].
  symmetry. apply keeps_spec. rewrite Hp, Hlo, Hhi.
  repeat split; try discriminate.
  intros l Hsome Hne. destruct Hl as [Hl|Hl]; rewrite Hl in Hsome; [discriminate |].
  injection Hsome as <-. contradiction.
Qed.

Lemma filterRepositories_no_criteria_witness :
  filterRepositories sampleRuntime [olderRepo; newerRepo]
    (mkFilter None (Some EmptyString) None None) = [olderRepo; newerRepo].
Proof.
  apply filterRepositories_no_criteria; [reflexivity | now right | reflexivity | reflexivity].
Defined.

(** X9. [filterRepositories] keeps exactly the records that pass every
    criterion that is set (the flag equal, the language equal up to
    case, the size within the bounds, both inclusive), in the order of
    the input; with a lower bound above the upper bound nothing is
    kept. *)
Theorem filterRepositories_spec (rt : Runtime) (repos : list Repository)
  (filter : Filter) :
  (forall repo,
     In repo (filterRepositories rt repos filter) <->
     In repo repos /\
     (forall p, filter_private filter = Some p -> private repo = p) /\
     (forall l, filter_language filter = Some l -> l <> EmptyString ->
        toLowerCase rt (language repo) = toLowerCase rt l) /\
     (forall m, filter_minSize filter = Some m -> (m <= size repo)%Z) /\
     (forall m, filter_maxSize filter = Some m -> (size repo <= m)%Z)) /\
  Subsequence (filterRepositories rt repos filter) repos /\
  (forall lo hi,
     filter_minSize filter = Some lo -> filter_maxSize filter = Some hi ->
     (hi < lo)%Z -> filterRepositories rt repos filter = []).
Proof.
  split; [| split].
  - intros repo. unfold filterRepositories. rewrite filter_In, keeps_spec. reflexivity.
  - apply filter_Subsequence.
  - intros lo hi Hlo Hhi Hlt. unfold filterRepositories.
    induction repos as [|repo repos IH]; cbn [List.filter]; [reflexivity |].
    destruct (keeps rt filter repo) eqn:Hk; [| exact IH].
    apply keeps_spec in Hk as (_ & _ & Hmin & Hmax).
    specialize (Hmin lo Hlo). specialize (Hmax hi Hhi). lia.
Qed.

Lemma filterRepositories_spec_witness :
  filterRepositories sampleRuntime [olderRepo; newerRepo]
    (mkFilter (Some false) (Some "TYPESCRIPT") (Some 5%Z) (Some 10%Z)) = [olderRepo] /\
  filterRepositories sampleRuntime [olderRepo; newerRepo]
    (mkFilter None None (Some 30%Z) (Some 10%Z)) = [].
Proof.
  split; [reflexivity |].
  apply (proj2 (proj2 (filterRepositories_spec sampleRuntime [olderRepo; newerRepo]
                         (mkFilter None None (Some 30%Z) (Some 10%Z))))
           30%Z 10%Z eq_refl eq_refl).
  lia.
Defined.

(** X10. The eligibility filter of the visibility flow is
    [filterRepositories] with the one criterion "flag opposite to the
    target"; and criteria can be applied one after the other in either
    order, a second application of the same criteria changing
    nothing. *)
Theorem filterRepositories_composes (rt : Runtime) (repos : list Repository) :
  (forall targetVisibility,
     filteredRepos targetVisibility repos
       = filterRepositories rt repos
           (mkFilter (Some (negb (isTargetPrivate targetVisibility))) None None None)) /\
  (forall f g,
     filterRepositories rt (filterRepositories rt repos f) g
       = filterRepositories rt (filterRepositories rt repos g) f) /\
  (forall f,
     filterRepositories rt (filterRepositories rt repos f) f
       = filterRepositories rt repos f).
Proof.
  split; [| split].
  - intros tv. unfold filteredRepos, filterRepositories. apply filter_ext.
    intros repo. unfold keeps. cbn.
    destruct (private repo), (isTargetPrivate tv); reflexivity.
  - intros f g. unfold filterRepositories.
    induction repos as [|repo repos IH]; cbn [List.filter]; [reflexivity |].
    destruct (keeps rt f repo) eqn:Hf, (keeps rt g repo) eqn:Hg; cbn [List.filter];
      rewrite ?Hf, ?Hg, IH; reflexivity.
  - intros f. unfold filterRepositories.
    induction repos as [|repo repos IH]; cbn [List.filter]; [reflexivity |].
    destruct (keeps rt f repo) eqn:Hf; cbn [List.filter]; rewrite ?Hf, IH; reflexivity.
Qed.

(** X11. What [formatSize] prints for a size that is an integer of
    magnitude below 2^53. Below 1024 the size itself in KB; from 1024
    up to 1024 * 1024 the size in MB with one decimal, at most half a
    tenth of a MB away from the size; from there on the same in GB.
    The MB figure runs from 1.0 up to 1024.0, which is printed for the
    sizes from 1048525 on: the last 51 sizes before 1 GB read
    "1024.0 MB". *)
Theorem formatSize_rounding (sizeInKB : Z) :
  safeInteger sizeInKB ->
  ((sizeInKB < 1024)%Z -> formatSize sizeInKB = (decimal sizeInKB ++ " KB")%string) /\
  ((1024 <= sizeInKB < 1048576)%Z ->
     exists n,
       formatSize sizeInKB = (oneDecimal n ++ " MB")%string /\
       (10 <= n <= 10240)%Z /\
       (Z.abs (1024 * n - 10 * sizeInKB) <= 512)%Z /\
       (n = 10240%Z <-> (1048525 <= sizeInKB)%Z)) /\
  ((1048576 <= sizeInKB)%Z ->
     exists n,
       formatSize sizeInKB = (oneDecimal n ++ " GB")%string /\
       (10 <= n <= 10 * 2 ^ 33)%Z /\
       (Z.abs (1048576 * n - 10 * sizeInKB) <= 524288)%Z).
Proof.
  intros [Hmin Hmax]. unfold formatSize. split; [| split].
  - intros H. apply Z.ltb_lt in H. now rewrite H.
  - intros [Hlo Hhi].
    replace (sizeInKB <? 1024)%Z with false by (symmetry; apply Z.ltb_ge; lia).
    replace (sizeInKB <? 1024 * 1024)%Z with true by (symmetry; apply Z.ltb_lt; lia).
    exists (tenths sizeInKB 1024). split; [reflexivity |].
    unfold tenths.
    pose proof (Z.div_mod (20 * sizeInKB + 1024) (2 * 1024) ltac:(lia)) as Hdm.
    pose proof (Z.mod_pos_bound (20 * sizeInKB + 1024) (2 * 1024) ltac:(lia)) as Hmod.
    set (n := ((20 * sizeInKB + 1024) / (2 * 1024))%Z) in *.
    repeat split; lia.
  - intros Hlo.
    replace (sizeInKB <? 1024)%Z with false by (symmetry; apply Z.ltb_ge; lia).
    replace (sizeInKB <? 1024 * 1024)%Z with false by (symmetry; apply Z.ltb_ge; lia).
    exists (tenths sizeInKB (1024 * 1024)). split; [reflexivity |].
    unfold tenths.
    pose proof (Z.div_mod (20 * sizeInKB + 1024 * 1024) (2 * (1024 * 1024)) ltac:(lia))
      as Hdm.
    pose proof (Z.mod_pos_bound (20 * sizeInKB + 1024 * 1024) (2 * (1024 * 1024))
                  ltac:(lia)) as Hmod.
    set (n := ((20 * sizeInKB + 1024 * 1024) / (2 * (1024 * 1024)))%Z) in *.
    change (2 ^ 53)%Z with 9007199254740992%Z in Hmax.
    change (2 ^ 33)%Z with 8589934592%Z.
    repeat split; lia.
Qed.

Lemma formatSize_rounding_witness :
  formatSize 1023 = "1023 KB" /\
  (exists n, formatSize 1048575 = (oneDecimal n ++ " MB")%string /\ n = 10240%Z) /\
  (exists n, formatSize 1572864 = (oneDecimal n ++ " GB")%string /\ (10 <= n)%Z).
Proof.
  assert (Hsafe : forall z, (0 <= z < 2000000)%Z -> safeInteger z).
  { intros z Hz. unfold safeInteger.
    change (2 ^ 53)%Z with 9007199254740992%Z. lia. }
  split; [| split].
  - apply (proj1 (formatSize_rounding 1023 (Hsafe 1023%Z ltac:(lia)))). lia.
  - destruct (proj1 (proj2 (formatSize_rounding 1048575 (Hsafe 1048575%Z ltac:(lia))))
                ltac:(lia)) as (n & Htext & _ & _ & Hmax).
    exists n. split; [exact Htext | apply Hmax; lia].
  - destruct (proj2 (proj2 (formatSize_rounding 1572864 (Hsafe 1572864%Z ltac:(lia))))
                ltac:(lia)) as (n & Htext & Hn & _).
    exists n. split; [exact Htext | lia].
Defined.

Example formatSize_examples :
  formatSize 0 = "0 KB" /\ formatSize 1024 = "1.0 MB" /\ formatSize 1536 = "1.5 MB" /\
  formatSize 1048575 = "1024.0 MB" /\ formatSize 1048576 = "1.0 GB" /\
  formatSize 1100 = "1.1 MB".
Proof. vm_compute. repeat split; reflexivity. Qed.

(** ** The progress bar *)

Lemma In_triangle (n : nat) (c t : Z) :
  (1 <= c <= t)%Z -> (t <= Z.of_nat n)%Z -> In (c, t) (triangle n).
Proof.
  intros Hc Ht. unfold triangle. apply in_flat_map.
  exists (Z.to_nat t). split; [apply in_seq; lia |].
  apply in_map_iff. exists (Z.to_nat c). split; [f_equal; lia | apply in_seq; lia].
Qed.

Lemma In_box (lo hi : Z) (n : nat) (c t : Z) :
  (lo <= c <= hi)%Z -> (0 <= t <= Z.of_nat n)%Z -> In (c, t) (box lo hi n).
Proof.
  intros Hc Ht. unfold box. apply in_flat_map.
  exists (Z.to_nat t). split; [apply in_seq; lia |].
  apply in_map_iff. exists (Z.to_nat (c - lo)). split; [f_equal; lia | apply in_seq; lia].
Qed.

Lemma barWithin_checked : forallb barWithin (triangle 120) = true.
Proof. vm_compute. reflexivity. Qed.

Lemma barThrowsAgrees_checked : forallb barThrowsAgrees (box (-40) 80 40) = true.
Proof. vm_compute. reflexivity. Qed.

(** X12. The bar within a batch. For a position [1 <= current <=
    total] in a batch of at most 120 items, [displayProgressBar] does
    not throw: it returns a bar of exactly 30 cells of which
    [floor (30 * current / total)] are full, followed by the percentage
    and the position; the last bar is full and reads 100.0%. *)
Theorem displayProgressBar_within (current total : Z) :
  (1 <= current <= total)%Z -> (total <= 120)%Z ->
  exists percentage,
    let filled := Z.to_nat (30 * current / total) in
    displayProgressBar current total 30
      = Bar ("[" ++ cells fullCell filled ++ cells lightCell (30 - filled) ++ "] "
                 ++ percentage ++ "% (" ++ decimal current ++ "/" ++ decimal total
                 ++ ")")%string /\
    filled <= 30 /\
    (current = total -> filled = 30 /\ percentage = "100.0").
Proof.
  intros Hc Ht.
  pose proof (proj1 (forallb_forall _ _) barWithin_checked (current, total)
                (In_triangle 120 current total Hc ltac:(cbn; lia))) as Hok.
  unfold barWithin in Hok. unfold displayProgressBar.
  destruct (barParts current total 30) as [[[f e]|] percentage]; [| discriminate].
  apply andb_prop in Hok as [Hok Hpct]. apply andb_prop in Hok as [Hf He].
  apply Nat.eqb_eq in Hf, He. exists percentage. cbv zeta. rewrite <- Hf.
  replace (30 - f) with e by lia.
  split; [reflexivity | split; [lia |]].
  intros ->. split.
  - rewrite Hf. rewrite Z.div_mul by lia. reflexivity.
  - rewrite Z.eqb_refl in Hpct. cbn in Hpct. now apply String.eqb_eq.
Qed.

Lemma displayProgressBar_within_witness :
  exists percentage,
    displayProgressBar 5 12 30
      = Bar ("[" ++ cells fullCell 12 ++ cells lightCell 18 ++ "] "
                 ++ percentage ++ "% (5/12)")%string.
Proof.
  destruct (displayProgressBar_within 5 12 ltac:(lia) ltac:(lia)) as (p & Hbar & _).
  exists p. exact Hbar.
Defined.

(** X13. When the bar throws. For a total from 0 to 40 and a position
    from -40 to 80, [displayProgressBar(current, total)] throws a
    RangeError exactly when the total is 0 and the position is not, or
    the total is positive and the position is negative or at least
    31/30 of the total (the bar would need more than 30 full cells);
    for 0 of 0 it returns an empty bar with NaN%. *)
Theorem displayProgressBar_throws (current total : Z) :
  (-40 <= current <= 80)%Z -> (0 <= total <= 40)%Z ->
  (displayProgressBar current total 30 = ThrowsRangeError <->
   (total = 0%Z /\ current <> 0%Z) \/
   ((0 < total)%Z /\ ((current < 0)%Z \/ (31 * total <= 30 * current)%Z))) /\
  displayProgressBar 0 0 30 = Bar "[] NaN% (0/0)".
Proof.
  intros Hc Ht. split; [| vm_compute; reflexivity].
  pose proof (proj1 (forallb_forall _ _) barThrowsAgrees_checked (current, total)
                (In_box (-40) 80 40 current total Hc ltac:(cbn; lia))) as Hok.
  unfold barThrowsAgrees, barThrows in Hok. cbn [fst snd] in Hok.
  destruct (displayProgressBar current total 30) as [text|].
  - split; [discriminate |]. intros Hthrows. exfalso.
    destruct (Z.eqb_spec total 0) as [->|Hne].
    + destruct (Z.eqb_spec current 0); cbn in Hok; [lia | discriminate].
    + destruct (Z.ltb_spec current 0), (Z.leb_spec (31 * total) (30 * current));
        cbn in Hok; try discriminate; lia.
  - split; [intros _ | reflexivity].
    destruct (Z.eqb_spec total 0) as [->|Hne].
    + destruct (Z.eqb_spec current 0); cbn in Hok; [discriminate | left; lia].
    + destruct (Z.ltb_spec current 0), (Z.leb_spec (31 * total) (30 * current));
        cbn in Hok; try discriminate; right; lia.
Qed.

Lemma displayProgressBar_throws_witness :
  displayProgressBar 2 1 30 = ThrowsRangeError.
Proof.
  apply (proj1 (displayProgressBar_throws 2 1 ltac:(lia) ltac:(lia))).
  right. lia.
Defined.

Lemma formatSize_binary64_checked :
  forallb (fun z => String.eqb (formatSizeBinary64 z) (formatSize z))
          (map Z.of_nat (seq 0 2200)
             ++ map (fun i => 1048300 + Z.of_nat i)%Z (seq 0 500)
             ++ map (fun i => 8388400 + Z.of_nat i)%Z (seq 0 400)) = true.
Proof. vm_compute. reflexivity. Qed.

(* ------------------------------------------------------------------ *)
(** * The session                                                       *)
(* ------------------------------------------------------------------ *)

Lemma NoThrow_changeVisibilityFlow {W} (octokit : Octokit W) username op fuel :
  NoThrow (changeVisibilityFlow octokit username op fuel).
Proof.
  unfold changeVisibilityFlow.
  apply NoThrow_bind; [apply NoThrow_getAllRepositories | intros repos].
  destruct (Nat.eqb _ 0); [apply NoThrow_log |].
  destruct (Nat.eqb _ 0); [apply NoThrow_log |].
  destruct (Nat.eqb _ 0); [apply NoThrow_log |].
  apply NoThrow_changeVisibilityConfirmed.
Qed.

Lemma NoThrow_deleteRepositoriesFlow {W} (octokit : Octokit W) username op fuel :
  NoThrow (deleteRepositoriesFlow octokit username op fuel).
Proof.
  unfold deleteRepositoriesFlow.
  apply NoThrow_bind; [apply NoThrow_getAllRepositories | intros repos].
  destruct (Nat.eqb _ 0); [apply NoThrow_log |].
  destruct (Nat.eqb _ 0); [apply NoThrow_log |].
  apply NoThrow_bind; [apply NoThrow_log | intros _].
  apply NoThrow_bind; [apply NoThrow_forEach; intros x; apply NoThrow_log | intros _].
  apply NoThrow_bind; [apply NoThrow_input_prompt | intros answer].
  apply NoThrow_deleteConfirmed.
Qed.

Section SessionRules.

Context {W : Type}.

Lemma Calm_sret {A} (a : A) : Calm (@sret W A a).
Proof. intros s. exact I. Qed.

Lemma Calm_print (l : Line) : Calm (@print W l).
Proof. intros s. exact I. Qed.

Lemma Calm_waiting {A} : Calm (@waiting W A).
Proof. intros s. exact I. Qed.

Lemma Calm_sbind {A B} (m : Session W A) (k : A -> Session W B) :
  Calm m -> (forall a, Calm (k a)) -> Calm (sbind m k).
Proof.
  intros Hm Hk s. unfold sbind. specialize (Hm s).
  destruct (m s) as [[a|e| |code] s1]; cbn in *; try exact I; try contradiction.
  apply Hk.
Qed.

Lemma Calm_lift {A} (m : M W A) : NoThrow m -> Calm (lift m).
Proof.
  intros Hm s. unfold lift. specialize (Hm (mkSt (fst s) [])).
  destruct (m (mkSt (fst s) [])) as [[a|e|] st]; cbn in *; try exact I.
  now apply (Hm e).
Qed.

Lemma Calm_sforEach {A} (f : A -> Session W unit) (l : list A) :
  (forall x, Calm (f x)) -> Calm (sforEach f l).
Proof.
  intros Hf. induction l as [|x l IH]; cbn [sforEach].
  - apply Calm_sret.
  - apply Calm_sbind; auto.
Qed.

Variable P : Shown -> bool.

Lemma Shows_sret {A} (a : A) : Shows P (@sret W A a).
Proof. intros s. exists []. cbn. now rewrite app_nil_r. Qed.

Lemma Shows_waiting {A} : Shows P (@waiting W A).
Proof. intros s. exists []. cbn. now rewrite app_nil_r. Qed.

Lemma Shows_exit {A} (code : Z) : Shows P (@exit W A code).
Proof. intros s. exists []. cbn. now rewrite app_nil_r. Qed.

Lemma Shows_print (l : Line) : P (Printed l) = true -> Shows P (@print W l).
Proof. intros Hl s. exists [Printed l]. cbn [print snd forallb]. now rewrite Hl. Qed.

Lemma Shows_sbind {A B} (m : Session W A) (k : A -> Session W B) :
  Shows P m -> (forall a, Shows P (k a)) -> Shows P (sbind m k).
Proof.
  intros Hm Hk s. unfold sbind. destruct (Hm s) as (new1 & H1 & HP1).
  destruct (m s) as [[a|e| |code] s1]; cbn [snd] in *; try (exists new1; auto; fail).
  destruct (Hk a s1) as (new2 & H2 & HP2).
  exists (new1 ++ new2). rewrite H2, H1, app_assoc, forallb_app, HP1, HP2. auto.
Qed.

Lemma Shows_stry {A} (body : Session W A) (handler : Error -> Session W A) :
  Shows P body -> (forall e, Shows P (handler e)) -> Shows P (stry body handler).
Proof.
  intros Hb Hh s. unfold stry. destruct (Hb s) as (new1 & H1 & HP1).
  destruct (body s) as [[a|e| |code] s1]; cbn [snd] in *; try (exists new1; auto; fail).
  destruct (Hh e s1) as (new2 & H2 & HP2).
  exists (new1 ++ new2). rewrite H2, H1, app_assoc, forallb_app, HP1, HP2. auto.
Qed.

Lemma Shows_lift {A} (m : M W A) :
  Emits (fun e => P (Flow e)) m -> Shows P (lift m).
Proof.
  intros Hm s. unfold lift. destruct (Hm (mkSt (fst s) [])) as (evs & Ht & HP).
  destruct (m (mkSt (fst s) [])) as [o st]. cbn [snd trace app] in *.
  exists (map Flow evs). rewrite Ht. split; [reflexivity |].
  rewrite forallb_forall in *. intros x Hx. apply in_map_iff in Hx as (e & <- & He). auto.
Qed.

Lemma Shows_sforEach {A} (f : A -> Session W unit) (l : list A) :
  (forall x, Shows P (f x)) -> Shows P (sforEach f l).
Proof.
  intros Hf. induction l as [|x l IH]; cbn [sforEach].
  - apply Shows_sret.
  - apply Shows_sbind; auto.
Qed.

End SessionRules.

Lemma batchEvents_ownedBy_update (username : string) (tv : Visibility) total i rest oks :
  forallb (ownedBy username)
          (batchEvents (updateEvent username tv) (updateReport tv) 100 total i rest oks)
    = true.
Proof.
  apply batchEvents_forallb; [reflexivity | reflexivity |].
  intros n ok _. cbn. apply String.eqb_refl.
Qed.

Lemma batchEvents_ownedBy_delete (username : string) total i rest oks :
  forallb (ownedBy username)
          (batchEvents (deleteEvent username) deleteReport 200 total i rest oks)
    = true.
Proof.
  apply batchEvents_forallb; [reflexivity | reflexivity |].
  intros n ok _. cbn. apply String.eqb_refl.
Qed.

Lemma Emits_ownedBy_changeVisibilityFlow {W} (octokit : Octokit W) username op fuel :
  Emits (ownedBy username) (changeVisibilityFlow octokit username op fuel).
Proof.
  unfold changeVisibilityFlow.
  apply Emits_bind.
  { apply Emits_getAllRepositories.
    intros e He; destruct e as [[]| | | |]; cbn in *; try reflexivity; discriminate. }
  intros repos.
  destruct (Nat.eqb _ 0); [now apply Emits_emit |].
  destruct (Nat.eqb _ 0); [now apply Emits_emit |].
  destruct (Nat.eqb _ 0); [now apply Emits_emit |].
  destruct (op_confirm op); [| now apply Emits_emit].
  apply Emits_of_run. intros st.
  destruct (changeVisibilityConfirmed_run octokit username (op_visibility op)
              (checkbox op (map (fun repo =>
                 mkChoice (name repo ++ " (" ++ visibilityLabel (private repo)
                             ++ ") - " ++ language repo)%string (name repo) false)
                 (filteredRepos (op_visibility op) repos))) st)
    as (oks & st' & _ & Hrun & Htrace).
  eexists. eexists. eexists. split; [exact Hrun | split; [exact Htrace |]].
  rewrite !forallb_app, batchEvents_ownedBy_update. reflexivity.
Qed.

Lemma Emits_ownedBy_deleteRepositoriesFlow {W} (octokit : Octokit W) username op fuel :
  Emits (ownedBy username) (deleteRepositoriesFlow octokit username op fuel).
Proof.
  unfold deleteRepositoriesFlow.
  apply Emits_bind.
  { apply Emits_getAllRepositories.
    intros e He; destruct e as [[]| | | |]; cbn in *; try reflexivity; discriminate. }
  intros repos.
  destruct (Nat.eqb _ 0); [now apply Emits_emit |].
  destruct (Nat.eqb _ 0); [now apply Emits_emit |].
  apply Emits_bind; [now apply Emits_emit | intros _].
  apply Emits_bind; [apply Emits_forEach; intros x; now apply Emits_emit | intros _].
  apply Emits_bind; [now apply Emits_input_prompt | intros answer].
  destruct (String.eqb_spec answer "DELETE") as [->|Hne].
  - apply Emits_of_run. intros st.
    destruct (deleteConfirmed_run octokit username
                (checkbox op (map (fun repo =>
                   mkChoice (name repo ++ " (" ++ visibilityLabel (private repo)
                               ++ ") - " ++ language repo ++ " - "
                               ++ description repo)%string (name repo) false) repos)) st)
      as (oks & st' & _ & Hrun & Htrace).
    eexists. eexists. eexists. split; [exact Hrun | split; [exact Htrace |]].
    rewrite !forallb_app, batchEvents_ownedBy_delete. reflexivity.
  - unfold deleteConfirmed.
    destruct (String.eqb_spec answer "DELETE") as [Heq|_]; [contradiction |].
    now apply Emits_emit.
Qed.

Section SessionFacts.

Context {W : Type}.
Variable octokit : Octokit W.
Variable getAuthenticated : W -> (Error + User) * W.
Variable rt : Runtime.
Variable fuel : nat.

Lemma Calm_listRepositories : Calm (listRepositories octokit rt fuel).
Proof.
  unfold listRepositories.
  apply Calm_sbind; [apply Calm_lift, NoThrow_getAllRepositories | intros repos].
  destruct (Nat.eqb _ 0); [apply Calm_lift, NoThrow_log |].
  repeat (apply Calm_sbind; [apply Calm_print | intros _]).
  apply Calm_sbind; [| intros _; apply Calm_print].
  apply Calm_sforEach. intros repo. apply Calm_print.
Qed.

Lemma Calm_showMainMenu (username : string) (visits : list Visit) :
  Calm (showMainMenu octokit rt fuel username visits).
Proof.
  induction visits as [|visit visits IH]; cbn [showMainMenu].
  - apply Calm_sbind; [apply Calm_print | intros _; apply Calm_waiting].
  - apply Calm_sbind; [apply Calm_print | intros _].
    destruct (action visit).
    + apply Calm_sbind; [apply Calm_lift, NoThrow_changeVisibilityFlow | auto].
    + apply Calm_sbind; [apply Calm_lift, NoThrow_deleteRepositoriesFlow | auto].
    + apply Calm_sbind; [apply Calm_listRepositories | auto].
    + apply Calm_print.
Qed.

(** X14. Without a token nothing starts. When [GITHUB_TOKEN] is unset
    or empty, [main] prints that the variable is required and exits
    with code 1: neither the authentication nor any other remote call
    is made, and no menu is shown. *)
Theorem main_without_token (GITHUB_TOKEN : Nullable string) (visits : list Visit)
  (w : W) (shown : list Shown) :
  GITHUB_TOKEN = Null \/ GITHUB_TOKEN = Undefined \/ GITHUB_TOKEN = Val EmptyString ->
  main octokit getAuthenticated rt fuel GITHUB_TOKEN visits (w, shown)
    = (Exited 1, (w, shown ++ [Printed TokenRequired])).
Proof. intros [->|[->| ->]]; reflexivity. Qed.

(** X15. A rejected authentication ends the process. When
    [getAuthenticated] is rejected, [start] prints the failure and
    exits with code 1; the menu is never shown and no repository call
    is made. *)
Theorem start_rejected_authentication (visits : list Visit) (w w' : W)
  (shown : list Shown) (error : Error) :
  getAuthenticated w = (inl error, w') ->
  start octokit getAuthenticated rt fuel visits (w, shown)
    = (Exited 1, (w', shown ++ [Printed (FailedToAuthenticate error)])).
Proof.
  intros Hauth. unfold start, stry, sbind. cbn [fst snd]. rewrite Hauth. reflexivity.
Qed.

Lemma Shows_listRepositories (username : string) :
  Shows (menuShown username) (listRepositories octokit rt fuel).
Proof.
  unfold listRepositories.
  apply Shows_sbind.
  { apply Shows_lift, Emits_getAllRepositories.
    intros e He; destruct e as [[]| | | |]; cbn in *; try reflexivity; discriminate. }
  intros repos.
  destruct (Nat.eqb _ 0); [apply Shows_lift; now apply Emits_emit |].
  repeat (apply Shows_sbind; [now apply Shows_print | intros _]).
  apply Shows_sbind; [| intros _; now apply Shows_print].
  apply Shows_sforEach. intros repo. now apply Shows_print.
Qed.

Lemma Shows_showMainMenu (username : string) (visits : list Visit) :
  Shows (menuShown username) (showMainMenu octokit rt fuel username visits).
Proof.
  induction visits as [|visit visits IH]; cbn [showMainMenu].
  - apply Shows_sbind; [now apply Shows_print | intros _; apply Shows_waiting].
  - apply Shows_sbind; [now apply Shows_print | intros _].
    destruct (action visit).
    + apply Shows_sbind; [| auto].
      apply Shows_lift, Emits_ownedBy_changeVisibilityFlow.
    + apply Shows_sbind; [| auto].
      apply Shows_lift, Emits_ownedBy_deleteRepositoriesFlow.
    + apply Shows_sbind; [apply Shows_listRepositories | auto].
    + now apply Shows_print.
Qed.

Lemma start_authenticated (visits : list Visit) (w w' : W) (shown : list Shown)
  (user : User) :
  getAuthenticated w = (inr user, w') ->
  start octokit getAuthenticated rt fuel visits (w, shown)
    = showMainMenu octokit rt fuel (login user) visits
        (w', shown ++ [Printed Welcome; Printed (LoggedInAs (login user));
                       Printed (EmailIs (or_else (email user) "Not public"))]).
Proof.
  intros Hauth. unfold start, stry, sbind at 1. cbn [fst snd]. rewrite Hauth.
  unfold sbind at 1 2 3, print. cbn [fst snd]. rewrite <- !app_assoc. cbn [app].
  set (greeted := (w', shown ++ _)).
  pose proof (Calm_showMainMenu (login user) visits greeted) as Hcalm.
  destruct (showMainMenu octokit rt fuel (login user) visits greeted)
    as [[a|e| |code] s1]; cbn in Hcalm; try contradiction; reflexivity.
Qed.

(** X16. Once authenticated, the session survives every remote
    failure. Whatever the remote answers afterwards, and whatever
    answers the operator gives at the prompts, [start] greets the user
    and then returns (after Exit) or stays at a prompt: no rejected
    remote call reaches the handler of [start], so no remote failure
    exits the process or prints "Failed to authenticate". The prompts
    are answered or left open here; a prompt that is itself rejected
    (aborted by the operator) is not among the visits of a session,
    and nothing is stated for it. *)
Theorem session_survives_remote_failures (visits : list Visit) (w w' : W)
  (shown : list Shown) (user : User) :
  getAuthenticated w = (inr user, w') ->
  let run := start octokit getAuthenticated rt fuel visits (w, shown) in
  match fst run with
  | Finished _ | Waiting => True
  | Raised _ | Exited _ => False
  end /\
  exists rest,
    snd (snd run)
      = shown ++ [Printed Welcome; Printed (LoggedInAs (login user));
                  Printed (EmailIs (or_else (email user) "Not public"))] ++ rest /\
    forall error, ~ In (Printed (FailedToAuthenticate error)) rest.
Proof.
  intros Hauth run. unfold run. rewrite (start_authenticated visits w w' shown user Hauth).
  split; [apply Calm_showMainMenu |].
  destruct (Shows_showMainMenu (login user) visits
              (w', shown ++ [Printed Welcome; Printed (LoggedInAs (login user));
                             Printed (EmailIs (or_else (email user) "Not public"))]))
    as (rest & Hshown & Hall).
  exists rest. split; [rewrite Hshown; cbn [snd]; now rewrite <- app_assoc |].
  intros error Hin. rewrite forallb_forall in Hall. specialize (Hall _ Hin). discriminate.
Qed.

(** X17. Every mutation of a session is made in the name of the
    authenticated user: after [getAuthenticated] has answered, each
    update and each delete call that [start] leads to carries the
    answered login as its owner. *)
Theorem session_calls_are_owned (visits : list Visit) (w w' : W)
  (shown : list Shown) (user : User) :
  getAuthenticated w = (inr user, w') ->
  exists new,
    snd (snd (start octokit getAuthenticated rt fuel visits (w, shown))) = shown ++ new /\
    forallb (shownOwnedBy (login user)) new = true.
Proof.
  intros Hauth. rewrite (start_authenticated visits w w' shown user Hauth).
  destruct (Shows_showMainMenu (login user) visits
              (w', shown ++ [Printed Welcome; Printed (LoggedInAs (login user));
                             Printed (EmailIs (or_else (email user) "Not public"))]))
    as (rest & Hshown & Hall).
  eexists. split; [rewrite Hshown; cbn [snd]; now rewrite <- app_assoc |].
  rewrite forallb_app. cbn [forallb shownOwnedBy andb].
  rewrite forallb_forall in *. intros x Hx. specialize (Hall x Hx).
  destruct x as [e|l]; [exact Hall | reflexivity].
Qed.

End SessionFacts.

Lemma sbind_ext {W A B} (m : Session W A) (k1 k2 : A -> Session W B) s :
  (forall a s1, k1 a s1 = k2 a s1) -> sbind m k1 s = sbind m k2 s.
Proof.
  intros Hk. unfold sbind. destruct (m s) as [[a|e| |code] s1]; auto.
Qed.

Section SessionViews.

Context {W : Type}.
Variable octokit : Octokit W.
Variable rt : Runtime.
Variable fuel : nat.

(** X18. The menu ends at Exit, and only there. Visits that follow an
    Exit are never made; and when the menu returns, an Exit was chosen
    and "Goodbye" is the last line shown. *)
Theorem menu_ends_at_exit (username : string) :
  (forall before op after s,
     showMainMenu octokit rt fuel username (before ++ mkVisit Exit op :: after) s
       = showMainMenu octokit rt fuel username (before ++ [mkVisit Exit op]) s) /\
  (forall visits s a s',
     showMainMenu octokit rt fuel username visits s = (Finished a, s') ->
     In Exit (map action visits) /\
     exists earlier, snd s' = earlier ++ [Printed Goodbye]).
Proof.
  split.
  - intros before op after. induction before as [|visit before IH]; intros s;
      [reflexivity |].
    cbn [app showMainMenu]. apply sbind_ext. intros _ s1.
    destruct (action visit); try reflexivity; apply sbind_ext; intros _ s2; apply IH.
  - induction visits as [|visit visits IH]; intros s a s' Hrun.
    + cbn in Hrun. discriminate.
    + cbn [showMainMenu] in Hrun. unfold sbind at 1 in Hrun. cbn [print] in Hrun.
      cbn [map In].
      destruct (action visit) eqn:Hact.
      * unfold sbind in Hrun.
        destruct (lift _ _) as [[[]|e| |code] s1]; try discriminate.
        destruct (IH _ _ _ Hrun) as [Hin Hlast]. auto.
      * unfold sbind in Hrun.
        destruct (lift _ _) as [[[]|e| |code] s1]; try discriminate.
        destruct (IH _ _ _ Hrun) as [Hin Hlast]. auto.
      * unfold sbind in Hrun.
        destruct (listRepositories _ _ _ _) as [[[]|e| |code] s1]; try discriminate.
        destruct (IH _ _ _ Hrun) as [Hin Hlast]. auto.
      * injection Hrun as _ <-. split; [now left |]. eexists. reflexivity.
Qed.

Lemma sforEach_print_run {A} (f : A -> Line) (l : list A) (s : W * list Shown) :
  sforEach (fun x => print (f x)) l s
    = (Finished tt, (fst s, snd s ++ map (fun x => Printed (f x)) l)).
Proof.
  revert s. induction l as [|x l IH]; intros s; cbn [sforEach map].
  - unfold sret. rewrite app_nil_r. now destruct s.
  - unfold sbind, print. rewrite IH. cbn [fst snd]. now rewrite <- app_assoc.
Qed.

Lemma lift_run {A} (m : M W A) (w : W) (shown : list Shown) (a : A) (st1 : St W) :
  m (mkSt w []) = (Ret a, st1) ->
  lift m (w, shown) = (Finished a, (world st1, shown ++ map Flow (trace st1))).
Proof. intros Hrun. unfold lift. cbn [fst snd]. now rewrite Hrun. Qed.

(** X19. The list view. With nothing fetched (an empty account or a
    failed fetch) [listRepositories] prints "No repositories found" and
    no table. Otherwise it prints the count and a table with one line
    per fetched record: the same records, sorted in place by their
    update time, newest first when every date is valid. *)
Theorem listRepositories_table (w : W) (shown : list Shown)
  (snapshot : list Repository) (st1 : St W) :
  getAllRepositories octokit fuel (mkSt w []) = (Ret snapshot, st1) ->
  let sorted := Arrays.sorted_elements (Utils.compareFn rt ByUpdated) snapshot in
  (snapshot = [] ->
   listRepositories octokit rt fuel (w, shown)
     = (Finished tt,
        (world st1,
         shown ++ map Flow (trace st1) ++ [Flow (Console NoRepositoriesFound)]))) /\
  (snapshot <> [] ->
   listRepositories octokit rt fuel (w, shown)
     = (Finished tt,
        (world st1,
         shown ++ map Flow (trace st1)
           ++ map Printed ([Found (List.length snapshot); TableTop; TableHeader;
                            TableRule]
                             ++ map tableLine sorted ++ [TableBottom])))) /\
  Permutation sorted snapshot /\
  (Forall (fun repo => getTime rt (updatedAt repo) <> None) snapshot ->
   StronglySorted (fun a b => (updatedTime rt b <= updatedTime rt a)%Z) sorted).
Proof.
  intros Hfetch sorted. split; [| split; [| split]].
  - intros ->. unfold listRepositories, sbind.
    rewrite (lift_run _ w shown [] st1 Hfetch). cbn [List.length Nat.eqb].
    unfold lift. cbn. now rewrite <- app_assoc.
  - intros Hne. unfold listRepositories. unfold sbind at 1.
    rewrite (lift_run _ w shown snapshot st1 Hfetch).
    replace (Nat.eqb (List.length snapshot) 0) with false
      by (destruct snapshot; [contradiction | reflexivity]).
    unfold sbind at 1 2 3 4. unfold print at 1 2 3 4.
    cbn [fst snd Utils.sortRepositories Arrays.sort].
    unfold sbind. rewrite sforEach_print_run. unfold print.
    cbn [fst snd Arrays.read Arrays.write nth].
    fold sorted. f_equal. f_equal.
    rewrite !map_app, map_map. cbn [map app]. rewrite <- !app_assoc. reflexivity.
  - apply sorted_elements_Permutation.
  - intros Hvalid. apply sorted_elements_sorted.
    intros a b Ha Hb. cbn [Utils.compareFn]. unfold updatedTime.
    pose proof (proj1 (Forall_forall _ _) Hvalid a Ha) as Va.
    pose proof (proj1 (Forall_forall _ _) Hvalid b Hb) as Vb.
    cbv beta in Va, Vb.
    destruct (getTime rt (updatedAt a)), (getTime rt (updatedAt b));
      try congruence; reflexivity.
Qed.

(** X20. Listing is read-only: however the fetch goes, what
    [listRepositories] shows contains no update and no delete call. *)
Theorem listRepositories_is_read_only (s : W * list Shown) :
  exists new,
    snd (snd (listRepositories octokit rt fuel s)) = snd s ++ new /\
    forallb readOnly new = true.
Proof.
  revert s. change (Shows readOnly (listRepositories octokit rt fuel)).
  unfold listRepositories.
  apply Shows_sbind.
  { apply Shows_lift, Emits_getAllRepositories.
    intros e He; destruct e as [[]| | | |]; cbn in *; try reflexivity; discriminate. }
  intros repos.
  destruct (Nat.eqb _ 0); [apply Shows_lift; now apply Emits_emit |].
  repeat (apply Shows_sbind; [now apply Shows_print | intros _]).
  apply Shows_sbind; [| intros _; now apply Shows_print].
  apply Shows_sforEach. intros repo. now apply Shows_print.
Qed.

End SessionViews.

Lemma menu_ends_at_exit_witness :
  In Exit (map action [mkVisit ListRepositories (tickOnly "a" []);
                       mkVisit Exit (tickOnly "a" [])]).
Proof.
  apply (proj2 (menu_ends_at_exit Account.octokit sampleRuntime 5 "octocat")
           [mkVisit ListRepositories (tickOnly "a" []); mkVisit Exit (tickOnly "a" [])]
           (sampleAccount, [])
           tt
           (snd (showMainMenu Account.octokit sampleRuntime 5 "octocat"
                   [mkVisit ListRepositories (tickOnly "a" []);
                    mkVisit Exit (tickOnly "a" [])]
                   (sampleAccount, [])))).
  vm_compute. reflexivity.
Defined.

Lemma listRepositories_table_witness :
  exists lines,
    snd (snd (listRepositories Account.octokit sampleRuntime 5 (sampleAccount, [])))
      = lines ++ [Printed TableBottom] /\
    Permutation
      (Arrays.sorted_elements (Utils.compareFn sampleRuntime ByUpdated)
         (map (toRepository "2024-06-01T00:00:00.000Z") sampleAccount))
      (map (toRepository "2024-06-01T00:00:00.000Z") sampleAccount).
Proof.
  pose proof (listRepositories_table Account.octokit sampleRuntime 5 sampleAccount []
                (map (toRepository "2024-06-01T00:00:00.000Z") sampleAccount)
                (snd (getAllRepositories Account.octokit 5 (mkSt sampleAccount [])))
                eq_refl) as (_ & Htable & Hperm & _).
  split with (x := removelast
                     (snd (snd (listRepositories Account.octokit sampleRuntime 5
                                  (sampleAccount, []))))).
  split; [| exact Hperm].
  rewrite (Htable ltac:(discriminate)). vm_compute. reflexivity.
Defined.

Lemma main_without_token_witness :
  main Account.octokit signsIn sampleRuntime 5 (Val EmptyString)
       [mkVisit Exit (tickOnly "a" [])] (sampleAccount, [])
    = (Exited 1, (sampleAccount, [Printed TokenRequired])).
Proof.
  apply (main_without_token Account.octokit signsIn sampleRuntime 5 (Val EmptyString)
           [mkVisit Exit (tickOnly "a" [])] sampleAccount []).
  right. right. reflexivity.
Defined.

Lemma start_rejected_authentication_witness :
  start Account.octokit (fun w => (inl Account.notFound, w)) sampleRuntime 5
        [mkVisit Exit (tickOnly "a" [])] (sampleAccount, [])
    = (Exited 1, (sampleAccount, [Printed (FailedToAuthenticate Account.notFound)])).
Proof.
  apply (start_rejected_authentication Account.octokit
           (fun w => (inl Account.notFound, w)) sampleRuntime 5
           [mkVisit Exit (tickOnly "a" [])] sampleAccount sampleAccount []
           Account.notFound eq_refl).
Defined.

Lemma session_survives_remote_failures_witness :
  let run := start Refusing.octokit signsIn sampleRuntime 5
               [mkVisit ChangeVisibility (tickOnly "a" []);
                mkVisit DeleteRepositories (tickOnly "c" ["DELETE"]);
                mkVisit Exit (tickOnly "a" [])] (sampleAccount, []) in
  match fst run with
  | Finished _ | Waiting => True
  | Raised _ | Exited _ => False
  end /\
  In (Flow (UpdateCall (mkUpdateParams "octocat" "a" true) false)) (snd (snd run)) /\
  In (Flow (DeleteCall (mkDeleteParams "octocat" "c") false)) (snd (snd run)) /\
  fst run = Finished tt.
Proof.
  cbv zeta. split.
  - apply (session_survives_remote_failures Refusing.octokit signsIn sampleRuntime 5
             [mkVisit ChangeVisibility (tickOnly "a" []);
              mkVisit DeleteRepositories (tickOnly "c" ["DELETE"]);
              mkVisit Exit (tickOnly "a" [])]
             sampleAccount sampleAccount [] (mkUser "octocat" Null) eq_refl).
  - split; [vm_compute; intuition | split; [vm_compute; intuition | vm_compute; reflexivity]].
Defined.

Lemma session_calls_are_owned_witness :
  exists new,
    snd (snd (start Account.octokit signsIn sampleRuntime 5
                [mkVisit ChangeVisibility (tickOnly "a" []);
                 mkVisit Exit (tickOnly "a" [])] (sampleAccount, [])))
      = [] ++ new /\
    forallb (shownOwnedBy "octocat") new = true.
Proof.
  apply (session_calls_are_owned Account.octokit signsIn sampleRuntime 5
           [mkVisit ChangeVisibility (tickOnly "a" []); mkVisit Exit (tickOnly "a" [])]
           sampleAccount sampleAccount [] (mkUser "octocat" Null) eq_refl).
Defined.

(** A whole session: list, make "a" private, delete "c" after one
    mistyped confirmation, exit. *)
Example session_run :
  let run := main Account.octokit signsIn sampleRuntime 5 (Val "ghp_token")
               [mkVisit ListRepositories (tickOnly "a" []);
                mkVisit ChangeVisibility (tickOnly "a" []);
                mkVisit DeleteRepositories (tickOnly "c" ["delete"; "DELETE"]);
                mkVisit Exit (tickOnly "a" [])]
               (sampleAccount, []) in
  fst run = Finished tt /\
  map raw_name (fst (snd run)) = ["a"; "b"] /\
  map raw_private (fst (snd run)) = [true; false] /\
  List.length (tableLines (snd (snd run))) = 3 /\
  last (snd (snd run)) (Printed Welcome) = Printed Goodbye.
Proof. vm_compute. repeat split; reflexivity. Qed.

(** ** The cells of the list view *)

Lemma length_cells (c : ascii) (n : nat) : String.length (cells c n) = n.
Proof. induction n as [|n IH]; cbn; [reflexivity | now rewrite IH]. Qed.

Lemma length_padEnd (s : string) (targetLength : nat) :
  String.length (padEnd s targetLength) = Nat.max targetLength (String.length s).
Proof. unfold padEnd. rewrite length_append, length_cells. lia. Qed.

Lemma truncateString_length_le (s : string) (maxLength : Z) :
  (3 <= maxLength)%Z ->
  (Z.of_nat (String.length (Utils.truncateString s maxLength)) <= maxLength)%Z.
Proof.
  intros Hmax. unfold Utils.truncateString.
  destruct (Z.leb_spec (Z.of_nat (String.length s)) maxLength) as [Hle|Hgt];
    [exact Hle |].
  rewrite js_substring_prefix, length_append, length_first_chars. cbn. lia.
Qed.

(** X21. The name and language columns of the list view never
    overflow: the name cell of a table line has at most 28 characters
    and the language cell at most 13, so that, with the leading space
    and [padEnd], the two columns are exactly 30 and 15 characters wide
    for every repository. *)
Theorem tableLine_cells_fit (repo : Repository) :
  exists nameCell visibilityCell languageCell sizeCell,
    tableLine repo = TableLine nameCell visibilityCell languageCell sizeCell /\
    String.length nameCell <= 28 /\
    String.length languageCell <= 13 /\
    String.length (padEnd (" " ++ nameCell) 30) = 30 /\
    String.length (padEnd (" " ++ languageCell) 15) = 15 /\
    row_name (tableRow repo) = nameCell /\
    row_language (tableRow repo) = languageCell.
Proof.
  pose proof (truncateString_length_le (name repo) 28 ltac:(lia)) as Hn.
  pose proof (truncateString_length_le (language repo) 13 ltac:(lia)) as Hl.
  eexists. eexists. eexists. eexists.
  split; [reflexivity |].
  rewrite !length_padEnd, !length_append. cbn [String.length].
  repeat split; lia.
Qed.

(** ** A flow with nothing left to change *)

(** X22. A visibility flow on an account that is already in the target
    state: when the fetched snapshot is not empty and every record has
    the chosen visibility, the flow prints that all repositories are
    already so and returns; the operator is offered nothing to select
    and no call follows the fetch. *)
Theorem visibility_flow_all_already {W} (octokit : Octokit W) (username : string)
  (op : Operator) (fuel : nat) (st st1 : St W) (snapshot : list Repository) :
  getAllRepositories octokit fuel st = (Ret snapshot, st1) ->
  snapshot <> [] ->
  Forall (fun repo => private repo = isTargetPrivate (op_visibility op)) snapshot ->
  changeVisibilityFlow octokit username op fuel st
    = (Ret tt,
       mkSt (world st1)
            (trace st1 ++ [Console (AllAlready (visibility_value (op_visibility op)))])).
Proof.
  intros Hfetch Hne Hall. unfold changeVisibilityFlow.
  rewrite (bind_Ret _ _ _ _ _ Hfetch).
  replace (Nat.eqb (List.length snapshot) 0) with false
    by (destruct snapshot; [contradiction | reflexivity]).
  rewrite (filteredRepos_none _ _ Hall). reflexivity.
Qed.

Lemma visibility_flow_all_already_witness :
  changeVisibilityFlow Account.octokit "octocat" (tickOnly "c" []) 5
    (Account.start [rawRepo "c" true 3])
  = (Ret tt,
     mkSt [rawRepo "c" true 3]
          [Console FetchingRepositories; ListCall (mkListParams 100 1 "updated" "desc");
           Console (AllAlready "private")]).
Proof.
  apply (visibility_flow_all_already Account.octokit "octocat" (tickOnly "c" []) 5
           (Account.start [rawRepo "c" true 3])
           (mkSt [rawRepo "c" true 3]
                 [Console FetchingRepositories;
                  ListCall (mkListParams 100 1 "updated" "desc")])
           [toRepository "2024-06-01T00:00:00.000Z" (rawRepo "c" true 3)]
           eq_refl ltac:(discriminate)).
  repeat constructor.
Defined.
